(* ===== verification/_CoqProject ===== *)
-Q . S2P
Prelude.v
Config.v
JsValue.v
ToNumber.v
GeoJson.v
Filter.v
Style.v
Locale.v
Popup.v
Loader.v
Stats.v
MapView.v
Viewer.v
Navigation.v
Refinement.v
Page.v
Safety.v
Scenario.v
