(* ===== verification/Prelude.v ===== *)
(** * Sudan Regions and Cities: a verification development of the web viewer

    The program (src/web-app) is a Preact single-page application that draws
    GeoJSON data of Sudan on a Leaflet map.  Its parts and how they interact:

    - [app.jsx] ([App]) owns the UI state: placeFilter, showBoundaries,
      adminLevel, searchTerm, mapStyle, the statistics record, loading and
      error, and the reset handler [resetView].
    - [Controls.jsx] turns user input into calls of the setters (five select
      and input controls, the admin-level select disabled while boundaries
      are hidden, and the reset button).
    - [MapView.jsx] keeps Leaflet objects in refs (the map, the tile layer,
      the places and boundaries layer groups, the loaded data) and runs five
      effects after each render, in declaration order, each only when one
      of its dependencies changed: map creation and data loading (mount),
      [displayPlaces] (placeFilter, searchTerm), the boundaries toggle
      (showBoundaries), the admin-level redraw (adminLevel) and the
      basemap switch (mapStyle).  [loadData] fetches five files with
      [Promise.all] and is the only asynchronous step.
    - [Stats.jsx] renders the counters, [Legend.jsx] the static legend,
      [Header.jsx] a static title.
    - Leaflet itself keeps the viewport: [setView] centres the map on
      Khartoum at zoom 6 when it mounts, and afterwards only the user
      drags or zooms it.
    - [vite.config.js] configures the build: the Preact plugin, the
      development server and the output directory.

    Files of the development, in dependency order (each file holds one
    Module per component, named after it):

    - [Prelude] (this file): the exception monad [except] with its
      notation in [except_scope], the effectful [filter_ex] that models
      [Array.prototype.filter] with a callback that may throw, the Ltac
      tactics, the hint databases [geo] and [geo_rw], and the lemmas on
      lists shared by the other files.
    - [Config] ([ViteConfig]): vite.config.js, as the data it is.
    - [JsValue]: JavaScript values as they come out of [JSON.parse]
      (numbers as finite decimals [mant / 10^scale], arrays of values,
      opaque objects), truthiness, [||], [String(v)] (an array joined by
      commas), [toLowerCase] (ASCII) and [includes].
    - [ToNumber] ([ToNumber]): [ToNumber] of a property, the whole
      [StringNumericLiteral] grammar of the standard, with the overflow
      and underflow limits of a double.
    - [GeoJson]: features, their property objects ([gmap string jsval]),
      feature collections; the format of the data files (data/geojson),
      modelled from the spec since those files are not code.
    - [Filter] ([PlaceFilter]): the filter pipeline of [displayPlaces]
      (MapView.jsx 152-164), its specification [shown] and the spec's
      filter engine [spec_filterFeatures] (section 4.2, with its "none"
      policy); [FilterEngine] is the interface between the filter and its
      client: the class [FilterContract] of the laws [displayPlaces]
      relies on, proved for [filterFeatures] by an instance, the client
      lemmas proved from the laws alone.
    - [Style] ([Style]): the style callbacks of [displayPlaces] and
      [displayBoundaries], the legend of Legend.jsx, and the spec's style
      tables (section 4.3).
    - [Locale] ([Locale]): [toLocaleString] (en-US) and [Math.round] as
      the popups use them, NaN and the infinities included.
    - [Popup] ([Popup]): the popups bound by both [onEachFeature]
      callbacks.
    - [Loader] ([Loader]): [loadData] with [Promise.all], [response.ok],
      [json()], the assignments to the refs and the [setStats] updater.
    - [Stats] ([StatsPanel]): the statistics panel of Stats.jsx.
    - [MapView] ([MapView]): the Leaflet state (viewport included), the
      five effects, the five [useEffect] hooks that run them
      ([mount_hook] to [style_hook]) and the commit of a render, the
      cleanup of the mount effect ([mount_cleanup]); the App state, the
      Controls events, [resetView] and the user's drags and zooms; the
      viewer as a step function [step] on [sys]; redrawing is
      idempotent.
    - [Viewer] ([Viewer]): [reachable], the states reached from the first
      render, and [run]; the invariant of the reachable states and the
      behaviour of each event.
    - [Navigation] ([Navigation]): the viewport against the spec's
      promise that only the user moves the map.
    - [Refinement] ([Refinement]): the reachable states against the
      spec's view-state controller: typed props, the places group as a
      refinement of [spec_filterFeatures], the boundaries group and the
      popups on the map, the closure of [loadData]; a property of the map
      that every effect keeps is kept by every render ([render_pres]).
    - [Page] ([Page]): what App renders around the map: Header.jsx,
      the controls of Controls.jsx for the props, the Legend.jsx view,
      and the page layout of app.jsx.
    - [Safety] ([Safety]): no exception escapes on well-formed data, the
      three exceptions that can escape on any data, and the order
      independence of the place controls.
    - [Scenario] ([Scenario]): the data of a small copy of the data files
      and concrete runs that instantiate the theorems.

    How the model corresponds to the code.  A state [sys] holds the App
    state ([app_state]: props, stats, loading, error), MapView's refs and
    the Leaflet objects they reach ([mv_state]), the props of the last
    commit, whether [loadData] is still pending and the admin level its
    closure captured.  A user event is a setter call of Controls.jsx or
    [resetView]; it re-renders App and MapView, and [flush] runs the
    effects whose dependencies changed, in declaration order, stopping at
    an exception (the model records it in [uncaught]).  The completion of
    [loadData] is an event of its own, which may come between any two
    user events, with the order in which the fetches settle.

    Groups of theorems:

    - the filter meets its specification, ignores case and throws
      exactly on a non-string name when searching ([Filter]);
    - the legend agrees with the styles drawn and the styles with the
      spec's tables ([Style]); popups are bound to named features, never
      throw, take their title from the spec's priority chain (empty only
      for an array name) and their rows from the level, and an area
      written as a string is read as its integer ([Popup]); the area text
      reads back as the integer nearest the area ([Locale]); the panel
      shows each counter per state ([Stats]);
    - [loadData] succeeds exactly when the five fetches do, fails without
      touching the data, reports the error the order of the code selects,
      and exposes the data when the points or the [admin1] file has no
      [features] ([Loader]);
    - every reachable state satisfies the invariant [inv] (one tile layer
      of the selected style, at most one GeoJSON layer per group, drawn
      places are loaded features the filters select, nothing filled), and
      each event does what its theorem says: the places redraw, the admin
      redraw, the basemap switch, the reset, the load that draws nothing,
      any run of toggles that keeps both groups, the data loaded once
      ([Viewer]); redrawing twice is redrawing once ([MapView]);
    - every event moves the map as the spec says: to where the user
      dragged it, and nowhere for any other event, the reset included
      ([Navigation]);
    - the props always hold values the controls offer; the places group
      always shows nothing or exactly the spec's selection for the current
      props, with [visible] counting it; the load counts the [admin1]
      boundaries whatever level is selected; the boundaries group always
      shows nothing or one loaded level, in its style and with its
      popups; every drawn place carries its own popup ([Refinement]);
    - the panel follows the load from the loading text to the counts or
      the error ([Page]);
    - on data whose names are strings or falsy and whose geometries have
      known types, no run reports an exception; on any data, an
      exception that escapes is one of three kinds; the place filter and
      the search text commute ([Safety]).

    Bounds and fuel: every function is structurally recursive but
    [normalize] (JsValue), which removes a trailing zero per step and is
    given the scale as fuel; [normalize_terminates] proves the scale
    enough: more fuel gives the same result, a normal form of the number.
    The value type is nested (an array holds values): [to_string] and
    [Locale.locale_text] recurse through [List.map], and [jsval_ind']
    is the induction principle with a hypothesis on the elements.
    [ToNumber.strip_all] trims white space one character per unit of fuel
    and is given the length of the string, enough since each character
    takes at least a byte ([strip_all_concat]).  Numbers are exact
    decimals, never rounded binary floats: the data hold decimal
    literals, and the only arithmetic on them is [Math.round] and the
    printing of at most three fraction digits.  Of the rounding of a
    literal to a double, the model keeps the two limits: an overflow to
    an infinity at [2^1024 - 2^970] and an underflow to 0 at [2^-1075]
    ([ToNumber.double_of_decimal], [ToNumber.string_to_number_integer]).

    Not modelled: the markup and CSS of the page (the header, controls,
    legend, panel and popups are modelled as the texts and values they
    show); what Vite does with its configuration (bundling, the
    development server: build tooling, out of the spec's scope); how
    Leaflet pans, zooms and fetches tiles (a drag or zoom is one event
    carrying the new viewport); an unmount of MapView (App always renders
    it, so [mount_cleanup] is a definition no event runs); the checks
    Leaflet makes on the shape of coordinates; a JSON object with an own
    key named [toString], [valueOf] or [toLocaleString] (its conversions
    would throw, since a JSON value is not callable: objects are opaque
    and print as ["[object Object]"]); and, of binary64, the
    rounding of a value to 53 bits between the two limits above and the
    sign of zero (numbers are exact decimals, see above), which is why
    the number formatting is modelled only in part. *)

From stdpp Require Export base list strings.
From Stdlib Require Export String Ascii ZArith Lia.

(** ** The exception monad

    JavaScript code that can throw is modelled as a function returning
    [except E A]: [Ok a] for a normal result, [Throw e] when an exception
    [e] escapes. *)

Inductive except (E A : Type) : Type :=
| Ok (a : A)
| Throw (e : E).
Arguments Ok {E A} a.
Arguments Throw {E A} e.

Declare Scope except_scope.
Delimit Scope except_scope with except.

Notation "x <- m ;; k" :=
  (match m with Ok x => k | Throw e => Throw e end)
  (at level 100, m at next level, right associativity) : except_scope.

Open Scope except_scope.

(** [Array.prototype.filter] with a callback [p] that may throw: the
    callback runs on the elements in order and the first exception
    escapes. *)
Fixpoint filter_ex {E A : Type} (p : A -> except E bool) (l : list A)
  : except E (list A) :=
  match l with
  | [] => Ok []
  | x :: rest =>
      b <- p x ;;
      r <- filter_ex p rest ;;
      Ok (if b then x :: r else r)
  end.

(** ** Tactics *)

(** Case on every [match] and [if] of the goal and hypotheses, then try
    to close the goals by computation. *)
Ltac split_all := repeat (case_match; simplify_eq/=); try done.

Create HintDb geo discriminated.
Create Rewrite HintDb geo_rw.

(** ** Generic lemmas *)

(** A boolean that reflects a decidable proposition is its [bool_decide]. *)
Lemma bool_decide_reflect (P : Prop) `{Decision P} (b : bool) :
  (b = true <-> P) -> b = bool_decide P.
Proof.
  intros Hb. destruct b; symmetry;
    [apply bool_decide_eq_true_2 | apply bool_decide_eq_false_2]; naive_solver.
Qed.


Section FilterLemmas.
Context {E A : Type}.

(** When the callback never throws on the list, [filter_ex] is the pure
    filter. *)
Lemma filter_ex_pure (p : A -> except E bool) (g : A -> bool) (l : list A) :
  (forall x, In x l -> p x = Ok (g x)) ->
  filter_ex p l = Ok (List.filter g l).
Proof.
  induction l as [|x l IH]; intros Hp; simpl; [done|].
  rewrite Hp by (left; done). rewrite IH by (intros; apply Hp; right; done).
  done.
Qed.

(** A thrown exception comes from the callback on some element. *)
Lemma filter_ex_throw (p : A -> except E bool) (l : list A) (e : E) :
  filter_ex p l = Throw e -> exists x, In x l /\ p x = Throw e.
Proof.
  induction l as [|x l IH]; simpl; [done|].
  destruct (p x) eqn:Hx; [|intros [= ->]; eauto].
  destruct (filter_ex p l) eqn:Hl; [done|].
  intros [= ->]. destruct (IH eq_refl) as (y & ? & ?). eauto.
Qed.

(** [filter_ex] depends only on the results of the callback. *)
Lemma filter_ex_ext (p q : A -> except E bool) (l : list A) :
  (forall x, In x l -> p x = q x) -> filter_ex p l = filter_ex q l.
Proof.
  induction l as [|x l IH]; intros Hpq; simpl; [done|].
  rewrite Hpq by (left; done). rewrite IH by (intros; apply Hpq; right; done).
  done.
Qed.

(** A normal result means the callback returned normally on every
    element, and kept exactly the elements it accepted. *)
Lemma filter_ex_ok_inv (p : A -> except E bool) (l r : list A) :
  filter_ex p l = Ok r ->
  (forall x, In x l -> exists b, p x = Ok b) /\
  (forall x, In x r -> In x l /\ p x = Ok true).
Proof.
  revert r. induction l as [|x l IH]; intros r; simpl.
  - intros [= <-]. split; intros ? [].
  - destruct (p x) as [b|e] eqn:Hx; [|done].
    destruct (filter_ex p l) as [r'|e] eqn:Hl; [|done].
    intros [= <-]. destruct (IH r' eq_refl) as [IH1 IH2]. split.
    + intros y [<-|Hy]; eauto.
    + intros y Hy. destruct b; [destruct Hy as [<-|Hy]|].
      * split; [left|]; done.
      * destruct (IH2 y Hy). split; [right|]; done.
      * destruct (IH2 y Hy). split; [right|]; done.
Qed.

(** When every answer the callback gives is the one of a pure predicate,
    a normal result is the pure filter. *)
Lemma filter_ex_ok_filter (p : A -> except E bool) (g : A -> bool) (l r : list A) :
  (forall x b, In x l -> p x = Ok b -> b = g x) ->
  filter_ex p l = Ok r -> r = List.filter g l.
Proof.
  intros Hg Hr. destruct (filter_ex_ok_inv p l r Hr) as [Hall _].
  rewrite (filter_ex_pure p g) in Hr; [by injection Hr|].
  intros x Hx. destruct (Hall x Hx) as [b Hb]. rewrite Hb. f_equal. by apply (Hg x).
Qed.

(** Filtering twice with the same predicate changes nothing. *)
Lemma filter_idem (g : A -> bool) (l : list A) :
  List.filter g (List.filter g l) = List.filter g l.
Proof. apply forallb_filter_id, forallb_filter. Qed.

(** Two filters in sequence are one filter with the conjunction. *)
Lemma filter_filter (g h : A -> bool) (l : list A) :
  List.filter h (List.filter g l) = List.filter (fun x => g x && h x) l.
Proof.
  induction l as [|x l IH]; simpl; [done|].
  destruct (g x) eqn:Hg, (h x) eqn:Hh; simpl; rewrite ?Hh, ?IH; done.
Qed.

(** Filters commute. *)
Lemma filter_comm (g h : A -> bool) (l : list A) :
  List.filter h (List.filter g l) = List.filter g (List.filter h l).
Proof.
  rewrite !filter_filter. apply filter_ext. intros x.
  destruct (g x), (h x); done.
Qed.
End FilterLemmas.

#[export] Hint Rewrite @filter_idem @filter_filter : geo_rw.
#[export] Hint Resolve filter_length_le incl_filter : geo.
