(* ===== verification/Config.v ===== *)
(** * The build configuration (vite.config.js)

    [vite.config.js] exports the object [defineConfig] receives: the
    Preact plugin, a development server on port 3000 that opens the
    browser, and the build output in [dist].  The file is data and is
    modelled as such, a record with the fields the file sets.  What Vite
    does with it (bundling the sources, serving [index.html], the data
    files and the modules) is build tooling, outside the spec's scope and
    not modelled. *)

From S2P Require Import Prelude.

Open Scope string_scope.

Module ViteConfig.

(** The [server] options the file sets (vite.config.js 6-9). *)
Record server_options := ServerOptions {
  port : nat;
  open_browser : bool      (* [open] *)
}.

(** The [build] options the file sets (vite.config.js 10-12). *)
Record build_options := BuildOptions {
  outDir : string
}.

(** The configuration object (vite.config.js 4-13); a plugin is named by
    the package it comes from. *)
Record user_config := UserConfig {
  plugins : list string;
  server : server_options;
  build : build_options
}.

(** vite.config.js 2: the plugin [preact()] of [@preact/preset-vite]. *)
Definition preact_plugin : string := "@preact/preset-vite".

(** vite.config.js 1-13. *)
Definition config : user_config :=
  UserConfig [preact_plugin] (ServerOptions 3000 true) (BuildOptions "dist").

End ViteConfig.
