(* ===== verification/JsValue.v ===== *)
(** * JavaScript values and the string operations the viewer uses

    The values are those that [JSON.parse] produces for a property of a
    GeoJSON feature: [undefined] for a missing key, [null], booleans,
    numbers, strings, arrays of values, and objects.  An object is opaque:
    the code only tests it for truthiness and prints it, and the model
    carries the objects that have no own key named [toString], [valueOf] or
    [toLocaleString], which print as ["[object Object]"] (an own key of
    that name holds a JSON value, which is not callable, and makes the
    conversions throw; such data are not modelled).  An array prints as
    [Array.prototype.join] prints it: its elements printed, [null] as the
    empty string, separated by commas, so that [String([])] is [""].  A JSON number is kept as
    the finite decimal it was written as, [mant * 10^-scale]; printing it
    back with [String(x)] is exact for the decimals that a double holds
    exactly in its shortest form and for [1e-7 < |x| < 1e21], the range
    in which JavaScript does not switch to exponent notation.

    Strings are byte strings (UTF-8).  [toLowerCase] is modelled on ASCII:
    bytes outside [A-Z] are kept, which is exact for ASCII and for scripts
    without case such as Arabic, the scripts of the data.

    Theorems: the string lemmas the filter uses ([includes_spec],
    [to_lower_idem]); a truthy value prints as the empty string only when
    it is an array ([to_string_empty_array]); [normalize], fuelled by the
    scale, terminates on the normal form of the number
    ([normalize_terminates]). *)

From S2P Require Import Prelude.
From Stdlib Require Import DecimalString DecimalN.

Open Scope string_scope.

(** ** Values *)

Record jsnum := JsNum { mant : Z; scale : N }.

Inductive jsval : Type :=
| JUndefined
| JNull
| JBool (b : bool)
| JNum (n : jsnum)
| JStr (s : string)
| JArray (xs : list jsval)
| JObject.

#[export] Instance jsnum_eq_dec : EqDecision jsnum.
Proof. solve_decision. Defined.

(** Induction on values, with the hypothesis on the elements of an
    array that the generated scheme of a nested type lacks. *)
Definition jsval_ind' (P : jsval -> Prop)
  (fu : P JUndefined) (fn : P JNull) (fb : forall b, P (JBool b))
  (fm : forall n, P (JNum n)) (fs : forall s, P (JStr s))
  (fa : forall xs, Forall P xs -> P (JArray xs)) (fo : P JObject) : forall v, P v :=
  fix F (v : jsval) : P v :=
    match v with
    | JUndefined => fu
    | JNull => fn
    | JBool b => fb b
    | JNum n => fm n
    | JStr s => fs s
    | JArray xs =>
        fa xs ((fix G (xs : list jsval) : Forall P xs :=
                  match xs with
                  | [] => Forall_nil_2 _
                  | x :: xs' => Forall_cons_2 _ x xs' (F x) (G xs')
                  end) xs)
    | JObject => fo
    end.

#[export] Instance jsval_eq_dec : EqDecision jsval.
Proof.
  unfold EqDecision. fix go 1. intros u v.
  destruct u as [| |b|n|s|xs|], v as [| |b'|n'|s'|xs'|];
    try (right; discriminate); try (left; reflexivity).
  - destruct (decide (b = b')); [left; by subst|right; congruence].
  - destruct (decide (n = n')); [left; by subst|right; congruence].
  - destruct (decide (s = s')); [left; by subst|right; congruence].
  - destruct (@list_eq_dec _ go xs xs'); [left; by subst|right; congruence].
Defined.

(** An exception escaping JavaScript code: its constructor name and its
    [message]. *)
Record js_error := JsError { err_name : string; err_message : string }.

Definition type_error (msg : string) : js_error := JsError "TypeError" msg.

(** ** Truthiness and [||] *)

Definition truthy (v : jsval) : bool :=
  match v with
  | JUndefined | JNull => false
  | JBool b => b
  | JNum n => negb (Z.eqb (mant n) 0)
  | JStr s => negb (String.eqb s "")
  | JArray _ | JObject => true
  end.

(** [a || b] returns [a] when it is truthy and [b] otherwise. *)
Definition js_or (a b : jsval) : jsval := if truthy a then a else b.

(** [v === JStr s] for a string literal [s]. *)
Definition strict_eq_str (v : jsval) (s : string) : bool :=
  match v with JStr t => String.eqb t s | _ => false end.

(** ** [String(v)], as used by template literals *)

Definition digits (n : N) : string := NilEmpty.string_of_uint (N.to_uint n).

(** Strip the trailing zeros of the fraction: [2.50] is the number [2.5]. *)
Fixpoint normalize (fuel : nat) (m : Z) (s : N) : Z * N :=
  match fuel with
  | O => (m, s)
  | S fuel' =>
      if (0 <? s)%N && Z.eqb (Z.modulo m 10) 0
      then normalize fuel' (Z.div m 10) (N.pred s)
      else (m, s)
  end.

Definition pad_left (k : nat) (str : string) : string :=
  String.append (String.concat "" (repeat "0" (k - String.length str))) str.

Definition number_to_string (n : jsnum) : string :=
  let '(m, s) := normalize (N.to_nat (scale n)) (mant n) (scale n) in
  let a := Z.to_N (Z.abs m) in
  let sign := if (m <? 0)%Z then "-" else "" in
  if (s =? 0)%N then sign ++ digits a
  else sign ++ digits (a / 10 ^ s) ++ "." ++ pad_left (N.to_nat s) (digits (N.modulo a (10 ^ s))).

(** [String(v)]; an array is joined by [Array.prototype.join]. *)
Fixpoint to_string (v : jsval) : string :=
  match v with
  | JUndefined => "undefined"
  | JNull => "null"
  | JBool true => "true"
  | JBool false => "false"
  | JNum n => number_to_string n
  | JStr s => s
  | JArray xs =>
      String.concat "," (List.map (fun x => match x with
                                             | JUndefined | JNull => ""
                                             | _ => to_string x
                                             end) xs)
  | JObject => "[object Object]"
  end.

(** ** [toLowerCase] and [includes] *)

Definition lower_ascii (c : ascii) : ascii :=
  let n := nat_of_ascii c in
  if (Nat.leb 65 n && Nat.leb n 90)%bool then ascii_of_nat (n + 32) else c.

Fixpoint to_lower (s : string) : string :=
  match s with
  | EmptyString => EmptyString
  | String c s' => String (lower_ascii c) (to_lower s')
  end.

(** [hay.includes(needle)]: some suffix of [hay] starts with [needle]. *)
Fixpoint includes (hay needle : string) : bool :=
  String.prefix needle hay ||
  match hay with
  | EmptyString => false
  | String _ hay' => includes hay' needle
  end.

(** The specification of [includes]: [needle] occurs in [hay]. *)
Definition substring_of (needle hay : string) : Prop :=
  exists pre post, hay = pre ++ needle ++ post.

(** ** Lemmas *)

Lemma prefix_iff (s1 s2 : string) :
  String.prefix s1 s2 = true <-> exists t, s2 = s1 ++ t.
Proof.
  revert s2. induction s1 as [|c s1 IH]; intros [|d s2]; simpl.
  - split; [exists ""; done | done].
  - split; [eexists; done | done].
  - split; [done | intros [t Ht]; done].
  - destruct (ascii_dec c d) as [->|Hne].
    + rewrite IH. split; intros [t Ht]; exists t; [by rewrite Ht | by injection Ht].
    + split; [done | intros [t Ht]; injection Ht; intros; congruence].
Qed.

(** [includes] decides [substring_of]. *)
Lemma includes_spec (hay needle : string) :
  includes hay needle = true <-> substring_of needle hay.
Proof.
  unfold substring_of. induction hay as [|c hay IH]; cbn [includes].
  - rewrite orb_false_r, prefix_iff. split.
    + intros [t Ht]. exists "", t. done.
    + intros (pre & post & H). destruct pre; [|done]. exists post. done.
  - rewrite orb_true_iff, prefix_iff, IH. split.
    + intros [[t Ht] | (pre & post & H)].
      * exists "", t. done.
      * exists (String c pre), post. by rewrite H.
    + intros (pre & post & H). destruct pre as [|c' pre].
      * left. exists post. done.
      * right. exists pre, post. by injection H.
Qed.

Lemma includes_empty (hay : string) : includes hay "" = true.
Proof. destruct hay; done. Qed.

Lemma lower_ascii_idem (c : ascii) : lower_ascii (lower_ascii c) = lower_ascii c.
Proof. destruct c as [[][][][][][][][]]; reflexivity. Qed.

Lemma to_lower_idem (s : string) : to_lower (to_lower s) = to_lower s.
Proof. induction s; simpl; [done|]. by rewrite lower_ascii_idem, IHs. Qed.

Lemma append_empty_r (s : string) : s ++ "" = s.
Proof.
  induction s as [|c s IH]; [done|].
  change (String c (s ++ "") = String c s). by rewrite IH.
Qed.

Lemma to_lower_app (s t : string) : to_lower (s ++ t) = to_lower s ++ to_lower t.
Proof. induction s; simpl; [done|]. by rewrite IHs. Qed.

Lemma to_lower_length (s : string) : String.length (to_lower s) = String.length s.
Proof. induction s; simpl; [done|]. by rewrite IHs. Qed.

Lemma to_lower_empty (s : string) : to_lower s = "" <-> s = "".
Proof. destruct s; done. Qed.

Lemma truthy_js_or (a b : jsval) : truthy (js_or a b) = truthy a || truthy b.
Proof. unfold js_or. destruct (truthy a) eqn:E; simpl; done. Qed.

Lemma strict_eq_str_iff (v : jsval) (s : string) :
  strict_eq_str v s = true <-> v = JStr s.
Proof.
  destruct v; simpl; try (split; done).
  rewrite String.eqb_eq. split; congruence.
Qed.

Lemma truthy_str (s : string) : truthy (JStr s) = true <-> s <> "".
Proof.
  simpl. destruct (String.eqb_spec s ""); simpl; split; done.
Qed.

Lemma append_nonempty_r (s t : string) : t <> "" -> s ++ t <> "".
Proof. destruct s; [done|]. intros _. change (String a (s ++ t) <> ""). done. Qed.

(** Decimal digits are never empty. *)
Lemma digits_nonempty (n : N) : digits n <> "".
Proof.
  unfold digits. intros H.
  pose proof (NilEmpty.usu (N.to_uint n)) as Hu. rewrite H in Hu. simpl in Hu.
  injection Hu as Hu. apply (f_equal N.of_uint) in Hu.
  rewrite DecimalN.Unsigned.of_to in Hu. simpl in Hu. subst n. discriminate H.
Qed.

Lemma number_to_string_nonempty (n : jsnum) : number_to_string n <> "".
Proof.
  unfold number_to_string. destruct (normalize _ _ _) as [m s].
  destruct (m <? 0)%Z; destruct (s =? 0)%N; simpl;
    try (intros H; discriminate H);
    try apply digits_nonempty.
  unfold digits. intros H. pose proof (digits_nonempty (Z.to_N (Z.abs m) / 10 ^ s)) as Hd.
  unfold digits in Hd. destruct (NilEmpty.string_of_uint _); [done|discriminate H].
Qed.

(** A truthy value prints as the empty string only when it is an array
    ([[]], or [[x]] with [x] printed empty): a truthy string, number,
    boolean or object prints as a non-empty string. *)
Lemma to_string_empty_array (v : jsval) :
  truthy v = true -> to_string v = "" -> exists xs, v = JArray xs.
Proof.
  destruct v as [| |[]|n|s|xs|]; simpl; try done; eauto.
  - intros _ H. by apply number_to_string_nonempty in H.
  - intros H ->. done.
Qed.

(** ** The fuel of [normalize] *)

(** Each step of [normalize] lowers the scale, so the scale is enough
    fuel: with it, [normalize] reaches a normal form (scale 0 or a last
    digit other than 0) of the same number. *)
Lemma normalize_normal (fuel : nat) (m : Z) (s : N) :
  (N.to_nat s <= fuel)%nat ->
  let r := normalize fuel m s in
  (snd r = 0%N \/ Z.modulo (fst r) 10 <> 0)%Z /\ (snd r <= s)%N /\
  m = (fst r * 10 ^ Z.of_N (s - snd r))%Z.
Proof.
  revert m s. induction fuel as [|fuel IH]; intros m s Hs; simpl.
  - assert (s = 0%N) as -> by lia. split_and!; [by left|lia|]. simpl. lia.
  - destruct (N.ltb_spec 0 s) as [Hpos|Hz]; destruct (Z.eqb_spec (m mod 10) 0) as [Hm|Hm];
      simpl; try (split_and!; [lia|lia|rewrite N.sub_diag; simpl; lia]).
    destruct (IH (m / 10)%Z (N.pred s) ltac:(lia)) as (Hn & Hle & Hv).
    set (r := normalize fuel (m / 10) (N.pred s)) in *.
    split_and!; [done|lia|].
    replace (s - snd r)%N with (N.succ (N.pred s - snd r)) by lia.
    rewrite N2Z.inj_succ, Z.pow_succ_r by lia.
    rewrite (Z.div_mod m 10) at 1 by lia. rewrite Hm, Hv. ring.
Qed.

(** More fuel than the scale gives the same result. *)
Lemma normalize_more_fuel (fuel fuel' : nat) (m : Z) (s : N) :
  (N.to_nat s <= fuel)%nat -> (N.to_nat s <= fuel')%nat ->
  normalize fuel m s = normalize fuel' m s.
Proof.
  revert fuel' m s. induction fuel as [|fuel IH]; intros fuel' m s H1 H2.
  - assert (s = 0%N) as -> by lia. by destruct fuel'.
  - destruct fuel' as [|fuel']; [assert (s = 0%N) as -> by lia; done|].
    simpl. destruct (N.ltb_spec 0 s), (Z.eqb (m mod 10) 0); simpl; try done.
    apply IH; lia.
Qed.

(** [normalize] terminates on the fuel [number_to_string] gives it:
    any fuel at least the scale computes the same result, and that result
    is the normal form of the number, with no trailing zero in the
    fraction and the same value. *)
Theorem normalize_terminates (fuel : nat) (m : Z) (s : N) :
  (N.to_nat s <= fuel)%nat ->
  normalize fuel m s = normalize (N.to_nat s) m s /\
  let r := normalize fuel m s in
  (snd r = 0%N \/ Z.modulo (fst r) 10 <> 0)%Z /\
  m = (fst r * 10 ^ Z.of_N (s - snd r))%Z.
Proof.
  intros Hs. split; [apply normalize_more_fuel; lia|].
  destruct (normalize_normal fuel m s Hs) as (? & _ & ?). done.
Qed.

#[export] Hint Rewrite to_lower_idem to_lower_app truthy_js_or : geo_rw.
#[export] Hint Resolve includes_empty : geo.
