(* ===== verification/ToNumber.v ===== *)
(** * [ToNumber]: the conversion [Math.round] applies to its argument

    [Math.round(props.area_sqkm)] (MapView.jsx 297) converts the property
    with [ToNumber] (ECMA-262, 7.1.4) before rounding.  The property comes
    from [JSON.parse]: a number converts to itself, [null] to 0, a boolean
    to 0 or 1, [undefined] and an object (printed ["[object Object]"]) to
    NaN, an array as the string it prints as ([[]] to 0, [[5]] to 5), and
    a string by the grammar [StringNumericLiteral]
    (7.1.4.1.1), modelled here in full:

    - the white space and line terminators around the literal are
      trimmed; strings are UTF-8 byte strings, so each such character is
      the byte sequence of its encoding ([white_space]);
    - an empty (or blank) string is 0;
    - ["Infinity"], with an optional sign, is an infinity;
    - ["0x"], ["0o"] and ["0b"] (in either case) introduce an integer in
      base 16, 8 or 2, without a sign;
    - otherwise an optional sign, digits with an optional point and
      fraction (at least one digit in all), and an optional exponent
      [e] or [E] with an optional sign and at least one digit;
    - anything else is NaN.

    The value of a literal is then rounded to a double.  The model keeps
    numbers as exact decimals ([jsnum]) and writes out the two limits of
    that rounding: a magnitude at or above [2^1024 - 2^970] becomes an
    infinity, and a positive magnitude at or below [2^-1075] becomes 0.
    The rounding of the values in between to 53 bits is not modelled.
    The exponent of a literal is never expanded beyond those limits, so
    that the model runs on ["1e999999999"] as the engine does.

    Theorem: a decimal integer literal surrounded by white space converts
    to its value, or to Infinity when the value overflows a double
    ([string_to_number_integer]). *)

From S2P Require Import Prelude JsValue.

Open Scope string_scope.

Module ToNumber.

(** The result of [ToNumber]: NaN, an infinity ([negative] gives its
    sign) or a finite number. *)
Inductive number :=
| NaN
| Infinity (negative : bool)
| Finite (x : jsnum).

(** ** White space *)

(** [StrWhiteSpaceChar]: TAB, LF, VT, FF, CR, SPACE, U+00A0, U+1680,
    U+2000 to U+200A, U+2028, U+2029, U+202F, U+205F, U+3000 and U+FEFF,
    as their UTF-8 bytes. *)
Definition white_space : list (list ascii) :=
  List.map (List.map ascii_of_nat)
    [[9]; [10]; [11]; [12]; [13]; [32]; [194; 160]; [225; 154; 128];
     [226; 128; 128]; [226; 128; 129]; [226; 128; 130]; [226; 128; 131];
     [226; 128; 132]; [226; 128; 133]; [226; 128; 134]; [226; 128; 135];
     [226; 128; 136]; [226; 128; 137]; [226; 128; 138];
     [226; 128; 168]; [226; 128; 169]; [226; 128; 175]; [226; 129; 159];
     [227; 128; 128]; [239; 187; 191]].

(** The rest of [l] after the bytes [p], when [l] starts with them. *)
Fixpoint strip_prefix (p l : list ascii) : option (list ascii) :=
  match p, l with
  | [], _ => Some l
  | a :: p', b :: l' => if Ascii.eqb a b then strip_prefix p' l' else None
  | _ :: _, [] => None
  end.

(** Remove one character of [chars] at the start of [l]. *)
Fixpoint strip_one (chars : list (list ascii)) (l : list ascii) : option (list ascii) :=
  match chars with
  | [] => None
  | p :: ps => match strip_prefix p l with Some r => Some r | None => strip_one ps l end
  end.

(** Remove the characters of [chars] at the start of [l], one per unit
    of fuel; each removes at least a byte, so [length l] is enough. *)
Fixpoint strip_all (chars : list (list ascii)) (fuel : nat) (l : list ascii) : list ascii :=
  match fuel with
  | O => l
  | S fuel' => match strip_one chars l with
               | Some r => strip_all chars fuel' r
               | None => l
               end
  end.

(** [TrimString(s, start+end)]: the end is trimmed on the reversed
    bytes, with the reversed encodings. *)
Definition trim (l : list ascii) : list ascii :=
  let l1 := strip_all white_space (List.length l) l in
  rev (strip_all (List.map (@rev ascii) white_space) (List.length l1) (rev l1)).

(** ** Digits *)

(** The value of a digit in base [radix] (2, 8, 10 or 16): [0-9],
    [a-f] and [A-F]. *)
Definition digit_in (radix : Z) (c : ascii) : option Z :=
  let n := Z.of_nat (nat_of_ascii c) in
  let d := (if (48 <=? n) && (n <=? 57) then Some (n - 48)
            else if (97 <=? n) && (n <=? 102) then Some (n - 87)
            else if (65 <=? n) && (n <=? 70) then Some (n - 55)
            else None)%Z in
  match d with Some v => if v <? radix then Some v else None | None => None end%Z.

(** The longest run of digits at the start of [l]: the value [acc]
    continued by them, their count added to [n], and the rest. *)
Fixpoint take_digits (radix : Z) (l : list ascii) (acc : Z) (n : N) : Z * N * list ascii :=
  match l with
  | c :: l' => match digit_in radix c with
               | Some d => take_digits radix l' (radix * acc + d)%Z (N.succ n)
               | None => (acc, n, l)
               end
  | [] => (acc, n, [])
  end.

(** ** The limits of a double *)

(** The magnitudes that round to an infinity: the largest double plus
    half of its last unit, a tie that rounds to the even infinity. *)
Definition overflow_bound : Z := (2 ^ 1024 - 2 ^ 970)%Z.

Definition signed (negative : bool) (m : Z) : Z := if negative then (- m)%Z else m.

(** The double nearest [(-1)^negative * m * 10^k], [m > 0], at its
    limits; [10^k] is computed only when it can matter. *)
Definition double_of_decimal (negative : bool) (m k : Z) : number :=
  (if 0 <=? k then
    if 400 <? k then Infinity negative
    else if overflow_bound <=? m * 10 ^ k then Infinity negative
    else Finite (JsNum (signed negative (m * 10 ^ k)) 0)
  else
    if Z.log2 m + 331 <? - k then Finite (JsNum 0 0)
    else if m * 2 ^ 1075 <=? 10 ^ (- k) then Finite (JsNum 0 0)
    else if overflow_bound * 10 ^ (- k) <=? m then Infinity negative
    else Finite (JsNum (signed negative m) (Z.to_N (- k))))%Z.

(** ** The grammar *)

(** [ExponentPart], or nothing: the exponent, when the rest of the
    literal is one. *)
Definition parse_exponent (l : list ascii) : option Z :=
  match l with
  | [] => Some 0
  | c :: r =>
      if Ascii.eqb c "e" || Ascii.eqb c "E" then
        let '(sg, r') := match r with
                         | "+"%char :: r' => (1, r')
                         | "-"%char :: r' => (-1, r')
                         | _ => (1, r)
                         end in
        let '(e, n, rest) := take_digits 10 r' 0 0 in
        if (n =? 0)%N then None
        else match rest with [] => Some (sg * e) | _ => None end
      else None
  end%Z.

(** [StrUnsignedDecimalLiteral] without [Infinity]: the digits of the
    integer and fraction parts as one integer [m], the number of fraction
    digits, and the exponent: the value is [m * 10^(e - nf)]. *)
Definition parse_unsigned_decimal (l : list ascii) : option (Z * N * Z) :=
  let '(i, ni, r1) := take_digits 10 l 0 0 in
  let '(m, nf, r2) := match r1 with
                      | "."%char :: r => take_digits 10 r i 0
                      | _ => (i, 0%N, r1)
                      end in
  if (ni + nf =? 0)%N then None
  else (fun e => (m, nf, e)) <$> parse_exponent r2.

Definition infinity_chars : list ascii := list_ascii_of_string "Infinity".

(** [StrDecimalLiteral] after its sign. *)
Definition parse_signed (negative : bool) (l : list ascii) : option number :=
  if bool_decide (l = infinity_chars) then Some (Infinity negative)
  else
    '(m, nf, e) ← parse_unsigned_decimal l;
    Some (if (m =? 0)%Z then Finite (JsNum 0 0) else double_of_decimal negative m (e - Z.of_N nf)%Z).

(** [NonDecimalIntegerLiteral] after its prefix. *)
Definition parse_radix (radix : Z) (l : list ascii) : option number :=
  let '(v, n, rest) := take_digits radix l 0 0 in
  match rest with
  | [] => if (n =? 0)%N then None
          else Some (if (overflow_bound <=? v)%Z then Infinity false else Finite (JsNum v 0))
  | _ => None
  end.

(** The base a prefix [0x], [0o] or [0b] (either case) introduces. *)
Definition radix_prefix (c : ascii) : option Z :=
  if Ascii.eqb c "x" || Ascii.eqb c "X" then Some 16%Z
  else if Ascii.eqb c "o" || Ascii.eqb c "O" then Some 8%Z
  else if Ascii.eqb c "b" || Ascii.eqb c "B" then Some 2%Z
  else None.

(** [StrDecimalLiteral]: an optional sign. *)
Definition parse_decimal (l : list ascii) : option number :=
  match l with
  | c :: r => if Ascii.eqb c "-" then parse_signed true r
              else if Ascii.eqb c "+" then parse_signed false r
              else parse_signed false l
  | [] => parse_signed false l
  end.

(** [StrNumericLiteral]: a [NonDecimalIntegerLiteral] or a
    [StrDecimalLiteral]. *)
Definition parse_literal (l : list ascii) : option number :=
  match l with
  | c0 :: c1 :: r =>
      if Ascii.eqb c0 "0" then
        match radix_prefix c1 with
        | Some radix => parse_radix radix r
        | None => parse_decimal l
        end
      else parse_decimal l
  | _ => parse_decimal l
  end.

(** [StringToNumber] (7.1.4.1.1). *)
Definition string_to_number (s : string) : number :=
  match trim (list_ascii_of_string s) with
  | [] => Finite (JsNum 0 0)
  | l => default NaN (parse_literal l)
  end.

(** [ToNumber] of a value of [JSON.parse].  An object or array is first
    converted by [ToPrimitive] with hint number: its [valueOf] returns the
    object itself, so its [toString] gives the primitive, the string
    ["[object Object]"] (NaN) or the joined elements of the array. *)
Definition to_number (v : jsval) : number :=
  match v with
  | JUndefined | JObject => NaN
  | JNull => Finite (JsNum 0 0)
  | JBool b => Finite (JsNum (if b then 1 else 0) 0)
  | JNum x => Finite x
  | JStr s => string_to_number s
  | JArray _ => string_to_number (to_string v)
  end.

(** ** Properties *)

Definition is_digit (c : ascii) : bool :=
  let n := nat_of_ascii c in (Nat.leb 48 n && Nat.leb n 57)%bool.

(** The value of a run of decimal digits. *)
Definition digits_value (l : list ascii) : Z :=
  fold_left (fun acc c => 10 * acc + (Z.of_nat (nat_of_ascii c) - 48))%Z l 0%Z.

Lemma digit_in_10 (c : ascii) :
  is_digit c = true -> digit_in 10 c = Some (Z.of_nat (nat_of_ascii c) - 48)%Z.
Proof.
  unfold is_digit, digit_in. intros [H1 H2]%andb_prop.
  apply Nat.leb_le in H1, H2.
  rewrite (proj2 (Z.leb_le _ _)), (proj2 (Z.leb_le _ _)) by lia. simpl.
  rewrite (proj2 (Z.ltb_lt _ _)) by lia. done.
Qed.

Lemma take_digits_all (l : list ascii) (acc : Z) (n : N) :
  forallb is_digit l = true ->
  take_digits 10 l acc n =
  (fold_left (fun acc c => 10 * acc + (Z.of_nat (nat_of_ascii c) - 48))%Z l acc,
   (n + N.of_nat (List.length l))%N, []).
Proof.
  induction l as [|c l IH] in acc, n |- *; simpl; [by rewrite N.add_0_r|].
  intros [Hc Hl]%andb_prop. rewrite digit_in_10 by done. rewrite IH by done.
  do 2 f_equal. lia.
Qed.

(** A digit is not the first byte of a white-space character, nor the
    last. *)
Lemma digit_not_space (c : ascii) :
  is_digit c = true ->
  Forall (fun p => exists a p', p = a :: p' /\ Ascii.eqb a c = false) white_space /\
  Forall (fun p => exists a p', p = a :: p' /\ Ascii.eqb a c = false)
    (List.map (@rev ascii) white_space).
Proof.
  unfold is_digit. intros [H1 H2]%andb_prop. apply Nat.leb_le in H1, H2.
  assert (Hne : forall n, (n < 256)%nat -> ~ (48 <= n <= 57)%nat ->
                          Ascii.eqb (ascii_of_nat n) c = false).
  { intros n Hlt Hn. apply Ascii.eqb_neq. intros <-. apply Hn.
    rewrite nat_ascii_embedding in H1, H2 by done. lia. }
  split; repeat constructor; eexists _, _; (split; [reflexivity|]); apply Hne; lia.
Qed.

Lemma strip_one_head_none (chars : list (list ascii)) (c : ascii) (r : list ascii) :
  Forall (fun p => exists a p', p = a :: p' /\ Ascii.eqb a c = false) chars ->
  strip_one chars (c :: r) = None.
Proof.
  induction 1 as [|p ps (a & p' & -> & Ha) _ IH]; [done|]. simpl. by rewrite Ha.
Qed.

Lemma strip_all_none (chars : list (list ascii)) (fuel : nat) (l : list ascii) :
  strip_one chars l = None -> strip_all chars fuel l = l.
Proof. destruct fuel; simpl; [done|]. by intros ->. Qed.

(** Stripping a run of characters of [chars], each recognised on its
    own, down to a rest that starts with none of them. *)
Lemma strip_all_concat (chars : list (list ascii)) (ws : list (list ascii)) (l : list ascii)
    (fuel : nat) :
  Forall (fun w => forall r, strip_one chars (w ++ r) = Some r) ws ->
  strip_one chars l = None -> (List.length ws <= fuel)%nat ->
  strip_all chars fuel (List.concat ws ++ l) = l.
Proof.
  intros Hws Hl. revert fuel.
  induction Hws as [|w ws Hw _ IH]; intros fuel Hf; [by apply strip_all_none|].
  destruct fuel as [|fuel]; [simpl in Hf; lia|]. simpl.
  rewrite <- app_assoc, Hw. apply IH. simpl in Hf. lia.
Qed.

(** Each white-space character is recognised on its own, at the start
    of a string and, reversed, at its end: no encoding is a prefix of
    another. *)
Lemma strip_one_space (w r : list ascii) :
  w ∈ white_space -> strip_one white_space (w ++ r) = Some r.
Proof.
  intros Hw. vm_compute in Hw.
  repeat (apply elem_of_cons in Hw as [->|Hw]; [reflexivity|]). by apply elem_of_nil in Hw.
Qed.

Lemma strip_one_space_rev (w r : list ascii) :
  w ∈ white_space -> strip_one (List.map (@rev ascii) white_space) (rev w ++ r) = Some r.
Proof.
  intros Hw. vm_compute in Hw.
  repeat (apply elem_of_cons in Hw as [->|Hw]; [reflexivity|]). by apply elem_of_nil in Hw.
Qed.

Lemma rev_concat {A} (ws : list (list A)) :
  rev (List.concat ws) = List.concat (rev (List.map (@rev A) ws)).
Proof.
  induction ws as [|w ws IH]; [done|]. simpl.
  rewrite rev_app_distr, IH, concat_app. simpl. by rewrite app_nil_r.
Qed.

(** A run of white space has at least as many bytes as characters. *)
Lemma length_spaces (ws : list (list ascii)) :
  Forall (fun w => w ∈ white_space) ws -> (List.length ws <= List.length (List.concat ws))%nat.
Proof.
  induction 1 as [|w ws Hw _ IH]; [done|]. simpl. rewrite length_app.
  assert (w <> []).
  { intros ->. vm_compute in Hw.
    repeat (apply elem_of_cons in Hw as [Hw|Hw]; [discriminate|]). by apply elem_of_nil in Hw. }
  destruct w; [done|]. simpl. lia.
Qed.

(** Trimming a run of digits between two runs of white space leaves the
    digits. *)
Lemma trim_spaces_digits (ws ws' : list (list ascii)) (ds : list ascii) :
  Forall (fun w => w ∈ white_space) ws -> Forall (fun w => w ∈ white_space) ws' ->
  ds <> [] -> forallb is_digit ds = true ->
  trim (List.concat ws ++ ds ++ List.concat ws') = ds.
Proof.
  intros Hws Hws' Hne Hd.
  assert (Hdig : forall c, In c ds -> is_digit c = true) by (by apply forallb_forall).
  destruct ds as [|c ds']; [done|]. destruct (rev (c :: ds')) as [|c' rds] eqn:Hr;
    [by apply (f_equal (@List.length ascii)) in Hr; rewrite List.length_rev in Hr|].
  unfold trim. cbv zeta.
  rewrite (strip_all_concat white_space ws (c :: ds' ++ List.concat ws')).
  - rewrite app_comm_cons, rev_app_distr, rev_concat, Hr.
    rewrite (strip_all_concat _ (rev (List.map (@rev ascii) ws')) (c' :: rds)).
    + by rewrite <- Hr, rev_involutive.
    + apply Forall_rev, Forall_map. eapply Forall_impl; [exact Hws'|].
      intros w Hw r. by apply strip_one_space_rev.
    + apply strip_one_head_none, digit_not_space, Hdig.
      rewrite in_rev, Hr. by left.
    + rewrite List.length_rev, List.length_map, List.length_app.
      pose proof (length_spaces ws' Hws'). lia.
  - eapply Forall_impl; [exact Hws|]. intros w Hw r. by apply strip_one_space.
  - apply strip_one_head_none, digit_not_space, Hdig. by left.
  - rewrite List.length_app. pose proof (length_spaces ws Hws). lia.
Qed.

Lemma digit_neq (c a : ascii) : is_digit c = true -> is_digit a = false -> Ascii.eqb c a = false.
Proof. intros Hc Ha. apply Ascii.eqb_neq. by intros ->; rewrite Hc in Ha. Qed.

(** A run of decimal digits is a [StrDecimalLiteral] without sign,
    point or exponent. *)
Lemma parse_literal_digits (ds : list ascii) :
  ds <> [] -> forallb is_digit ds = true ->
  parse_literal ds =
  Some (if (digits_value ds =? 0)%Z then Finite (JsNum 0 0)
        else double_of_decimal false (digits_value ds) 0).
Proof.
  intros Hne Hd.
  assert (Hsigned : parse_signed false ds = Some (if (digits_value ds =? 0)%Z
            then Finite (JsNum 0 0) else double_of_decimal false (digits_value ds) 0)).
  { unfold parse_signed. rewrite bool_decide_eq_false_2 by (intros ->; vm_compute in Hd; done).
    unfold parse_unsigned_decimal. rewrite take_digits_all by done. cbn.
    destruct ds; [done|]. simpl. by rewrite Z.sub_0_r. }
  destruct ds as [|c [|c1 r]]; [done| |]; simpl in Hd; apply andb_prop in Hd as [Hc Hd];
    unfold parse_literal, parse_decimal;
    rewrite (digit_neq c "-"), (digit_neq c "+") by (assumption || reflexivity); [done|].
  apply andb_prop in Hd as [Hc1 _].
  destruct (Ascii.eqb c "0"); [|done].
  unfold radix_prefix.
  rewrite !(digit_neq c1 _ Hc1) by reflexivity. done.
Qed.

(** The value of a run of decimal digits is not negative. *)
Lemma digits_value_nonneg (ds : list ascii) : forallb is_digit ds = true -> (0 <= digits_value ds)%Z.
Proof.
  unfold digits_value. intros Hd.
  enough (H : forall acc, (0 <= acc)%Z ->
            (0 <= fold_left (fun acc c => 10 * acc + (Z.of_nat (nat_of_ascii c) - 48)) ds acc)%Z)
    by (apply H; lia).
  induction ds as [|c ds IH]; intros acc Hacc; simpl; [done|].
  apply andb_prop in Hd as [Hc Hd]. apply IH; [done|].
  unfold is_digit in Hc. apply andb_prop in Hc as [Hc _]. apply Nat.leb_le in Hc. lia.
Qed.

(** A decimal integer literal with white space around it (spaces, tabs,
    line breaks, no-break spaces and the other white space of the
    standard) converts to its value, and to Infinity when the value
    reaches [2^1024 - 2^970], the least magnitude that rounds to an
    infinity: the behaviour of [Math.round(props.area_sqkm)] on an area
    written as a string. *)
Theorem string_to_number_integer (ws ws' : list (list ascii)) (ds : list ascii) :
  Forall (fun w => w ∈ white_space) ws -> Forall (fun w => w ∈ white_space) ws' ->
  ds <> [] -> forallb is_digit ds = true ->
  string_to_number (string_of_list_ascii (List.concat ws ++ ds ++ List.concat ws')) =
  if (overflow_bound <=? digits_value ds)%Z then Infinity false
  else Finite (JsNum (digits_value ds) 0).
Proof.
  intros Hws Hws' Hne Hd. unfold string_to_number.
  rewrite list_ascii_of_string_of_list_ascii, trim_spaces_digits by done.
  destruct ds as [|c r] eqn:Hds; [done|]. cbv iota beta. rewrite <- Hds in *.
  rewrite parse_literal_digits by done. simpl.
  destruct (Z.eqb_spec (digits_value ds) 0) as [->|H0]; [done|].
  unfold double_of_decimal. simpl. rewrite Z.mul_1_r. by destruct (_ <=? _)%Z.
Qed.

End ToNumber.
