(* ===== verification/GeoJson.v ===== *)
(** * GeoJSON data as the viewer reads it

    A feature is a geometry (absent when the file has [null]) and its
    [properties] object, a finite map from keys to JavaScript values.
    Reading [f.properties.k] gives the value under [k], or [undefined] when
    the key is absent.  A feature collection is what [response.json()]
    returns for one of the five files; [features] is [None] when the parsed
    object has no [features] member, the case in which [.features.length]
    and [.features.filter] throw.  Features whose [properties] member is
    [null] are outside the model: every file of the data set gives each
    feature an object. *)

From S2P Require Import Prelude JsValue.
From stdpp Require Import gmap.

Open Scope string_scope.

(** A GeoJSON position is a pair of numbers; a geometry nests positions to
    the depth its type requires (points, rings, polygons). *)
#[local] Set Warnings "-register-all".
Inductive coords : Type :=
| Position (lon lat : jsnum)
| Nested (cs : list coords).

Record geom := Geometry { geom_type : string; coordinates : coords }.

Record feature := Feature {
  geometry : option geom;
  properties : gmap string jsval
}.

Record collection := Collection { features : option (list feature) }.

(** [f.properties[k]]. *)
Definition prop (f : feature) (k : string) : jsval :=
  default JUndefined (properties f !! k).

(** A feature with the given string properties and a point geometry; used
    to write concrete data sets. *)
Definition point_feature (kvs : list (string * string)) : feature :=
  Feature (Some (Geometry "Point" (Position (JsNum 0 0) (JsNum 0 0))))
          (list_to_map (prod_map id JStr <$> kvs)).

Lemma prop_absent (f : feature) (k : string) :
  properties f !! k = None -> prop f k = JUndefined.
Proof. unfold prop. intros ->. done. Qed.

Lemma prop_present (f : feature) (k : string) (v : jsval) :
  properties f !! k = Some v -> prop f k = v.
Proof. unfold prop. intros ->. done. Qed.
