(* ===== verification/Filter.v ===== *)
(** * The place filter of [displayPlaces] (MapView.jsx 152-164)

    [displayPlaces] takes the features of the loaded collection, keeps
    those whose [place] property is the selected place type unless the
    selection is ["all"], and, when the search box is not empty, keeps
    those whose [name] contains the search text without regard to case.
    The name test calls [name.toLowerCase()], which throws a [TypeError]
    when [name] is truthy but not a string; the model returns that
    exception through [except].

    The file states the filter's contract as a predicate [shown] on one
    feature and proves that the code computes exactly the features of the
    collection that satisfy it, in their order ([filterFeatures_spec]),
    that the search ignores case, and when the search throws.  A normal result is the list selected by [shown]
    whatever the names ([filterFeatures_ok]).  [spec_filterFeatures] is
    the filter engine of the spec, with its "none" policy.  The module
    [FilterEngine] states what [displayPlaces] relies on as the class
    [FilterContract], with the client lemmas proved from its laws and the
    instance for [filterFeatures]. *)

From S2P Require Import Prelude JsValue GeoJson.

Open Scope string_scope.

Module PlaceFilter.

(** ** The code *)

(** MapView.jsx 156: [f => f.properties.place === placeFilter]. *)
Definition place_matches (placeFilter : string) (f : feature) : bool :=
  strict_eq_str (prop f "place") placeFilter.

(** The exception V8 raises for [n.toLowerCase()] on a value that is not a
    string. *)
Definition name_error : js_error :=
  type_error "f.properties.name.toLowerCase is not a function".

(** MapView.jsx 160-163:
    [f => f.properties.name &&
          f.properties.name.toLowerCase().includes(searchTerm.toLowerCase())]. *)
Definition search_matches (searchTerm : string) (f : feature) : except js_error bool :=
  let n := prop f "name" in
  if truthy n then
    match n with
    | JStr s => Ok (includes (to_lower s) (to_lower searchTerm))
    | _ => Throw name_error
    end
  else Ok false.

(** MapView.jsx 152-164: the two filters in sequence. *)
Definition filterFeatures (placeFilter searchTerm : string) (fs : list feature)
  : except js_error (list feature) :=
  let fs1 := if String.eqb placeFilter "all" then fs
             else List.filter (place_matches placeFilter) fs in
  if truthy (JStr searchTerm) then filter_ex (search_matches searchTerm) fs1
  else Ok fs1.

(** ** The contract *)

(** The name of a feature is a string or a falsy value. *)
Definition name_ok (f : feature) : Prop :=
  truthy (prop f "name") = true -> exists s, prop f "name" = JStr s.

(** The search text occurs in the feature's name, ignoring case. *)
Definition name_has (searchTerm : string) (f : feature) : Prop :=
  exists s, prop f "name" = JStr s /\ s <> "" /\
            substring_of (to_lower searchTerm) (to_lower s).

(** A feature is shown when its type is selected (or all types are) and,
    for a non-empty search, its name contains the search text. *)
Definition shown (placeFilter searchTerm : string) (f : feature) : Prop :=
  (placeFilter = "all" \/ prop f "place" = JStr placeFilter) /\
  (searchTerm = "" \/ name_has searchTerm f).

#[export] Instance name_has_dec (searchTerm : string) (f : feature) :
  Decision (name_has searchTerm f).
Proof.
  unfold name_has. destruct (prop f "name") as [| | | |s| |] eqn:Hn;
    try (right; intros (s' & Hs & _); done).
  destruct (decide (s = "")) as [->|Hne]; [right; intros (s' & [= <-] & ? & _); done|].
  destruct (includes (to_lower s) (to_lower searchTerm)) eqn:Hi.
  - left. exists s. split; [done|]. split; [done|]. by apply includes_spec.
  - right. intros (s' & [= <-] & _ & Hsub). apply includes_spec in Hsub. congruence.
Defined.

#[export] Instance shown_dec (placeFilter searchTerm : string) (f : feature) :
  Decision (shown placeFilter searchTerm f).
Proof. unfold shown. apply _. Defined.

(** The filter engine of the spec (section 4.2): "none" selects nothing,
    whatever the search text; any other value selects the features that
    satisfy [shown], in the order of the collection. *)
Definition spec_filterFeatures (placeFilter searchTerm : string) (fs : list feature)
  : list feature :=
  if String.eqb placeFilter "none" then []
  else List.filter (fun f => bool_decide (shown placeFilter searchTerm f)) fs.


(** Any value but "none" filters by [shown]. *)
Lemma spec_filter_not_none (placeFilter searchTerm : string) (fs : list feature) :
  placeFilter <> "none" ->
  spec_filterFeatures placeFilter searchTerm fs =
  List.filter (fun f => bool_decide (shown placeFilter searchTerm f)) fs.
Proof. intros Hn. unfold spec_filterFeatures. by rewrite (proj2 (String.eqb_neq _ _) Hn). Qed.

End PlaceFilter.

(** ** The code meets the contract *)

Module PlaceFilterProofs.
Import PlaceFilter.

(** The type stage keeps the features whose type is selected. *)
Lemma place_stage_spec (placeFilter : string) (fs : list feature) :
  (if String.eqb placeFilter "all" then fs
   else List.filter (place_matches placeFilter) fs) =
  List.filter (fun f => bool_decide (placeFilter = "all" \/
                                     prop f "place" = JStr placeFilter)) fs.
Proof.
  destruct (String.eqb_spec placeFilter "all") as [->|Hne].
  - rewrite (filter_ext _ (fun _ => true)); [by rewrite filter_true|].
    intros f. apply bool_decide_eq_true_2. by left.
  - apply filter_ext. intros f. apply bool_decide_reflect.
    unfold place_matches. rewrite strict_eq_str_iff. naive_solver.
Qed.

(** On a feature whose name is a string or falsy, the search test does not
    throw and decides [name_has]. *)
Lemma search_matches_spec (searchTerm : string) (f : feature) :
  name_ok f ->
  search_matches searchTerm f = Ok (bool_decide (name_has searchTerm f)).
Proof.
  intros Hok. unfold search_matches.
  destruct (truthy (prop f "name")) eqn:Ht.
  - destruct (Hok Ht) as [s Hs]. rewrite Hs in Ht |- *. f_equal.
    apply bool_decide_reflect. unfold name_has. rewrite includes_spec.
    apply truthy_str in Ht. split.
    + intros H. by exists s.
    + intros (s' & Hs' & _ & H). rewrite Hs in Hs'. by injection Hs' as ->.
  - f_equal. apply bool_decide_reflect. unfold name_has. split; [done|].
    intros (s & Hs & Hne & _). rewrite Hs in Ht. apply truthy_str in Hne. congruence.
Qed.

(** The search test throws only [name_error], and only on a truthy name
    that is not a string. *)
Lemma search_matches_throw (searchTerm : string) (f : feature) (e : js_error) :
  search_matches searchTerm f = Throw e <-> e = name_error /\ ~ name_ok f.
Proof.
  unfold search_matches, name_ok.
  destruct (prop f "name") eqn:Hn; simpl;
    try (destruct b); try (destruct (String.eqb s "")); simpl;
    split; intros; try naive_solver.
  - destruct (Z.eqb (mant n) 0); simpl in *; naive_solver.
  - destruct (Z.eqb (mant n) 0); simpl in *; naive_solver.
Qed.

(** Whatever the names, a normal answer of the search test decides
    [name_has]. *)
Lemma search_matches_ok (searchTerm : string) (f : feature) (b : bool) :
  search_matches searchTerm f = Ok b -> b = bool_decide (name_has searchTerm f).
Proof.
  intros Hb. assert (Hok : name_ok f).
  { revert Hb. unfold search_matches, name_ok.
    destruct (truthy (prop f "name")); [|done]. destruct (prop f "name"); naive_solver. }
  rewrite search_matches_spec in Hb by done. by injection Hb.
Qed.

(** The two stages compute [shown]. *)
Lemma stages_shown (placeFilter searchTerm : string) (fs : list feature) :
  List.filter (fun f => if truthy (JStr searchTerm) then bool_decide (name_has searchTerm f) else true)
    (List.filter (fun f => bool_decide (placeFilter = "all" \/ prop f "place" = JStr placeFilter)) fs) =
  List.filter (fun f => bool_decide (shown placeFilter searchTerm f)) fs.
Proof.
  rewrite filter_filter. apply filter_ext. intros f.
  apply bool_decide_reflect. rewrite andb_true_iff, bool_decide_eq_true. unfold shown.
  destruct (String.eqb_spec searchTerm "") as [->|Hne]; simpl.
  - naive_solver.
  - rewrite (proj2 (String.eqb_neq _ _) Hne). simpl. rewrite bool_decide_eq_true. naive_solver.
Qed.

(** Whatever the names, a normal result of [filterFeatures] is the list of
    the features that satisfy [shown], in order. *)
Lemma filterFeatures_ok (placeFilter searchTerm : string) (fs l : list feature) :
  filterFeatures placeFilter searchTerm fs = Ok l ->
  l = List.filter (fun f => bool_decide (shown placeFilter searchTerm f)) fs.
Proof.
  rewrite <- stages_shown. unfold filterFeatures. rewrite place_stage_spec.
  destruct (truthy (JStr searchTerm)).
  - apply filter_ex_ok_filter. intros f b _. apply search_matches_ok.
  - intros [= <-]. symmetry. apply filter_true.
Qed.

(** On names that are strings or falsy, [filterFeatures] does not throw. *)
Lemma filterFeatures_total (placeFilter searchTerm : string) (fs : list feature) :
  Forall name_ok fs -> exists l, filterFeatures placeFilter searchTerm fs = Ok l.
Proof.
  intros Hok. unfold filterFeatures. destruct (truthy (JStr searchTerm)); [|eauto].
  eexists. apply (filter_ex_pure _ (fun f => bool_decide (name_has searchTerm f))).
  intros f Hin. apply search_matches_spec. rewrite List.Forall_forall in Hok. apply Hok.
  destruct (String.eqb placeFilter "all"); [done|]. by apply filter_In in Hin as [? _].
Qed.

(** C5. For a collection whose names are strings or falsy,
    [filterFeatures] returns exactly the features that satisfy [shown],
    in the order of the collection. *)
Theorem filterFeatures_spec (placeFilter searchTerm : string) (fs : list feature) :
  Forall name_ok fs ->
  filterFeatures placeFilter searchTerm fs =
  Ok (List.filter (fun f => bool_decide (shown placeFilter searchTerm f)) fs).
Proof.
  intros Hok. destruct (filterFeatures_total placeFilter searchTerm fs Hok) as [l Hl].
  rewrite Hl. f_equal. by apply filterFeatures_ok.
Qed.

(** The type stage keeps a list whose elements it already kept. *)
Lemma place_stage_fix (placeFilter : string) (fs l : list feature) :
  (forall x, In x l -> In x (if String.eqb placeFilter "all" then fs
                              else List.filter (place_matches placeFilter) fs)) ->
  (if String.eqb placeFilter "all" then l
   else List.filter (place_matches placeFilter) l) = l.
Proof.
  destruct (String.eqb placeFilter "all"); intros Hl; [done|].
  apply forallb_filter_id, forallb_forall. intros x Hx.
  specialize (Hl x Hx). by apply filter_In in Hl as [_ ?].
Qed.

(** C26. The search ignores case: two search texts with the same lower-case
    form select the same features, or raise the same exception. *)
Theorem filterFeatures_case_insensitive (placeFilter st st' : string) (fs : list feature) :
  to_lower st = to_lower st' ->
  filterFeatures placeFilter st fs = filterFeatures placeFilter st' fs.
Proof.
  intros Hl. unfold filterFeatures.
  assert (truthy (JStr st) = truthy (JStr st')) as ->.
  { simpl. f_equal.
    destruct (String.eqb_spec st ""), (String.eqb_spec st' ""); try done;
      exfalso; subst; simpl in Hl.
    - apply n, to_lower_empty. by rewrite <- Hl.
    - apply n, to_lower_empty. by rewrite Hl. }
  case_match; [|done].
  apply filter_ex_ext. intros x _. unfold search_matches. by rewrite Hl.
Qed.

(** C27. The filter throws exactly when the search text is not empty and a
    feature of the selected type has a truthy [name] that is not a string;
    the exception is then the [TypeError] of [name.toLowerCase]. *)
Theorem filterFeatures_throw (placeFilter searchTerm : string) (fs : list feature) (e : js_error) :
  filterFeatures placeFilter searchTerm fs = Throw e <->
  e = name_error /\ searchTerm <> "" /\
  exists f, In f fs /\ (placeFilter = "all" \/ prop f "place" = JStr placeFilter) /\
            ~ name_ok f.
Proof.
  unfold filterFeatures. rewrite place_stage_spec.
  destruct (truthy (JStr searchTerm)) eqn:Hst; [apply truthy_str in Hst|].
  - split.
    + intros (f & Hin & Hf)%filter_ex_throw.
      apply search_matches_throw in Hf as [-> Hok].
      apply filter_In in Hin as [Hin Hp]. apply bool_decide_eq_true in Hp.
      split; [done|]. split; [done|]. by exists f.
    + intros (-> & _ & f & Hin & Hp & Hok).
      destruct (filter_ex _ _) as [r|e'] eqn:Hr.
      * destruct (filter_ex_ok_inv _ _ _ Hr) as [Hall _].
        destruct (Hall f) as [b Hb].
        { apply filter_In. split; [done|]. by apply bool_decide_eq_true. }
        assert (search_matches searchTerm f = Throw name_error) as Hthrow
          by (by apply search_matches_throw).
        congruence.
      * apply filter_ex_throw in Hr as (g & _ & Hg).
        by apply search_matches_throw in Hg as [-> _].
  - split; [done|]. intros (_ & Hne & _). simpl in Hst.
    by rewrite (proj2 (String.eqb_neq _ _) Hne) in Hst.
Qed.

End PlaceFilterProofs.

(** ** The contract between the filter and its client

    What [displayPlaces] relies on of the filter engine (spec, section
    4.2), as a class of laws over the filter function: a normal result is
    the ordered list of the features satisfying [shown], and the filter
    returns normally when the names are strings or falsy.  The client
    lemmas below are proved from the laws alone; [filterFeatures]
    discharges them. *)

Module FilterEngine.
Import PlaceFilter PlaceFilterProofs.

Class FilterContract (filt : string -> string -> list feature -> except js_error (list feature))
  : Prop := {
  contract_ok placeFilter searchTerm fs l :
    filt placeFilter searchTerm fs = Ok l ->
    l = List.filter (fun f => bool_decide (shown placeFilter searchTerm f)) fs;
  contract_total placeFilter searchTerm fs :
    Forall name_ok fs -> exists l, filt placeFilter searchTerm fs = Ok l
}.

Section Client.
Context (filt : string -> string -> list feature -> except js_error (list feature)).
Context `{!FilterContract filt}.

(** On well-formed names the filter is the pure filter by [shown]. *)
Lemma contract_spec (placeFilter searchTerm : string) (fs : list feature) :
  Forall name_ok fs ->
  filt placeFilter searchTerm fs =
  Ok (List.filter (fun f => bool_decide (shown placeFilter searchTerm f)) fs).
Proof.
  intros Hok. destruct (contract_total placeFilter searchTerm fs Hok) as [l Hl].
  rewrite Hl. f_equal. by apply contract_ok.
Qed.

(** What the filter returns comes from the collection and is shown. *)
Lemma contract_sound (placeFilter searchTerm : string) (fs l : list feature) :
  filt placeFilter searchTerm fs = Ok l ->
  forall f, In f l -> In f fs /\ shown placeFilter searchTerm f.
Proof.
  intros Hl f. rewrite (contract_ok _ _ _ _ Hl), filter_In, bool_decide_eq_true. done.
Qed.
End Client.

#[export] Instance filterFeatures_contract : FilterContract filterFeatures.
Proof. split; [apply filterFeatures_ok | apply filterFeatures_total]. Qed.

End FilterEngine.

(** ** Concrete runs *)

Module FilterScenario.
Import PlaceFilter PlaceFilterProofs.

Definition khartoum := point_feature [("name", "Khartoum"); ("place", "city")].
Definition omdurman := point_feature [("name", "Omdurman"); ("place", "city")].
Definition atbara := point_feature [("name", "Atbara"); ("place", "town")].
Definition scenario := [khartoum; omdurman; atbara].

(** A village whose [name] is a number, as a malformed row of the data. *)
Definition numeric_name :=
  Feature None (<["place" := JStr "village"]> (<["name" := JNum (JsNum 42 0)]> ∅)).

Lemma scenario_names_ok : Forall name_ok scenario.
Proof. repeat constructor; intros _; eexists; reflexivity. Qed.

Lemma filterFeatures_spec_witness :
  filterFeatures "all" "atb" scenario = Ok [atbara] /\
  filterFeatures "city" "" scenario = Ok [khartoum; omdurman].
Proof.
  split; rewrite filterFeatures_spec; [reflexivity | exact scenario_names_ok |
                                       reflexivity | exact scenario_names_ok].
Defined.

Lemma filterFeatures_case_insensitive_witness :
  to_lower "ATB" = to_lower "aTb" /\
  filterFeatures "all" "ATB" scenario = filterFeatures "all" "aTb" scenario.
Proof.
  split; [reflexivity|]. apply filterFeatures_case_insensitive. reflexivity.
Defined.

Lemma filterFeatures_throw_witness :
  filterFeatures "all" "a" (scenario ++ [numeric_name]) = Throw name_error.
Proof.
  apply filterFeatures_throw. split; [done|]. split; [done|].
  exists numeric_name. split; [by right; right; right; left|].
  split; [by left|]. intros Hok. destruct (Hok eq_refl) as [s Hs]. discriminate.
Defined.

End FilterScenario.
