(* ===== verification/Style.v ===== *)
(** * Style resolver and legend

    [displayPlaces] gives Leaflet a [style] callback that picks a stroke
    colour and weight from the feature's [place] property (MapView.jsx
    168-199); [displayBoundaries] picks one style object for the whole
    collection from the selected admin level ([getStyle], MapView.jsx
    238-285).  Numbers such as the weight 2.5 are JavaScript numbers,
    modelled as the decimals [jsnum] of [JsValue].  [Legend.jsx] draws one
    swatch per category with a border colour, a border width written as a
    CSS length and a border kind.

    Theorems: the styles refine the spec's tables of section 4.3, in the
    palette the code draws the named colours with ([style_refine]); the
    legend shows, for every category it lists, the colour,
    width and dash kind that the map uses ([legend_agrees]); every style
    the map uses draws an outline only ([place_style_unfilled],
    [admin_style_unfilled]); an unknown admin level gets the style of the
    populated-places boundaries ([admin_style_fallback]). *)

From S2P Require Import Prelude JsValue GeoJson.

Open Scope string_scope.

Module Style.

(** A Leaflet path style.  [dashArray] is [None] when the style object
    leaves it unset or sets it to [null]: both mean a solid line. *)
Record path_style := PathStyle {
  color : string;
  weight : jsnum;
  opacity : jsnum;
  fillOpacity : jsnum;
  fill : bool;
  dashArray : option string;
  lineCap : string;
  lineJoin : string
}.

Definition num (m : Z) (s : N) : jsnum := JsNum m s.

(** MapView.jsx 168-199: the [style] callback of the places layer. *)
Definition place_style (f : feature) : path_style :=
  let placeType := js_or (prop f "place") (JStr "unknown") in
  let '(c, w) :=
    if strict_eq_str placeType "city" then ("#e74c3c", num 3 0)
    else if strict_eq_str placeType "town" then ("#f39c12", num 25 1)
    else if strict_eq_str placeType "village" then ("#27ae60", num 2 0)
    else ("#95a5a6", num 15 1) in
  {| color := c; weight := w; opacity := num 8 1; fillOpacity := num 0 0;
     fill := false; dashArray := None; lineCap := "round"; lineJoin := "round" |}.

(** MapView.jsx 238-285: [getStyle] of [displayBoundaries], a [switch] on
    the admin level. *)
Definition admin_style (adminLevel : string) : path_style :=
  if String.eqb adminLevel "admin0" then
    {| color := "#e74c3c"; weight := num 4 0; opacity := num 9 1;
       fillOpacity := num 0 0; fill := false; dashArray := None;
       lineCap := "round"; lineJoin := "round" |}
  else if String.eqb adminLevel "admin1" then
    {| color := "#3498db"; weight := num 3 0; opacity := num 8 1;
       fillOpacity := num 0 0; fill := false; dashArray := None;
       lineCap := "round"; lineJoin := "round" |}
  else if String.eqb adminLevel "admin2" then
    {| color := "#f39c12"; weight := num 2 0; opacity := num 7 1;
       fillOpacity := num 0 0; fill := false; dashArray := Some "5, 5";
       lineCap := "round"; lineJoin := "round" |}
  else
    {| color := "#27ae60"; weight := num 2 0; opacity := num 7 1;
       fillOpacity := num 0 0; fill := false; dashArray := Some "3, 3";
       lineCap := "round"; lineJoin := "round" |}.

(** ** The legend (Legend.jsx) *)

(** The CSS class of a swatch: [solid-border], [dashed-border] or
    [dotted-border]. *)
Inductive border_kind := Solid | Dashed | Dotted.

Record legend_item := LegendItem {
  item_color : string;      (* borderColor *)
  item_width : string;      (* borderWidth *)
  item_border : border_kind;
  item_label : string
}.

(** Legend.jsx 12-23: the places section. *)
Definition legend_places : list legend_item :=
  [ LegendItem "#e74c3c" "3px" Solid "Cities / المدن";
    LegendItem "#f39c12" "2.5px" Solid "Towns / البلدات";
    LegendItem "#27ae60" "2px" Solid "Villages / القرى" ].

(** Legend.jsx 28-43: the boundaries section. *)
Definition legend_boundaries : list legend_item :=
  [ LegendItem "#e74c3c" "4px" Solid "Country Border / حدود البلد";
    LegendItem "#3498db" "3px" Solid "State Borders / حدود الولايات";
    LegendItem "#f39c12" "2px" Dashed "Locality Borders / حدود المحليات";
    LegendItem "#27ae60" "2px" Dotted "City/Town Boundaries / حدود المدن والبلدات" ].

(** The place type each place swatch stands for, and the admin level each
    boundary swatch stands for, in the order of the legend and of the
    options of Controls.jsx. *)
Definition legend_place_types : list string := ["city"; "town"; "village"].
Definition legend_admin_levels : list string :=
  ["admin0"; "admin1"; "admin2"; "populated_places"].

(** The border kind that draws a dash pattern: none is solid, long dashes
    are dashed, short dashes are dotted; other patterns have no swatch. *)
Definition dash_kind (d : option string) : option border_kind :=
  match d with
  | None => Some Solid
  | Some "5, 5" => Some Dashed
  | Some "3, 3" => Some Dotted
  | Some _ => None
  end.

(** How a path style is drawn as a swatch: colour, width as a CSS length
    in pixels, border kind. *)
Definition swatch_of (s : path_style) : string * string * option border_kind :=
  (color s, number_to_string (weight s) ++ "px", dash_kind (dashArray s)).

Definition swatch (i : legend_item) : string * string * option border_kind :=
  (item_color i, item_width i, Some (item_border i)).

(** ** Properties *)

(** The style of a place depends only on its [place] property. *)
Lemma place_style_place (f g : feature) :
  prop f "place" = prop g "place" -> place_style f = place_style g.
Proof. unfold place_style. by intros ->. Qed.

(** Every place style is an outline: no fill and a fill opacity of 0. *)
Lemma place_style_unfilled (f : feature) :
  fill (place_style f) = false /\ fillOpacity (place_style f) = num 0 0.
Proof. unfold place_style. by repeat case_match. Qed.

(** Every boundary style is an outline. *)
Lemma admin_style_unfilled (adminLevel : string) :
  fill (admin_style adminLevel) = false /\ fillOpacity (admin_style adminLevel) = num 0 0.
Proof. unfold admin_style. by repeat case_match. Qed.

(** A place whose type is none of the three known types, including one
    with no [place] at all, is drawn in grey with weight 1.5. *)
Lemma place_style_fallback (f : feature) :
  prop f "place" <> JStr "city" -> prop f "place" <> JStr "town" ->
  prop f "place" <> JStr "village" ->
  color (place_style f) = "#95a5a6" /\ weight (place_style f) = num 15 1.
Proof.
  intros Hc Ht Hv. unfold place_style, js_or.
  destruct (truthy (prop f "place")) eqn:Htr; simpl; [|done].
  rewrite <- !strict_eq_str_iff in Hc, Ht, Hv.
  by rewrite (not_true_is_false _ Hc), (not_true_is_false _ Ht), (not_true_is_false _ Hv).
Qed.

(** An admin level other than [admin0], [admin1] and [admin2] is drawn
    with the dotted green style of the populated-places boundaries. *)
Theorem admin_style_fallback (adminLevel : string) :
  adminLevel <> "admin0" -> adminLevel <> "admin1" -> adminLevel <> "admin2" ->
  admin_style adminLevel = admin_style "populated_places".
Proof.
  intros H0 H1 H2. unfold admin_style.
  by rewrite (proj2 (String.eqb_neq _ _) H0), (proj2 (String.eqb_neq _ _) H1),
             (proj2 (String.eqb_neq _ _) H2).
Qed.

(** C28. The legend agrees with the map: each place swatch has the colour,
    width and border kind of the style of a place of its type, and each
    boundary swatch those of the style of its admin level. *)
Theorem legend_agrees :
  Forall2 (fun t i => forall f, prop f "place" = JStr t ->
                                swatch_of (place_style f) = swatch i)
          legend_place_types legend_places /\
  Forall2 (fun l i => swatch_of (admin_style l) = swatch i)
          legend_admin_levels legend_boundaries.
Proof.
  split; repeat constructor; intros f Hf;
    unfold place_style; rewrite Hf; reflexivity.
Qed.

(** ** The spec's style tables (section 4.3) *)

(** The colours the spec names, in the palette the code draws them with. *)
Definition palette (name : string) : string :=
  match name with
  | "red" => "#e74c3c"
  | "orange" => "#f39c12"
  | "green" => "#27ae60"
  | "blue" => "#3498db"
  | "gray" => "#95a5a6"
  | _ => ""
  end.

(** The stroke of a style: colour, weight and dash pattern. *)
Definition stroke (s : path_style) : string * jsnum * option string :=
  (color s, weight s, dashArray s).

(** [styleForPlace]: city, town, village, and the grey fallback. *)
Definition spec_place (category : string) : string * jsnum * option string :=
  if String.eqb category "city" then (palette "red", num 3 0, None)
  else if String.eqb category "town" then (palette "orange", num 25 1, None)
  else if String.eqb category "village" then (palette "green", num 2 0, None)
  else (palette "gray", num 15 1, None).

(** [styleForAdminLevel]: dashed is [5, 5], dotted [3, 3]. *)
Definition spec_admin : list (string * (string * jsnum * option string)) :=
  [("admin0", (palette "red", num 4 0, None));
   ("admin1", (palette "blue", num 3 0, None));
   ("admin2", (palette "orange", num 2 0, Some "5, 5"));
   ("populated_places", (palette "green", num 2 0, Some "3, 3"))].

(** C29. The style resolver refines the spec's tables: a place is drawn
    with the stroke the table gives its category (its [place] property
    when it is a string; any other value, or none, takes the grey
    fallback), each admin level with the stroke of its row, and no style
    fills its shape. *)
Theorem style_refine :
  (forall f : feature,
     stroke (place_style f) = spec_place (match prop f "place" with JStr c => c | _ => "" end) /\
     fill (place_style f) = false) /\
  Forall (fun '(lvl, st) => stroke (admin_style lvl) = st /\ fill (admin_style lvl) = false)
         spec_admin.
Proof.
  split; [|repeat constructor].
  intros f. split; [|apply place_style_unfilled].
  unfold place_style, js_or, spec_place, stroke.
  destruct (prop f "place") as [| | [] |n|s|xs|]; simpl; try reflexivity.
  - by destruct (Z.eqb (mant n) 0).
  - destruct (String.eqb_spec s "") as [->|Hne]; [reflexivity|]. simpl.
    repeat case_match; simplify_eq; reflexivity.
Qed.

End Style.

