(* ===== verification/Locale.v ===== *)
(** * Number formatting of the popups: [toLocaleString], [Math.round]

    The popups print a population with [props.population.toLocaleString()]
    and an area with [Math.round(props.area_sqkm).toLocaleString()]
    (MapView.jsx 216-219 and 297).  With the browser in the en-US locale,
    [Number.prototype.toLocaleString] writes the integer part with a comma
    every three digits and at most three fraction digits, rounding half
    away from zero; on a string, a boolean or an object it returns what
    [toString] gives.  [Math.round]
    converts its argument with [ToNumber] and rounds half up.

    [ToNumber] is the one of [ToNumber.v]; [Math.round] keeps NaN and
    the infinities, which print as ["NaN"], ["∞"] and ["-∞"].  Bound of
    the model: a negative number that rounds to zero prints as ["0"]
    where JavaScript prints ["-0"] (the model's numbers have no signed
    zero); the data's areas and populations are non-negative.

    An array prints with [Array.prototype.toLocaleString]: the texts of
    its elements joined by commas ([locale_text]).

    Theorems: the grouped form of a natural number reads back as that
    number ([parse_format_grouped]); [Math.round] returns the integer
    nearest to its argument ([math_round_bounds]); the area text of a
    popup reads back as the integer nearest to the area
    ([round_locale_spec]). *)

From S2P Require Import Prelude JsValue ToNumber.
From Stdlib Require Import DecimalString DecimalN.

Open Scope string_scope.

Module Locale.
Import ToNumber.

(** ** Grouping of the integer part *)

(** Insert a comma after every third digit of a reversed digit list. *)
Fixpoint group3 (rev_digits : list ascii) : list ascii :=
  match rev_digits with
  | a :: b :: c :: ((_ :: _) as rest) => a :: b :: c :: "," :: group3 rest
  | l => l
  end%char.

(** [n] written in decimal with a comma between groups of three digits. *)
Definition format_grouped (n : N) : string :=
  string_of_list_ascii (rev (group3 (rev (list_ascii_of_string (digits n))))).

(** Reading a grouped number back: drop the commas, read the digits. *)
Definition remove_commas (s : string) : string :=
  string_of_list_ascii
    (List.filter (fun c => negb (Ascii.eqb c ",")) (list_ascii_of_string s)).

Definition parse_grouped (s : string) : option N :=
  match NilEmpty.uint_of_string (remove_commas s) with
  | Some d => Some (N.of_uint d)
  | None => None
  end.

(** ** [Number.prototype.toLocaleString] in en-US *)

(** [|x|] in thousandths, rounded half away from zero. *)
Definition round_thousandths (x : jsnum) : Z :=
  let a := Z.abs (mant x) in
  let s := Z.of_N (scale x) in
  if (s <=? 3)%Z then (a * 10 ^ (3 - s))%Z
  else let d := (10 ^ (s - 3))%Z in ((2 * a + d) / (2 * d))%Z.

(** Drop the trailing zeros of a fraction. *)
Definition strip_trailing_zeros (s : string) : string :=
  let fix drop (l : list ascii) : list ascii :=
    match l with
    | "0"%char :: l' => drop l'
    | l => l
    end in
  string_of_list_ascii (rev (drop (rev (list_ascii_of_string s)))).

Definition number_to_locale_string (x : jsnum) : string :=
  let q := round_thousandths x in
  let sign := if (mant x <? 0)%Z then "-" else "" in
  let fp := Z.modulo q 1000 in
  sign ++ format_grouped (Z.to_N (q / 1000)) ++
  (if (fp =? 0)%Z then ""
   else "." ++ strip_trailing_zeros (pad_left 3 (digits (Z.to_N fp)))).

(** The text of [toLocaleString] on a value that has the method: a
    number is formatted; a string, a boolean and an object inherit
    [Object.prototype.toLocaleString], which calls [toString]; an array
    joins the texts of its elements with commas
    ([Array.prototype.toLocaleString]), an element [null] giving the empty
    string. *)
Fixpoint locale_text (v : jsval) : string :=
  match v with
  | JUndefined | JNull => ""
  | JNum x => number_to_locale_string x
  | JStr s => s
  | JArray xs => String.concat "," (List.map locale_text xs)
  | JBool _ | JObject => to_string v
  end.

(** [v.toLocaleString()]; on [undefined] and [null] it throws. *)
Definition to_locale_string (v : jsval) : except js_error string :=
  match v with
  | JUndefined => Throw (type_error "Cannot read properties of undefined (reading 'toLocaleString')")
  | JNull => Throw (type_error "Cannot read properties of null (reading 'toLocaleString')")
  | _ => Ok (locale_text v)
  end.

(** ** [Math.round] and [toLocaleString] of a converted value *)

(** [Math.round] of a finite number: [floor(x + 1/2)]. *)
Definition round_num (x : jsnum) : jsnum :=
  let p := (10 ^ Z.of_N (scale x))%Z in
  JsNum ((2 * mant x + p) / (2 * p))%Z 0.

(** [Math.round] keeps NaN and the infinities. *)
Definition math_round (n : number) : number :=
  match n with
  | Finite x => Finite (round_num x)
  | _ => n
  end.

(** [toLocaleString] in en-US: the infinities print as ["∞"] and
    ["-∞"]. *)
Definition number_locale (n : number) : string :=
  match n with
  | NaN => "NaN"
  | Infinity false => "∞"
  | Infinity true => "-∞"
  | Finite x => number_to_locale_string x
  end.

(** [Math.round(v).toLocaleString()]. *)
Definition round_locale (v : jsval) : string := number_locale (math_round (to_number v)).

(** ** Properties *)

Definition not_comma (c : ascii) : bool := negb (Ascii.eqb c ",").

(** Grouping only inserts commas. *)
Lemma group3_commas (l : list ascii) :
  List.filter not_comma (group3 l) = List.filter not_comma l.
Proof.
  remember (List.length l) as n eqn:Hn. revert l Hn.
  induction n as [n IH] using lt_wf_ind. intros l Hn.
  destruct l as [|a [|b [|c [|d rest]]]]; try done.
  assert (group3 (a :: b :: c :: d :: rest) = a :: b :: c :: ","%char :: group3 (d :: rest))
    as -> by reflexivity.
  cbn [List.filter].
  rewrite (IH (List.length (d :: rest))) by (simpl in *; lia || done).
  done.
Qed.

(** The decimal digits of a number contain no comma. *)
Lemma digits_no_comma (n : N) :
  List.filter not_comma (list_ascii_of_string (digits n)) = list_ascii_of_string (digits n).
Proof.
  unfold digits. generalize (N.to_uint n) as d.
  induction d; simpl; rewrite ?IHd; done.
Qed.

Lemma remove_commas_grouped (n : N) : remove_commas (format_grouped n) = digits n.
Proof.
  unfold remove_commas, format_grouped. rewrite list_ascii_of_string_of_list_ascii.
  fold not_comma. rewrite filter_rev, group3_commas, filter_rev, rev_involutive.
  rewrite digits_no_comma. apply string_of_list_ascii_of_string.
Qed.

(** Reading back the grouped form of a natural number. *)
Lemma parse_format_grouped (n : N) : parse_grouped (format_grouped n) = Some n.
Proof.
  unfold parse_grouped. rewrite remove_commas_grouped. unfold digits.
  by rewrite NilEmpty.usu, DecimalN.Unsigned.of_to.
Qed.

(** A non-negative integer prints as its grouped decimal form. *)
Lemma locale_string_integer (n : Z) :
  (0 <= n)%Z -> number_to_locale_string (JsNum n 0) = format_grouped (Z.to_N n).
Proof.
  intros Hn. unfold number_to_locale_string, round_thousandths. simpl.
  rewrite Z.abs_eq by done. change (10 ^ (3 - 0))%Z with 1000%Z.
  replace (n * 1000 / 1000)%Z with n by (symmetry; apply Z.div_mul; lia).
  rewrite Z_mod_mult. destruct (Z.ltb_spec n 0); [lia|]. apply append_empty_r.
Qed.

(** [Math.round] gives the integer nearest its argument: [x] lies in
    [[r - 1/2, r + 1/2)], written without fractions as
    [2 p r - p <= 2 m < 2 p r + p] for [x = m / p]. *)
Lemma math_round_bounds (x : jsnum) :
  let p := (10 ^ Z.of_N (scale x))%Z in
  scale (round_num x) = 0%N /\
  (2 * p * mant (round_num x) - p <= 2 * mant x < 2 * p * mant (round_num x) + p)%Z.
Proof.
  intros p. assert (0 < p)%Z by (apply Z.pow_pos_nonneg; lia).
  split; [done|]. unfold round_num. fold p. cbn [mant].
  pose proof (Z.div_mod (2 * mant x + p) (2 * p) ltac:(lia)).
  pose proof (Z.mod_pos_bound (2 * mant x + p) (2 * p) ltac:(lia)).
  set (q := ((2 * mant x + p) / (2 * p))%Z) in *.
  set (r := ((2 * mant x + p) mod (2 * p))%Z) in *.
  lia.
Qed.

(** [Math.round(v).toLocaleString()] on a decimal integer written as a
    string, with white space around it: its grouped digits, or ["∞"] when
    it overflows a double. *)
Lemma round_locale_integer_string (ws ws' : list (list ascii)) (ds : list ascii) :
  Forall (fun w => w ∈ white_space) ws -> Forall (fun w => w ∈ white_space) ws' ->
  ds <> [] -> forallb is_digit ds = true ->
  round_locale (JStr (string_of_list_ascii (List.concat ws ++ ds ++ List.concat ws'))) =
  if (overflow_bound <=? digits_value ds)%Z then "∞"
  else format_grouped (Z.to_N (digits_value ds)).
Proof.
  intros Hws Hws' Hne Hd. unfold round_locale. cbn [to_number].
  rewrite string_to_number_integer by done.
  destruct (overflow_bound <=? digits_value ds)%Z; [done|]. cbn [math_round number_locale].
  assert (round_num (JsNum (digits_value ds) 0) = JsNum (digits_value ds) 0) as ->.
  { unfold round_num. cbn [mant scale]. f_equal.
    change (Z.of_N 0) with 0%Z. rewrite Z.pow_0_r, Z.mul_1_r, (Z.mul_comm 2), Z.div_add_l by lia.
    apply Z.add_0_r. }
  apply locale_string_integer, digits_value_nonneg, Hd.
Qed.

(** C33. The area text of a popup, [Math.round(a).toLocaleString()] for a
    non-negative number [a = m / 10^s], reads back as an integer [r] with
    [|a - r| <= 1/2]. *)
Theorem round_locale_spec (x : jsnum) :
  (0 <= mant x)%Z ->
  exists r : N,
    parse_grouped (round_locale (JNum x)) = Some r /\
    (2 * 10 ^ Z.of_N (scale x) * Z.of_N r - 10 ^ Z.of_N (scale x) <= 2 * mant x <
     2 * 10 ^ Z.of_N (scale x) * Z.of_N r + 10 ^ Z.of_N (scale x))%Z.
Proof.
  intros Hm. destruct (math_round_bounds x) as [Hs Hb].
  assert (0 < 10 ^ Z.of_N (scale x))%Z by (apply Z.pow_pos_nonneg; lia).
  assert (Hpos : (0 <= mant (round_num x))%Z).
  { unfold round_num. cbn [mant]. apply Z.div_pos; lia. }
  exists (Z.to_N (mant (round_num x))). split.
  - unfold round_locale. cbn [to_number math_round number_locale].
    replace (round_num x) with (JsNum (mant (round_num x)) 0) at 1
      by (destruct (round_num x); simpl in *; by subst).
    rewrite locale_string_integer by done. apply parse_format_grouped.
  - rewrite Z2N.id by done. exact Hb.
Qed.

End Locale.
