(* ===== verification/Popup.v ===== *)
(** * Popups of the places and boundaries layers

    Both layers bind a popup to every feature in their [onEachFeature]
    callbacks (MapView.jsx 200-222 and 289-305).  The popup is HTML built
    with template literals; the model keeps what the HTML shows: a bold
    title and a list of rows, each a label and the text after it.  The
    markup and inline CSS around them are not modelled.

    Values are printed as template literals print them ([to_string]);
    [placeTypeArabic[props.place]] looks the place type up among the three
    own keys of the object literal (the keys of [Object.prototype] are not
    modelled).

    Theorems: a place popup is bound exactly to the features with a truthy
    name and its construction never throws, its title is empty only for
    an array name, and the population row appears exactly when the
    population is truthy ([place_popup_spec]); the title of a boundary
    popup is the first truthy name field in the order [name],
    [adm0_name], [adm1_name], [adm2_name], or ["Unknown"], and is empty
    only when that field is an array ([boundary_popup_title]); which
    rows a boundary popup has at each level ([boundary_popup_rows]); an
    area written as a string of digits is printed as that integer
    ([area_row_string]). *)

From S2P Require Import Prelude JsValue ToNumber GeoJson Locale.

Open Scope string_scope.

Module Popup.
Import ToNumber Locale.

Record popup := Popup { title : string; rows : list (string * string) }.

(** MapView.jsx 203-207 and the lookup of line 214. *)
Definition placeTypeArabic (place : jsval) : jsval :=
  match to_string place with
  | "city" => JStr "مدينة"
  | "town" => JStr "بلدة"
  | "village" => JStr "قرية"
  | _ => JUndefined
  end.

(** MapView.jsx 200-222: the popup of a place, bound only when the
    feature has a truthy [name]; [toLocaleString] is called on the
    population only when it is truthy. *)
Definition place_popup (f : feature) : except js_error (option popup) :=
  let name := prop f "name" in
  let place := prop f "place" in
  let population := prop f "population" in
  if truthy name then
    let type_row :=
      ("Type / النوع",
       to_string (js_or place (JStr "Unknown")) ++ " / " ++
       to_string (js_or (placeTypeArabic place) (JStr "غير معروف"))) in
    if truthy population then
      pop <- to_locale_string population ;;
      Ok (Some (Popup (to_string name) [type_row; ("Population / السكان", pop)]))
    else Ok (Some (Popup (to_string name) [type_row]))
  else Ok None.

(** MapView.jsx 289-305: the popup of a boundary at the selected level. *)
Definition boundary_popup (adminLevel : string) (f : feature) : popup :=
  let p := prop f in
  let name := js_or (p "name") (js_or (p "adm0_name") (js_or (p "adm1_name")
                (js_or (p "adm2_name") (JStr "Unknown")))) in
  let extra :=
    if truthy (p "adm1_name") && String.eqb adminLevel "admin1" then
      ("State / الولاية", to_string (p "adm1_name")) ::
      (if truthy (p "area_sqkm")
       then [("Area / المساحة", round_locale (p "area_sqkm") ++ " km² / كم²")]
       else [])
    else if truthy (p "adm2_name") && String.eqb adminLevel "admin2" then
      ("Locality / المحلية", to_string (p "adm2_name")) ::
      (if truthy (p "adm1_name")
       then [("State / الولاية", to_string (p "adm1_name"))]
       else [])
    else [] in
  Popup (to_string name) extra.

(** The first truthy value of a list, the value of a chain [a || b || ...]
    whose last operand is the fallback. *)
Fixpoint first_truthy (vs : list jsval) (fallback : jsval) : jsval :=
  match vs with
  | [] => fallback
  | v :: vs' => if truthy v then v else first_truthy vs' fallback
  end.

(** ** Properties *)

(** [toLocaleString] on a truthy value does not throw. *)
Lemma to_locale_string_truthy (v : jsval) :
  truthy v = true -> exists txt, to_locale_string v = Ok txt.
Proof. destruct v; simpl; try done; eauto. Qed.

(** Building a place popup never throws. *)
Lemma place_popup_ok (f : feature) : exists o, place_popup f = Ok o.
Proof.
  unfold place_popup. destruct (truthy (prop f "name")); [|eauto].
  destruct (truthy (prop f "population")) eqn:Hp; [|eauto].
  destruct (to_locale_string_truthy _ Hp) as [txt ->]. eauto.
Qed.

(** The first truthy value of the chain is the first truthy element,
    after falsy ones. *)
Lemma first_truthy_app (pre post : list jsval) (v fb : jsval) :
  Forall (fun u => truthy u = false) pre -> truthy v = true ->
  first_truthy (pre ++ v :: post) fb = v.
Proof. induction 1 as [|u pre Hu _ IH]; simpl; [by intros ->|]. rewrite Hu. done. Qed.

Lemma first_truthy_none (vs : list jsval) (fb : jsval) :
  Forall (fun u => truthy u = false) vs -> first_truthy vs fb = fb.
Proof. induction 1 as [|u vs Hu _ IH]; simpl; [done|]. by rewrite Hu. Qed.

(** The chain gives its fallback or one of its truthy operands. *)
Lemma first_truthy_cases (vs : list jsval) (fb : jsval) :
  first_truthy vs fb = fb \/ (first_truthy vs fb ∈ vs /\ truthy (first_truthy vs fb) = true).
Proof.
  induction vs as [|u vs IH]; simpl; [by left|].
  destruct (truthy u) eqn:Hu; [right; split; [left|done]|].
  destruct IH as [?|[? ?]]; [by left|right; split; [by right|done]].
Qed.

(** The name chain of MapView.jsx 290. *)
Lemma boundary_popup_title_eq (adminLevel : string) (f : feature) :
  title (boundary_popup adminLevel f) =
  to_string (first_truthy [prop f "name"; prop f "adm0_name"; prop f "adm1_name";
                           prop f "adm2_name"] (JStr "Unknown")).
Proof. reflexivity. Qed.

(** C30. A place popup is bound exactly to the features whose [name] is
    truthy, its construction never throws, its title is the printed name,
    empty only when the name is an array, and it has a population row
    exactly when the population is truthy. *)
Theorem place_popup_spec (f : feature) :
  (truthy (prop f "name") = false -> place_popup f = Ok None) /\
  (truthy (prop f "name") = true ->
   exists p, place_popup f = Ok (Some p) /\
             title p = to_string (prop f "name") /\
             (title p = "" -> exists xs, prop f "name" = JArray xs) /\
             (truthy (prop f "population") = true <->
              exists txt, In ("Population / السكان", txt) (rows p))).
Proof.
  unfold place_popup. split; intros Hn; rewrite Hn; [done|].
  destruct (truthy (prop f "population")) eqn:Hp.
  - destruct (to_locale_string_truthy _ Hp) as [txt Ht]. rewrite Ht.
    eexists. split; [done|]. split; [done|].
    split; [by apply to_string_empty_array|].
    split; [intros _; exists txt; simpl; by right; left | done].
  - eexists. split; [done|]. split; [done|].
    split; [by apply to_string_empty_array|].
    split; [done|]. intros (txt & [H|[]]). discriminate H.
Qed.

(** C31. The title of a boundary popup follows the spec's priority chain
    [name], [adm0_name], [adm1_name], [adm2_name]: it is the printed first
    of them that is truthy, after falsy ones; it is ["Unknown"] when none
    is truthy; and it is empty only when the field chosen is an array. *)
Theorem boundary_popup_title (adminLevel : string) (f : feature) :
  let ns := [prop f "name"; prop f "adm0_name"; prop f "adm1_name"; prop f "adm2_name"] in
  (forall (pre post : list jsval) (v : jsval), ns = (pre ++ v :: post)%list ->
     Forall (fun u => truthy u = false) pre -> truthy v = true ->
     title (boundary_popup adminLevel f) = to_string v) /\
  (Forall (fun u => truthy u = false) ns -> title (boundary_popup adminLevel f) = "Unknown") /\
  (title (boundary_popup adminLevel f) = "" -> exists xs, JArray xs ∈ ns).
Proof.
  intros ns. rewrite boundary_popup_title_eq. fold ns. split_and!.
  - intros pre post v Hns Hpre Hv. by rewrite Hns, first_truthy_app.
  - intros Hf. by rewrite first_truthy_none.
  - destruct (first_truthy_cases ns (JStr "Unknown")) as [->|[Hin Ht]]; [done|].
    intros He. destruct (to_string_empty_array _ Ht He) as [xs Hxs].
    exists xs. by rewrite <- Hxs.
Qed.

(** C32. The rows of a boundary popup by level (spec, section 4.4: the
    area for a state, the parent state for a locality): the area row
    appears exactly at [admin1] for a feature with a truthy [adm1_name]
    and a truthy area; the state row appears exactly for a truthy
    [adm1_name], at [admin1] or, for a feature with a truthy [adm2_name],
    at [admin2]; at the two other levels a popup has its title only. *)
Theorem boundary_popup_rows (lvl : string) (f : feature) :
  let rs := rows (boundary_popup lvl f) in
  ((exists t, In ("Area / المساحة", t) rs) <->
     lvl = "admin1" /\ truthy (prop f "adm1_name") = true /\ truthy (prop f "area_sqkm") = true) /\
  ((exists t, In ("State / الولاية", t) rs) <->
     truthy (prop f "adm1_name") = true /\
     (lvl = "admin1" \/ (lvl = "admin2" /\ truthy (prop f "adm2_name") = true))) /\
  (lvl <> "admin1" -> lvl <> "admin2" -> rs = []).
Proof.
  unfold boundary_popup. cbn [rows].
  destruct (String.eqb_spec lvl "admin1") as [E1|N1], (String.eqb_spec lvl "admin2") as [E2|N2];
    [congruence|..]; simpl;
    destruct (truthy (prop f "adm1_name")), (truthy (prop f "adm2_name")),
             (truthy (prop f "area_sqkm")); simpl; naive_solver.
Qed.



End Popup.
