(* ===== verification/Loader.v ===== *)
(** * Data loader: [loadData] and [getCurrentBoundaryData]

    [loadData] (MapView.jsx 76-129) fetches the five GeoJSON files with
    [Promise.all], checks [response.ok] of all five, parses the five
    bodies one after the other with [await response.json()], stores them in
    the refs [placesData], [boundariesData] and [adminData], and updates the
    statistics: [total] is the number of point features and [boundaries]
    the number of features of [getCurrentBoundaryData()].  Any exception
    lands in the [catch], which stores its [message] as the error; the
    [finally] clears [loading].

    The environment is an input of the model: for each file, whether the
    fetch was rejected (network failure) or gave a response, the response's
    [ok] flag, and whether its body parses.  [Promise.all] rejects with the
    first rejection to settle; the order in which the fetches settle is an
    input too ([settle_order]).

    Two facts of the code the model keeps:
    - the [setStats] updater runs when [setStats] is called (Preact's
      [useState] applies a functional update at once), inside the [try]:
      a body that parses but has no [features] array makes it throw
      [TypeError] after the three refs were assigned;
    - [loadData] is the closure of the first render (the mount effect has
      no dependencies), so [getCurrentBoundaryData] reads the [adminLevel]
      of that render.

    Bodies that parse to something other than a JSON object are not
    modelled; the keys of [Object.prototype] are not modelled in the
    lookups of [adminData].

    Theorems: the fetch-and-parse phase succeeds exactly when the five
    fetches do ([fetch_and_parse_ok]); a failure leaves the data and the
    statistics as they were ([loadData_failure_atomic]) and reports the
    error the order of the code selects ([loadData_error_order]); a
    success stores the five collections and the counts
    ([loadData_success]); a file without [features] sets the error yet
    exposes the data exactly when it is the points file or the closure's
    boundary collection ([loadData_partial_exposure]). *)

From S2P Require Import Prelude JsValue GeoJson.
From stdpp Require Import gmap.

Open Scope string_scope.

Module Loader.

(** ** State touched by the loader *)

(** app.jsx 14: the statistics record. *)
Record stats := Stats { total : nat; visible : nat; boundaries : nat }.

(** MapView.jsx 85-87: the refs holding the loaded data; [adminData] is
    [{}] until a load succeeds. *)
Record data_refs := DataRefs {
  placesData : option collection;
  boundariesData : option collection;
  adminData : gmap string collection
}.

Definition no_data : data_refs := DataRefs None None ∅.

(** What the loader writes: the refs, the statistics, [error] and
    [loading] of the App. *)
Record load_state := LoadState {
  ls_refs : data_refs;
  ls_stats : stats;
  ls_error : option string;
  ls_loading : bool
}.

(** ** The environment *)

(** A response: its [ok] flag and what [response.json()] gives, a parsed
    object or the exception with which it rejects. *)
Record response := Response { ok : bool; body : except js_error collection }.

Inductive fetch_result :=
| Fulfilled (r : response)
| Rejected (e : js_error).

(** The five fetches of MapView.jsx 87-91, in the order of the code. *)
Record fetches := Fetches {
  f_places : fetch_result;      (* populated_places_points.geojson *)
  f_boundaries : fetch_result;  (* populated_places_polygons.geojson *)
  f_admin0 : fetch_result;      (* sdn_admin0.geojson *)
  f_admin1 : fetch_result;      (* sdn_admin1.geojson *)
  f_admin2 : fetch_result       (* sdn_admin2.geojson *)
}.

Definition fetch_list (fx : fetches) : list fetch_result :=
  [f_places fx; f_boundaries fx; f_admin0 fx; f_admin1 fx; f_admin2 fx].

(** ** [Promise.all] *)

Definition rejection (r : fetch_result) : option js_error :=
  match r with Rejected e => Some e | Fulfilled _ => None end.

(** The rejection that settles first: the indices of [settle_order] in
    turn, then the others in the order of the list. *)
Definition first_rejection (settle_order : list nat) (rs : list fetch_result)
  : option js_error :=
  let idx := (settle_order ++ seq 0 (List.length rs))%list in
  List.fold_right
    (fun i acc => match rs !! i ≫= rejection with Some e => Some e | None => acc end)
    None idx.

Definition responses (rs : list fetch_result) : list response :=
  omap (fun r => match r with Fulfilled x => Some x | Rejected _ => None end) rs.

Definition promise_all (settle_order : list nat) (rs : list fetch_result)
  : except js_error (list response) :=
  match first_rejection settle_order rs with
  | Some e => Throw e
  | None => Ok (responses rs)
  end.

(** ** [loadData] *)

Definition load_error : js_error := JsError "Error" "Failed to load data files".

(** [c.features.length] of a parsed collection. *)
Definition features_length (c : collection) : except js_error nat :=
  match features c with
  | Some fs => Ok (List.length fs)
  | None => Throw (type_error "Cannot read properties of undefined (reading 'length')")
  end.

(** MapView.jsx 132-134. *)
Definition getCurrentBoundaryData (adminData : gmap string collection)
  (adminLevel : string) : collection :=
  match adminData !! adminLevel with
  | Some c => c
  | None => default (Collection (Some [])) (adminData !! "admin1")
  end.

(** MapView.jsx 80-102: the fetches, the [ok] test and the five parses,
    up to the first assignment. *)
Definition fetch_and_parse (settle_order : list nat) (fx : fetches)
  : except js_error (collection * collection * collection * collection * collection) :=
  rs <- promise_all settle_order (fetch_list fx) ;;
  match rs with
  | [p; b; a0; a1; a2] =>
      if ok p && ok b && ok a0 && ok a1 && ok a2 then
        places <- body p ;;
        boundaries <- body b ;;
        admin0 <- body a0 ;;
        admin1 <- body a1 ;;
        admin2 <- body a2 ;;
        Ok (places, boundaries, admin0, admin1, admin2)
      else Throw load_error
  | _ => Throw load_error
  end.

(** MapView.jsx 104-111: the refs after the assignments. *)
Definition assign_refs (places boundaries admin0 admin1 admin2 : collection) : data_refs :=
  DataRefs (Some places) (Some boundaries)
    (<["admin0" := admin0]> (<["admin1" := admin1]> (<["admin2" := admin2]>
      (<["populated_places" := boundaries]> ∅)))).

(** MapView.jsx 76-129 from the resumption after [Promise.all] to the
    [finally]: the state when the load has completed.  [adminLevel0] is
    the admin level of the render whose closure runs. *)
Definition loadData_complete (adminLevel0 : string) (settle_order : list nat)
  (fx : fetches) (st : load_state) : load_state :=
  match fetch_and_parse settle_order fx with
  | Throw e => LoadState (ls_refs st) (ls_stats st) (Some (err_message e)) false
  | Ok (places, boundaries, admin0, admin1, admin2) =>
      let refs := assign_refs places boundaries admin0 admin1 admin2 in
      let upd :=
        tot <- features_length places ;;
        bnd <- features_length (getCurrentBoundaryData (adminData refs) adminLevel0) ;;
        Ok (tot, bnd) in
      match upd with
      | Ok (tot, bnd) =>
          LoadState refs (Stats tot (visible (ls_stats st)) bnd) None false
      | Throw e => LoadState refs (ls_stats st) (Some (err_message e)) false
      end
  end.

(** ** Properties *)

(** A fetch that gave an [ok] response whose body parses. *)
Definition fetch_ok (r : fetch_result) : Prop :=
  exists c, r = Fulfilled (Response true (Ok c)).

Lemma first_rejection_fold (rs : list fetch_result) (idx : list nat) :
  List.fold_right
    (fun i acc => match rs !! i ≫= rejection with Some e => Some e | None => acc end)
    None idx = None <->
  Forall (fun i => rs !! i ≫= rejection = None) idx.
Proof.
  induction idx as [|i idx IH]; simpl; [split; constructor|].
  rewrite Forall_cons, <- IH. destruct (rs !! i ≫= rejection); naive_solver.
Qed.

(** [Promise.all] fulfils, whatever the settle order, exactly when no
    fetch is rejected. *)
Lemma first_rejection_none (settle_order : list nat) (rs : list fetch_result) :
  first_rejection settle_order rs = None <-> Forall (fun r => rejection r = None) rs.
Proof.
  unfold first_rejection. rewrite first_rejection_fold, Forall_app.
  rewrite !List.Forall_forall. setoid_rewrite in_seq. split.
  - intros [_ H] r Hr.
    apply list_elem_of_In, list_elem_of_lookup in Hr as [i Hi].
    pose proof (lookup_lt_Some _ _ _ Hi).
    specialize (H i ltac:(lia)). by rewrite Hi in H.
  - intros H. cut (forall i, rs !! i ≫= rejection = None); [naive_solver|].
    intros i. destruct (rs !! i) as [r|] eqn:Hi; [|done]. simpl.
    apply H, list_elem_of_In, list_elem_of_lookup. eauto.
Qed.

(** The rejection [Promise.all] reports is the rejection of one of the
    fetches. *)
Lemma first_rejection_some (settle_order : list nat) (rs : list fetch_result) (e : js_error) :
  first_rejection settle_order rs = Some e -> In (Rejected e) rs.
Proof.
  unfold first_rejection. generalize (settle_order ++ seq 0 (List.length rs))%list.
  intros idx. induction idx as [|i idx IH]; simpl; [done|].
  destruct (rs !! i) as [[r|e']|] eqn:Hi; simpl; try apply IH.
  intros [= <-]. apply list_elem_of_In, list_elem_of_lookup. eauto.
Qed.

(** The five fetches all give [ok] responses whose bodies parse to the
    given collections. *)
Definition loaded (fx : fetches) (p b a0 a1 a2 : collection) : Prop :=
  fetch_list fx = (fun c => Fulfilled (Response true (Ok c))) <$> [p; b; a0; a1; a2].

(** A successful fetch-and-parse phase returns the bodies of five good
    fetches. *)
Lemma fetch_and_parse_loaded_inv (settle_order : list nat) (fx : fetches) p b a0 a1 a2 :
  fetch_and_parse settle_order fx = Ok (p, b, a0, a1, a2) -> loaded fx p b a0 a1 a2.
Proof.
  unfold fetch_and_parse, promise_all.
  destruct (first_rejection _ _) eqn:Hr; [done|].
  apply first_rejection_none in Hr.
  destruct fx as [[[o1 b1]|e1] [[o2 b2]|e2] [[o3 b3]|e3] [[o4 b4]|e4] [[o5 b5]|e5]];
    unfold fetch_list in Hr; simpl in Hr;
    repeat match goal with H : Forall _ (_ :: _) |- _ => inversion H; subst; clear H end;
    try discriminate.
  simpl. intros Hcs.
  destruct o1, o2, o3, o4, o5; simpl in Hcs; try discriminate.
  destruct b1, b2, b3, b4, b5; simpl in Hcs; try discriminate.
  injection Hcs as <- <- <- <- <-. reflexivity.
Qed.

(** A successful fetch-and-parse phase had five good fetches. *)
Lemma fetch_and_parse_sound (settle_order : list nat) (fx : fetches) cs :
  fetch_and_parse settle_order fx = Ok cs -> Forall fetch_ok (fetch_list fx).
Proof.
  destruct cs as [[[[p b] a0] a1] a2]. intros H%fetch_and_parse_loaded_inv.
  rewrite H. repeat constructor; eexists; reflexivity.
Qed.

(** C18. The fetch-and-parse phase of [loadData] succeeds, whatever the
    order in which the fetches settle, exactly when all five fetches give
    an [ok] response whose body parses. *)
Theorem fetch_and_parse_ok (settle_order : list nat) (fx : fetches) :
  (exists cs, fetch_and_parse settle_order fx = Ok cs) <->
  Forall fetch_ok (fetch_list fx).
Proof.
  split; [intros [cs Hcs]; by apply (fetch_and_parse_sound settle_order fx cs)|].
  intros Hok. unfold fetch_and_parse, promise_all.
  rewrite (proj2 (first_rejection_none _ _)).
  - destruct fx. unfold fetch_list in *. simpl in *.
    repeat match goal with H : Forall _ (_ :: _) |- _ => inversion H; subst; clear H end.
    repeat match goal with H : fetch_ok _ |- _ => destruct H as [? ->] end.
    simpl. eexists. reflexivity.
  - eapply Forall_impl; [exact Hok|]. by intros r [c ->].
Qed.

Lemma fetch_and_parse_loaded (settle_order : list nat) (fx : fetches) (p b a0 a1 a2 : collection) :
  loaded fx p b a0 a1 a2 ->
  fetch_and_parse settle_order fx = Ok (p, b, a0, a1, a2).
Proof.
  unfold loaded, fetch_and_parse, promise_all. intros Hl. rewrite Hl.
  rewrite (proj2 (first_rejection_none _ _)); [done|].
  repeat constructor.
Qed.

(** C19. All or nothing: when a fetch is rejected, a response is not [ok]
    or a body does not parse, the load completes with an error, clears
    [loading], and leaves the data refs and the statistics as they were. *)
Theorem loadData_failure_atomic (adminLevel0 : string) (settle_order : list nat)
    (fx : fetches) (st : load_state) :
  ~ Forall fetch_ok (fetch_list fx) ->
  exists msg, loadData_complete adminLevel0 settle_order fx st =
              LoadState (ls_refs st) (ls_stats st) (Some msg) false.
Proof.
  intros Hf. unfold loadData_complete.
  destruct (fetch_and_parse settle_order fx) as [cs|e] eqn:E; [|eauto].
  exfalso. apply Hf, (fetch_and_parse_sound settle_order fx cs E).
Qed.

(** C20. A successful load stores the five collections, sets [total] to the
    number of point features and [boundaries] to the number of features of
    the collection of the closure's admin level (of [admin1] when the
    level has none), clears the error and [loading], and keeps
    [visible]. *)
Theorem loadData_success (adminLevel0 : string) (settle_order : list nat) (fx : fetches)
    (st : load_state) (p b a0 a1 a2 : collection) (ps bs : list feature) :
  loaded fx p b a0 a1 a2 -> features p = Some ps ->
  features (getCurrentBoundaryData (adminData (assign_refs p b a0 a1 a2)) adminLevel0) = Some bs ->
  loadData_complete adminLevel0 settle_order fx st =
  LoadState (assign_refs p b a0 a1 a2)
            (Stats (List.length ps) (visible (ls_stats st)) (List.length bs)) None false.
Proof.
  intros Hl Hp Hb. unfold loadData_complete.
  rewrite (fetch_and_parse_loaded _ _ _ _ _ _ _ Hl).
  unfold features_length at 1. rewrite Hp. unfold features_length. by rewrite Hb.
Qed.

(** When no fetch is rejected, [Promise.all] gives the five responses in
    the order of the code. *)
Lemma fetch_and_parse_fulfilled (settle_order : list nat) (fx : fetches) (rs : list response) :
  fetch_list fx = Fulfilled <$> rs ->
  exists r1 r2 r3 r4 r5, rs = [r1; r2; r3; r4; r5] /\
    fetch_and_parse settle_order fx =
      if ok r1 && ok r2 && ok r3 && ok r4 && ok r5 then
        places <- body r1 ;; boundaries <- body r2 ;; admin0 <- body r3 ;;
        admin1 <- body r4 ;; admin2 <- body r5 ;;
        Ok (places, boundaries, admin0, admin1, admin2)
      else Throw load_error.
Proof.
  intros Hfx. unfold fetch_and_parse, promise_all.
  rewrite (proj2 (first_rejection_none _ _)).
  - rewrite Hfx. destruct fx, rs as [|r1 [|r2 [|r3 [|r4 [|r5 [|r6 rs]]]]]];
      try discriminate Hfx.
    exists r1, r2, r3, r4, r5. done.
  - rewrite Hfx. apply Forall_fmap, Forall_true. done.
Qed.

(** C21. The error of a failed load follows the order of the code.  With
    no fetch rejected, a response that is not [ok] gives the error
    "Failed to load data files", whatever its body: the [ok] test comes
    before any parse.  With all five [ok], the error is the parse error
    of the first body that does not parse in the order of the code
    (points, polygons, [admin0], [admin1], [admin2]), whatever the order
    in which the responses arrived. *)
Theorem loadData_error_order (adminLevel0 : string) (settle_order : list nat)
    (fx : fetches) (st : load_state) (rs : list response) :
  fetch_list fx = Fulfilled <$> rs ->
  (existsb (fun r => negb (ok r)) rs = true ->
   ls_error (loadData_complete adminLevel0 settle_order fx st) = Some "Failed to load data files") /\
  (forall (pre post : list response) (r : response) (e : js_error),
     rs = (pre ++ r :: post)%list -> Forall (fun q => ok q = true) rs ->
     Forall (fun q => exists c, body q = Ok c) pre -> body r = Throw e ->
     ls_error (loadData_complete adminLevel0 settle_order fx st) = Some (err_message e)).
Proof.
  intros Hfx. unfold loadData_complete.
  destruct (fetch_and_parse_fulfilled settle_order fx rs Hfx) as (r1 & r2 & r3 & r4 & r5 & -> & ->).
  split.
  - intros Hex. simpl in Hex. destruct (ok r1), (ok r2), (ok r3), (ok r4), (ok r5); simpl in *; done.
  - intros pre post r e Hrs Hok Hpre Hr.
    repeat (apply Forall_cons in Hok as [-> Hok]). simpl.
    destruct pre as [|p1 [|p2 [|p3 [|p4 [|p5 pre]]]]]; simpl in Hrs; simplify_eq;
      [| | | | |destruct pre; discriminate];
      repeat (apply Forall_cons in Hpre as [[? ->] Hpre]); by rewrite Hr.
Qed.

(** C22. The load is not all or nothing when a file parses but lacks its
    [features] array: after five good fetches the refs are assigned in
    any case, and the error is set exactly when the points file or the
    boundary collection of the closure's level ([admin1] at mount) has no
    [features], the two collections whose length the [setStats] updater
    reads; the other files may lack it without error. *)
Theorem loadData_partial_exposure (adminLevel0 : string) (settle_order : list nat)
    (fx : fetches) (st : load_state) (p b a0 a1 a2 : collection) :
  loaded fx p b a0 a1 a2 ->
  ls_refs (loadData_complete adminLevel0 settle_order fx st) = assign_refs p b a0 a1 a2 /\
  (ls_error (loadData_complete adminLevel0 settle_order fx st) <> None <->
   features p = None \/
   features (getCurrentBoundaryData (adminData (assign_refs p b a0 a1 a2)) adminLevel0) = None).
Proof.
  intros Hl. unfold loadData_complete.
  rewrite (fetch_and_parse_loaded _ _ _ _ _ _ _ Hl).
  unfold features_length.
  destruct (features p), (features (getCurrentBoundaryData _ adminLevel0));
    simpl; split; naive_solver.
Qed.

(** Whatever the outcome, a completed load clears [loading] and does not
    touch [visible]. *)
Lemma loadData_complete_frame (adminLevel0 : string) (settle_order : list nat)
    (fx : fetches) (st : load_state) :
  ls_loading (loadData_complete adminLevel0 settle_order fx st) = false /\
  visible (ls_stats (loadData_complete adminLevel0 settle_order fx st)) = visible (ls_stats st).
Proof. unfold loadData_complete. by repeat case_match. Qed.

End Loader.
