(* ===== verification/Stats.v ===== *)
(** * The statistics panel (Stats.jsx)

    [Stats] renders the three counters of App's [stats] state with the
    [loading] and [error] states.  The model keeps the texts the panel
    shows: the class of the icon, the three counter texts and the error
    line; the markup around them is not modelled.  [error] is [null] or
    the message of the caught exception; in [{error && ...}] and
    [error ? ... : ...] it is tested for truthiness, so an empty message
    counts as no error.

    Theorems: the panel shows, for each counter, the loading text while
    loading, the error text when there is an error, and the grouped count
    otherwise, except the visible count which is shown as a number in
    every state ([Stats_view_spec]); a count shown reads back as the
    counter ([count_locale_roundtrip]). *)

From S2P Require Import Prelude JsValue Locale Loader.

Open Scope string_scope.

Module StatsPanel.
Import Locale Loader.

Record stats_view := StatsView {
  icon_loading : bool;          (* the [loading] class of the icon *)
  total_text : string;
  visible_text : string;
  boundaries_text : string;
  error_line : option string    (* the error [div], when rendered *)
}.

Definition loading_text : string := "Loading... / جاري التحميل...".
Definition error_text : string := "Error / خطأ".

(** Truthiness of [error], a string or [null]. *)
Definition error_truthy (error : option string) : bool :=
  match error with Some m => truthy (JStr m) | None => false end.

(** [n.toLocaleString()] of a counter. *)
Definition count_locale (n : nat) : string := number_to_locale_string (JsNum (Z.of_nat n) 0).

(** Stats.jsx 13-15 and 29-31: a guarded counter. *)
Definition guarded_count (loading : bool) (error : option string) (n : nat) : string :=
  if loading then loading_text
  else if error_truthy error then error_text
  else count_locale n.

(** Stats.jsx 1-40. *)
Definition Stats (stats : stats) (loading : bool) (error : option string) : stats_view :=
  StatsView loading
    (guarded_count loading error (total stats))
    (count_locale (visible stats))
    (guarded_count loading error (boundaries stats))
    (match error with
     | Some m => if error_truthy error then Some ("Error / خطأ: " ++ m) else None
     | None => None
     end).

(** ** Properties *)

Lemma count_locale_roundtrip (n : nat) : parse_grouped (count_locale n) = Some (N.of_nat n).
Proof.
  unfold count_locale. rewrite locale_string_integer by lia.
  rewrite parse_format_grouped. f_equal. lia.
Qed.

(** C35. What the panel shows: while loading, the total and the boundary
    count show the loading text; after an error (a non-empty message),
    they show the error text and the message is shown below; otherwise
    they show the counts.  The visible count is shown as a number in
    every state, during loading and after an error included. *)
Theorem Stats_view_spec (st : stats) (loading : bool) (error : option string) :
  let v := Stats st loading error in
  visible_text v = count_locale (visible st) /\
  (loading = true -> total_text v = loading_text /\ boundaries_text v = loading_text) /\
  (forall m, loading = false -> error = Some m -> m <> "" ->
     total_text v = error_text /\ boundaries_text v = error_text /\
     error_line v = Some ("Error / خطأ: " ++ m)) /\
  (loading = false -> error = None ->
     total_text v = count_locale (total st) /\ boundaries_text v = count_locale (boundaries st) /\
     error_line v = None).
Proof.
  split_and!; [done| |intros m -> ->|intros -> ->]; unfold Stats, guarded_count; simpl.
  - by intros ->.
  - intros Hm. by destruct m.
  - done.
Qed.

End StatsPanel.
