(* ===== verification/MapView.v ===== *)
(** * The map view: Leaflet state, the five effects, and the App around it

    [MapView] (MapView.jsx) keeps its Leaflet objects in refs: the map,
    the current tile layer, two layer groups (places and boundaries) and
    the loaded data.  After each render Preact runs the component's five
    effects in the order they are declared, each only when one of its
    dependencies changed since the previous render (all five on the first
    render).  The model:

    - [mv_state] holds the refs and the part of the Leaflet map they
      touch: the tile layers attached to the map, the GeoJSON layers held
      by each group, and whether each group is attached to the map.  Each
      Leaflet layer created gets a fresh identity [next_id], as Leaflet's
      [stamp] gives it.
    - [app_state] is the state of [App] (app.jsx 9-16).
    - each effect is a function from the props of the render and the
      state to an [outcome]: the new state, or an exception with the state
      reached when it was thrown.  An exception escaping an effect stops
      the effects still to run in that flush (Preact reports it, the page
      stays); the model records it in [uncaught].
    - each [useEffect] hook is a step of the flush ([mount_hook],
      [places_hook], [toggle_hook], [admin_hook], [style_hook]): it runs
      its effect after the previous hooks when one of its dependencies
      changed; [flush] composes them in declaration order, and
      [mount_cleanup] is the cleanup the mount effect returns.
    - [commit] runs the effects of one render; [step] handles one user
      event of Controls.jsx (or [resetView], app.jsx 18-24), the
      completion of [loadData], or a drag or zoom of the map, which
      Leaflet handles by itself (it changes the viewport and runs no code
      of the program); [boot] is the state after the first render.

    Leaflet is modelled by what the code uses of it: [clearLayers] empties
    a group, [L.geoJSON] draws one layer per feature that has a geometry
    (the others are skipped) with its style and its popup, [addLayer] and
    [removeLayer] attach and detach a layer (adding an attached layer or
    removing a detached one changes nothing).  Leaflet throws
    ["Invalid GeoJSON object."] on a geometry of unknown type; the shapes
    of the coordinates are not checked by the model.  The viewport
    ([viewport]) is the centre and zoom [setView] gives the map at mount.

    Theorem: [displayPlaces] and [displayBoundaries] are idempotent
    ([display_idempotent]). *)

From S2P Require Import Prelude JsValue GeoJson Filter Style Locale Popup Loader.
From stdpp Require Import gmap.

Open Scope string_scope.

Module MapView.
Import PlaceFilter Style Popup Loader.

(** ** Leaflet *)

(** One drawn feature: its geometry, the feature (Leaflet keeps it as
    [layer.feature]), the style and the bound popup. *)
Record drawn := Drawn {
  d_geometry : geom;
  d_feature : feature;
  d_style : path_style;
  d_popup : option popup
}.

(** A GeoJSON layer is the list of its drawn features. *)
Definition geojson_layer := list drawn.

Definition geometry_types : list string :=
  ["Point"; "MultiPoint"; "LineString"; "MultiLineString"; "Polygon";
   "MultiPolygon"; "GeometryCollection"].

Definition invalid_geojson : js_error := JsError "Error" "Invalid GeoJSON object.".

(** Leaflet's [geometryToLayer]: no layer for a feature without geometry,
    an exception for an unknown geometry type. *)
Definition geometry_layer (f : feature) : except js_error (option geom) :=
  match geometry f with
  | None => Ok None
  | Some g => if bool_decide (geom_type g ∈ geometry_types) then Ok (Some g)
              else Throw invalid_geojson
  end.

(** MapView.jsx 167-223: [L.geoJSON] of the filtered places with the
    [style] callback and the [onEachFeature] callback of the places. *)
Fixpoint draw_places (fs : list feature) : except js_error geojson_layer :=
  match fs with
  | [] => Ok []
  | f :: rest =>
      og <- geometry_layer f ;;
      match og with
      | None => draw_places rest
      | Some g =>
          pop <- place_popup f ;;
          r <- draw_places rest ;;
          Ok (Drawn g f (place_style f) pop :: r)
      end
  end.

(** MapView.jsx 287-306: [L.geoJSON] of a boundary collection with the
    style of the admin level and the boundary popups. *)
Fixpoint draw_boundaries (adminLevel : string) (fs : list feature)
  : except js_error geojson_layer :=
  match fs with
  | [] => Ok []
  | f :: rest =>
      og <- geometry_layer f ;;
      match og with
      | None => draw_boundaries adminLevel rest
      | Some g =>
          r <- draw_boundaries adminLevel rest ;;
          Ok (Drawn g f (admin_style adminLevel) (Some (boundary_popup adminLevel f)) :: r)
      end
  end.

(** A tile layer: its identity, URL template and attribution. *)
Record tile := Tile { tile_id : nat; tile_url : string; tile_attribution : string }.

Record basemap := Basemap { url : string; attribution : string }.

(** MapView.jsx 24-45. *)
Definition mapStyles : list (string * basemap) :=
  [("openstreetmap", Basemap "https://{s}.tile.openstreetmap.org/{z}/{x}/{y}.png"
                             "© OpenStreetMap contributors");
   ("satellite", Basemap "https://server.arcgisonline.com/ArcGIS/rest/services/World_Imagery/MapServer/tile/{z}/{y}/{x}"
                         "© Esri, Maxar, Earthstar Geographics");
   ("terrain", Basemap "https://{s}.tile.opentopomap.org/{z}/{x}/{y}.png"
                       "© OpenTopoMap contributors");
   ("dark", Basemap "https://{s}.basemaps.cartocdn.com/dark_all/{z}/{x}/{y}{r}.png"
                    "© CartoDB, © OpenStreetMap contributors");
   ("light", Basemap "https://{s}.basemaps.cartocdn.com/light_all/{z}/{x}/{y}{r}.png"
                     "© CartoDB, © OpenStreetMap contributors")].

Definition osm : basemap :=
  Basemap "https://{s}.tile.openstreetmap.org/{z}/{x}/{y}.png" "© OpenStreetMap contributors".

(** MapView.jsx 54 and 342: [mapStyles[mapStyle] || mapStyles.openstreetmap]. *)
Definition style_of (mapStyle : string) : basemap :=
  default osm (snd <$> List.find (fun kv => String.eqb (fst kv) mapStyle) mapStyles).

(** ** State *)

(** The props MapView reads (app.jsx 45-54). *)
Record props := Props {
  placeFilter : string;
  showBoundaries : bool;
  adminLevel : string;
  searchTerm : string;
  mapStyle : string
}.

(** The center (latitude, longitude) and zoom of the Leaflet map. *)
Record viewport := Viewport { center_lat : jsnum; center_lng : jsnum; zoom : jsnum }.

(** MapView.jsx 51: [setView([15.5007, 32.5599], 6)]. *)
Definition initial_view : viewport := Viewport (JsNum 155007 4) (JsNum 325599 4) (JsNum 6 0).

(** MapView.jsx 14-21 and the Leaflet objects they point to. *)
Record mv_state := MV {
  mapInstance : bool;                  (* mapInstance.current !== null *)
  map_tiles : list tile;               (* tile layers attached to the map *)
  tileLayer : option tile;             (* tileLayer.current *)
  placesLayer : option (list geojson_layer);      (* the group and its layers *)
  places_on_map : bool;
  boundariesLayer : option (list geojson_layer);
  boundaries_on_map : bool;
  data : data_refs;                    (* placesData, boundariesData, adminData *)
  next_id : nat;
  view : option viewport               (* the map's center and zoom *)
}.

(** app.jsx 9-16. *)
Record app_state := AppState {
  ui : props;
  stats_of : stats;
  loading : bool;
  error : option string
}.

(** The whole viewer: the App state, the MapView state, the props of the
    last committed render, whether [loadData] is waiting for its fetches
    and the admin level its closure reads, and the exceptions that escaped
    an effect. *)
Record sys := Sys {
  app : app_state;
  mv : mv_state;
  committed : props;
  load_pending : bool;
  closure_level : string;
  uncaught : list js_error
}.

Inductive outcome :=
| Done (s : sys)
| Threw (e : js_error) (s : sys).

(** The state an effect leaves, whether it returned or threw. *)
Definition out (o : outcome) : sys := match o with Done s => s | Threw _ s => s end.

(** Updates of single fields. *)
Definition set_mv (s : sys) (m : mv_state) : sys :=
  Sys (app s) m (committed s) (load_pending s) (closure_level s) (uncaught s).

Definition update_stats (s : sys) (f : stats -> stats) : sys :=
  let a := app s in
  Sys (AppState (ui a) (f (stats_of a)) (loading a) (error a))
      (mv s) (committed s) (load_pending s) (closure_level s) (uncaught s).

Definition set_visible (n : nat) (st : stats) : stats := Stats (total st) n (boundaries st).
Definition set_boundaries (n : nat) (st : stats) : stats := Stats (total st) (visible st) n.

Definition with_places (m : mv_state) (g : option (list geojson_layer)) : mv_state :=
  MV (mapInstance m) (map_tiles m) (tileLayer m) g (places_on_map m)
     (boundariesLayer m) (boundaries_on_map m) (data m) (next_id m) (view m).

Definition with_boundaries (m : mv_state) (g : option (list geojson_layer)) : mv_state :=
  MV (mapInstance m) (map_tiles m) (tileLayer m) (placesLayer m) (places_on_map m)
     g (boundaries_on_map m) (data m) (next_id m) (view m).

Definition with_boundaries_on_map (m : mv_state) (b : bool) : mv_state :=
  MV (mapInstance m) (map_tiles m) (tileLayer m) (placesLayer m) (places_on_map m)
     (boundariesLayer m) b (data m) (next_id m) (view m).

Definition with_tiles (m : mv_state) (ts : list tile) (t : tile) : mv_state :=
  MV (mapInstance m) ts (Some t) (placesLayer m) (places_on_map m)
     (boundariesLayer m) (boundaries_on_map m) (data m) (S (next_id m)) (view m).

Definition with_data (m : mv_state) (d : data_refs) : mv_state :=
  MV (mapInstance m) (map_tiles m) (tileLayer m) (placesLayer m) (places_on_map m)
     (boundariesLayer m) (boundaries_on_map m) d (next_id m) (view m).

Definition with_view (m : mv_state) (v : option viewport) : mv_state :=
  MV (mapInstance m) (map_tiles m) (tileLayer m) (placesLayer m) (places_on_map m)
     (boundariesLayer m) (boundaries_on_map m) (data m) (next_id m) v.

(** ** The effects *)

(** MapView.jsx 353: what MapView renders, the [div] with id ["map"]
    that [mapRef] holds; the mount effect creates the map in it. *)
Definition map_container_id : string := "map".

(** MapView.jsx 48-65, the mount effect: create the map centred on
    Khartoum at zoom 6, with its tile layer and the two groups, all
    attached, then start [loadData], whose first statement is
    [setLoading(true)]. *)
Definition init_effect (p : props) (s : sys) : outcome :=
  let m := mv s in
  if mapInstance m then Done s
  else
    let b := style_of (mapStyle p) in
    let t := Tile (next_id m) (url b) (attribution b) in
    let m' := MV true [t] (Some t) (Some []) true (Some []) true (data m) (S (next_id m))
                 (Some initial_view) in
    let a := app s in
    Done (Sys (AppState (ui a) (stats_of a) true (error a)) m' (committed s)
              true (adminLevel p) (uncaught s)).

(** MapView.jsx 67-72, the cleanup the mount effect returns, run when
    MapView unmounts: [map.remove()] detaches every layer and the map is
    gone; the ref is reset, the other refs keep the detached objects.  A
    second cleanup finds no map and does nothing.  App always renders
    MapView, so the viewer never runs it. *)
Definition mount_cleanup (s : sys) : sys :=
  let m := mv s in
  if mapInstance m then
    set_mv s (MV false [] (tileLayer m) (placesLayer m) false (boundariesLayer m) false
                 (data m) (next_id m) None)
  else s.

(** MapView.jsx 149: [boundariesData.current || placesData.current]. *)
Definition data_to_use (r : data_refs) : option collection :=
  match boundariesData r with
  | Some c => Some c
  | None => placesData r
  end.

(** MapView.jsx 155 and 160: [.filter] of [undefined]. *)
Definition filter_error : js_error :=
  type_error "Cannot read properties of undefined (reading 'filter')".

(** The exception of MapView.jsx 152-167 when the collection has no
    [features]: [.filter] of [undefined] when a filter applies, otherwise
    [L.geoJSON] of a collection without features. *)
Definition places_input_error (p : props) : js_error :=
  if negb (String.eqb (placeFilter p) "all") || truthy (JStr (searchTerm p))
  then filter_error
  else invalid_geojson.

(** MapView.jsx 137-226: [displayPlaces]. *)
Definition displayPlaces (p : props) (s : sys) : outcome :=
  let m := mv s in
  match placesLayer m with
  | None => Done s
  | Some _ =>
      let s1 := set_mv s (with_places m (Some [])) in
      if String.eqb (placeFilter p) "none" then Done (update_stats s1 (set_visible 0))
      else
        match data_to_use (data m) with
        | None => Done s1
        | Some c =>
            match features c with
            | None => Threw (places_input_error p) s1
            | Some fs =>
                match filterFeatures (placeFilter p) (searchTerm p) fs with
                | Throw e => Threw e s1
                | Ok l =>
                    match draw_places l with
                    | Throw e => Threw e s1
                    | Ok layer =>
                        Done (update_stats (set_mv s1 (with_places m (Some [layer])))
                                           (set_visible (List.length l)))
                    end
                end
            end
        end
  end.

(** MapView.jsx 315-323: attach or detach the boundaries group. *)
Definition toggleBoundaries (p : props) (s : sys) : outcome :=
  let m := mv s in
  if negb (mapInstance m) then Done s
  else
    match boundariesLayer m with
    | None => Done s
    | Some _ => Done (set_mv s (with_boundaries_on_map m (showBoundaries p)))
    end.

(** MapView.jsx 229-307: [displayBoundaries]. *)
Definition displayBoundaries (p : props) (s : sys) : outcome :=
  let m := mv s in
  match boundariesLayer m with
  | None => Done s
  | Some _ =>
      let s1 := set_mv s (with_boundaries m (Some [])) in
      let cur := getCurrentBoundaryData (adminData (data m)) (adminLevel p) in
      match features cur with
      | None => Done s1
      | Some fs =>
          match draw_boundaries (adminLevel p) fs with
          | Throw e => Threw e s1
          | Ok layer => Done (set_mv s1 (with_boundaries m (Some [layer])))
          end
      end
  end.

(** MapView.jsx 326-336: redraw the boundaries of the new level and
    count them, when boundaries are shown and the level has data. *)
Definition adminLevelEffect (p : props) (s : sys) : outcome :=
  if showBoundaries p && bool_decide (is_Some (adminData (data (mv s)) !! adminLevel p)) then
    match displayBoundaries p s with
    | Threw e s' => Threw e s'
    | Done s' =>
        let cur := getCurrentBoundaryData (adminData (data (mv s'))) (adminLevel p) in
        Done (update_stats s' (set_boundaries
                (match features cur with Some fs => List.length fs | None => 0 end)))
    end
  else Done s.

(** MapView.jsx 339-351: replace the current tile layer by a new one. *)
Definition mapStyleEffect (p : props) (s : sys) : outcome :=
  let m := mv s in
  if negb (mapInstance m) then Done s
  else
    match tileLayer m with
    | None => Done s
    | Some old =>
        let b := style_of (mapStyle p) in
        let t := Tile (next_id m) (url b) (attribution b) in
        let kept := List.filter (fun x => negb (Nat.eqb (tile_id x) (tile_id old))) (map_tiles m) in
        Done (set_mv s (with_tiles m (kept ++ [t])%list t))
    end.

(** ** Rendering and events *)

(** Run an effect after the previous ones when its dependencies changed;
    an exception stops the flush. *)
Definition then_run (run : bool) (eff : props -> sys -> outcome) (p : props) (o : outcome)
  : outcome :=
  match o with
  | Done s => if run then eff p s else o
  | Threw _ _ => o
  end.

Definition changed (a b : string) : bool := negb (String.eqb a b).

(** The five [useEffect] hooks of MapView, each as the step of the
    flush it contributes: it runs its effect after the previous hooks,
    on the first render ([mount]) or when one of its dependencies changed
    since the previous render (props [old]). *)

(** MapView.jsx 47-73: [useEffect(..., [])], on mount only. *)
Definition mount_hook (mount : bool) (p : props) (o : outcome) : outcome :=
  then_run mount init_effect p o.

(** MapView.jsx 309-312: [useEffect(() => displayPlaces(), [placeFilter, searchTerm])]. *)
Definition places_hook (mount : bool) (old p : props) (o : outcome) : outcome :=
  then_run (mount || changed (placeFilter old) (placeFilter p)
                  || changed (searchTerm old) (searchTerm p)) displayPlaces p o.

(** MapView.jsx 314-323: the toggle, on [showBoundaries]. *)
Definition toggle_hook (mount : bool) (old p : props) (o : outcome) : outcome :=
  then_run (mount || negb (Bool.eqb (showBoundaries old) (showBoundaries p)))
           toggleBoundaries p o.

(** MapView.jsx 325-336: the admin-level redraw, on [adminLevel]. *)
Definition admin_hook (mount : bool) (old p : props) (o : outcome) : outcome :=
  then_run (mount || changed (adminLevel old) (adminLevel p)) adminLevelEffect p o.

(** MapView.jsx 338-351: the basemap switch, on [mapStyle]. *)
Definition style_hook (mount : bool) (old p : props) (o : outcome) : outcome :=
  then_run (mount || changed (mapStyle old) (mapStyle p)) mapStyleEffect p o.

(** The flush of MapView's effects after a render with props [p], the
    previous render having had props [old]: the hooks in the order
    MapView.jsx declares them. *)
Definition flush (mount : bool) (old p : props) (s0 : sys) : outcome :=
  style_hook mount old p (admin_hook mount old p (toggle_hook mount old p
    (places_hook mount old p (mount_hook mount p (Done s0))))).

(** The state after a flush; an exception that escaped is reported. *)
Definition finalize (o : outcome) : sys :=
  match o with
  | Done s' => s'
  | Threw e s' => Sys (app s') (mv s') (committed s') (load_pending s')
                      (closure_level s') (e :: uncaught s')
  end.

(** A render of MapView with props [p]: the props become the committed
    ones and the effects run. *)
Definition commit (mount : bool) (p : props) (s : sys) : sys :=
  finalize (flush mount (committed s) p
              (Sys (app s) (mv s) p (load_pending s) (closure_level s) (uncaught s))).

(** A state change of App: the new props, then the render of MapView. *)
Definition render (s : sys) (u : props) : sys :=
  let a := app s in
  commit false u (Sys (AppState u (stats_of a) (loading a) (error a)) (mv s)
                      (committed s) (load_pending s) (closure_level s) (uncaught s)).

(** The option values of the selects of Controls.jsx. *)
Definition placeFilter_options : list string := ["none"; "all"; "city"; "town"; "village"].
Definition adminLevel_options : list string := ["admin0"; "admin1"; "admin2"; "populated_places"].
Definition mapStyle_options : list string :=
  ["openstreetmap"; "satellite"; "terrain"; "dark"; "light"].

Inductive event :=
| SetPlaceFilter (v : string)             (* Controls.jsx 24 *)
| SetShowBoundaries (b : bool)            (* Controls.jsx 39 *)
| SetAdminLevel (v : string)              (* Controls.jsx 54, disabled at 55 *)
| SetMapStyle (v : string)                (* Controls.jsx 73 *)
| SetSearchTerm (v : string)              (* Controls.jsx 92 *)
| ResetView                               (* Controls.jsx 97, app.jsx 18-24 *)
| LoadComplete (settle_order : list nat) (fx : fetches)  (* loadData resumes *)
| MoveMap (v : viewport).                 (* the user drags or zooms the map *)

(** app.jsx 9-13 and 18-24: the initial and the reset values. *)
Definition default_props : props := Props "none" false "admin1" "" "openstreetmap".

(** The completion of [loadData]: the loader writes the refs and the App
    state; the App renders again with the same props, which runs no
    effect. *)
Definition finish_load (s : sys) (settle_order : list nat) (fx : fetches) : sys :=
  let a := app s in
  let ls := loadData_complete (closure_level s) settle_order fx
              (LoadState (data (mv s)) (stats_of a) (error a) (loading a)) in
  Sys (AppState (ui a) (ls_stats ls) (ls_loading ls) (ls_error ls))
      (with_data (mv s) (ls_refs ls)) (committed s) false (closure_level s) (uncaught s).

(** One event; [None] when the event cannot happen (a value the select
    does not offer, the disabled admin-level select, no pending load, or
    no map to move). *)
Definition step (s : sys) (ev : event) : option sys :=
  let u := ui (app s) in
  match ev with
  | SetPlaceFilter v =>
      if bool_decide (v ∈ placeFilter_options)
      then Some (render s (Props v (showBoundaries u) (adminLevel u) (searchTerm u) (mapStyle u)))
      else None
  | SetShowBoundaries b =>
      Some (render s (Props (placeFilter u) b (adminLevel u) (searchTerm u) (mapStyle u)))
  | SetAdminLevel v =>
      if showBoundaries u && bool_decide (v ∈ adminLevel_options)
      then Some (render s (Props (placeFilter u) (showBoundaries u) v (searchTerm u) (mapStyle u)))
      else None
  | SetMapStyle v =>
      if bool_decide (v ∈ mapStyle_options)
      then Some (render s (Props (placeFilter u) (showBoundaries u) (adminLevel u) (searchTerm u) v))
      else None
  | SetSearchTerm v =>
      Some (render s (Props (placeFilter u) (showBoundaries u) (adminLevel u) v (mapStyle u)))
  | ResetView => Some (render s default_props)
  | LoadComplete order fx =>
      if load_pending s then Some (finish_load s order fx) else None
  | MoveMap v =>
      if mapInstance (mv s) then Some (set_mv s (with_view (mv s) (Some v))) else None
  end.

(** The state before the first render, and after it. *)
Definition unmounted : mv_state := MV false [] None None false None false no_data 0 None.

Definition pre_mount : sys :=
  Sys (AppState default_props (Stats 0 0 0) true None) unmounted default_props false "admin1" [].

Definition boot : sys := commit true default_props pre_mount.

(** ** Properties *)

(** C12. Redrawing is idempotent (spec, section 4.4): each of
    [displayPlaces] and [displayBoundaries], run again with the same
    props on the state it left, gives the same outcome, exception
    included, because it clears its group before drawing.  Nothing
    accumulates in a group. *)
Theorem display_idempotent (p : props) (s : sys) :
  displayPlaces p (out (displayPlaces p s)) = displayPlaces p s /\
  displayBoundaries p (out (displayBoundaries p s)) = displayBoundaries p s.
Proof.
  destruct s as [a [mi ts tl pl pom bl bom d nid vw] c lp cl un].
  split; [unfold displayPlaces | unfold displayBoundaries]; simpl;
    repeat (case_match; simplify_eq; simpl); reflexivity.
Qed.

End MapView.
