(* ===== verification/Viewer.v ===== *)
(** * The viewer as a state machine: invariants and behaviour

    This file defines the states [reachable] from the first render
    ([MapView.boot]) by the events of [MapView.step], and runs of events
    ([run]), and proves properties of the reachable states and of single
    events.  The lemmas first describe each
    effect by the shape of the state it leaves ([*_shape]) and each kind of
    event by the single effect its render runs ([flush_*]); the invariant
    [inv] is then shown to hold after the first render and to be kept by
    every event, and the behaviour of the events is stated against it:
    single events ([places_redraw], [basemap_switch], [reset_spec], ...),
    runs of show/hide events that keep both groups ([rapid_toggle]), and
    runs after the load that never reload the data ([load_once]). *)

From S2P Require Import Prelude JsValue GeoJson Filter Style Locale Popup Loader MapView.
From stdpp Require Import gmap.

Open Scope string_scope.

Module Viewer.
Import PlaceFilter FilterEngine Style Popup Loader MapView.

(** ** Runs of the viewer *)

(** The states the viewer reaches from its first render. *)
Inductive reachable : sys -> Prop :=
| reach_boot : reachable boot
| reach_step s ev s' : reachable s -> step s ev = Some s' -> reachable s'.

(** Run a list of events from a state. *)
Fixpoint run (s : sys) (evs : list event) : option sys :=
  match evs with
  | [] => Some s
  | ev :: evs' => match step s ev with Some s' => run s' evs' | None => None end
  end.

(** ** Effects one by one *)

Lemma then_run_false (eff : props -> sys -> outcome) (p : props) (o : outcome) :
  then_run false eff p o = o.
Proof. by destruct o. Qed.

Lemma changed_refl (a : string) : changed a a = false.
Proof. unfold changed. by rewrite String.eqb_refl. Qed.

Lemma changed_false (a b : string) : changed a b = false -> a = b.
Proof. unfold changed. destruct (String.eqb_spec a b); done. Qed.

#[export] Hint Rewrite then_run_false changed_refl Bool.eqb_reflx : geo_rw.

(** The state after [finalize] is the state of the outcome, with the
    escaped exception reported. *)
Lemma finalize_out (o : outcome) :
  app (finalize o) = app (out o) /\ mv (finalize o) = mv (out o) /\
  committed (finalize o) = committed (out o) /\
  load_pending (finalize o) = load_pending (out o) /\
  closure_level (finalize o) = closure_level (out o).
Proof. by destruct o. Qed.

(** [L.geoJSON] draws each feature of its input at most once, with the
    style of its callback. *)
Lemma draw_places_sound (l : list feature) (layer : geojson_layer) :
  draw_places l = Ok layer ->
  forall d, In d layer -> In (d_feature d) l /\ d_style d = place_style (d_feature d).
Proof.
  revert layer. induction l as [|f l IH]; simpl; intros layer.
  - by intros [= <-].
  - destruct (geometry_layer f) as [[g|]|e]; [|intros Hl d Hd; destruct (IH _ Hl d Hd); by split; [right|] | done].
    destruct (place_popup f) as [pop|e]; [|done].
    destruct (draw_places l) as [r|e] eqn:Hr; [|done].
    intros [= <-] d [<-|Hd]; [by split; [left|]|].
    destruct (IH r eq_refl d Hd). by split; [right|].
Qed.

Lemma draw_boundaries_sound (adminLevel : string) (fs : list feature) (layer : geojson_layer) :
  draw_boundaries adminLevel fs = Ok layer ->
  forall d, In d layer -> In (d_feature d) fs /\ d_style d = admin_style adminLevel.
Proof.
  revert layer. induction fs as [|f fs IH]; simpl; intros layer.
  - by intros [= <-].
  - destruct (geometry_layer f) as [[g|]|e];
      [|intros Hl d Hd; destruct (IH _ Hl d Hd); by split; [right|] | done].
    destruct (draw_boundaries adminLevel fs) as [r|e] eqn:Hr; [|done].
    intros [= <-] d [<-|Hd]; [by split; [left|]|].
    destruct (IH r eq_refl d Hd). by split; [right|].
Qed.

(** A feature Leaflet can draw: no geometry, or one of a known type. *)
Definition geometry_ok (f : feature) : Prop :=
  match geometry f with None => True | Some g => geom_type g ∈ geometry_types end.

Definition has_geometry (f : feature) : bool :=
  match geometry f with Some _ => true | None => false end.

Lemma geometry_layer_ok (f : feature) :
  geometry_ok f -> geometry_layer f = Ok (if has_geometry f then geometry f else None).
Proof.
  unfold geometry_ok, geometry_layer, has_geometry.
  destruct (geometry f); [|done]. intros H. by rewrite bool_decide_eq_true_2.
Qed.


(** A normal answer of [geometry_layer] is the geometry of the feature. *)
Lemma geometry_layer_some (f : feature) (og : option geom) :
  geometry_layer f = Ok og -> og = geometry f.
Proof.
  unfold geometry_layer. destruct (geometry f); [|by intros [= <-]].
  case_bool_decide; [by intros [= <-]|done].
Qed.

(** A normal result of [L.geoJSON] on the places draws exactly the
    features that have a geometry, in order. *)
Lemma draw_places_map (l : list feature) (layer : geojson_layer) :
  draw_places l = Ok layer -> List.map d_feature layer = List.filter has_geometry l.
Proof.
  revert layer. induction l as [|f l IH]; simpl; intros layer; [by intros [= <-]|].
  destruct (geometry_layer f) as [og|e] eqn:Hg; [|done]. simpl.
  apply geometry_layer_some in Hg. unfold has_geometry at 1. rewrite <- Hg.
  destruct og as [g|]; [|apply IH].
  destruct (place_popup f) as [pop|e]; [|done]. simpl.
  destruct (draw_places l) as [r|e]; [|done]. intros [= <-]. simpl. by rewrite (IH r).
Qed.

Lemma update_stats_id (s : sys) : update_stats s (fun x => x) = s.
Proof. by destruct s as [[]]. Qed.

Lemma set_mv_id (s : sys) : set_mv s (mv s) = s.
Proof. by destruct s. Qed.

Lemma with_places_id (m : mv_state) : with_places m (placesLayer m) = m.
Proof. by destruct m. Qed.

Lemma with_boundaries_on_map_id (m : mv_state) :
  with_boundaries_on_map m (boundaries_on_map m) = m.
Proof. by destruct m. Qed.

(** [displayPlaces] on a mounted view replaces the content of the places
    group by nothing or by the one layer drawn from the filtered features
    of the data in use, and may update [visible]; nothing else changes. *)
Lemma displayPlaces_shape (p : props) (s : sys) (g0 : list geojson_layer) :
  placesLayer (mv s) = Some g0 ->
  exists g f,
    out (displayPlaces p s) = update_stats (set_mv s (with_places (mv s) (Some g))) f /\
    (placeFilter p = "none" -> g = [] /\ f = set_visible 0) /\
    (g = [] \/
     exists c fs l layer,
       data_to_use (data (mv s)) = Some c /\ features c = Some fs /\
       filterFeatures (placeFilter p) (searchTerm p) fs = Ok l /\
       draw_places l = Ok layer /\ g = [layer] /\ f = set_visible (List.length l)).
Proof.
  intros Hg. unfold displayPlaces. rewrite Hg.
  destruct (String.eqb_spec (placeFilter p) "none") as [Hn|Hn];
    [by eexists [], _; split; [|split; [|left]]|].
  destruct (data_to_use (data (mv s))) as [c|] eqn:Hc;
    [|exists [], (fun x => x); by rewrite update_stats_id; split; [|split; [|left]]].
  destruct (features c) as [fs|] eqn:Hfs;
    [|exists [], (fun x => x); by rewrite update_stats_id; split; [|split; [|left]]].
  destruct (filterFeatures _ _ fs) as [l|e] eqn:Hl;
    [|exists [], (fun x => x); by rewrite update_stats_id; split; [|split; [|left]]].
  destruct (draw_places l) as [layer|e] eqn:Hd;
    [|exists [], (fun x => x); by rewrite update_stats_id; split; [|split; [|left]]].
  eexists [layer], _. split; [reflexivity|]. split; [done|]. right. eauto 10.
Qed.

(** The toggle attaches the boundaries group when boundaries are to be
    shown and detaches it otherwise, without touching its content. *)
Lemma toggle_shape (p : props) (s : sys) (g0 : list geojson_layer) :
  mapInstance (mv s) = true -> boundariesLayer (mv s) = Some g0 ->
  out (toggleBoundaries p s) = set_mv s (with_boundaries_on_map (mv s) (showBoundaries p)).
Proof. intros Hm Hg. unfold toggleBoundaries. by rewrite Hm, Hg. Qed.

(** The admin-level effect leaves the state as it is, or replaces the
    content of the boundaries group by nothing or by one layer drawn in
    the style of the level, and may update the boundary count. *)
Lemma adminLevelEffect_shape (p : props) (s : sys) (g0 : list geojson_layer) :
  boundariesLayer (mv s) = Some g0 ->
  out (adminLevelEffect p s) = s \/
  exists g f,
    out (adminLevelEffect p s) = update_stats (set_mv s (with_boundaries (mv s) (Some g))) f /\
    (forall st, visible (f st) = visible st /\ total (f st) = total st) /\
    List.length g <= 1 /\
    (forall layer d, In layer g -> In d layer -> d_style d = admin_style (adminLevel p)).
Proof.
  intros Hg. unfold adminLevelEffect.
  destruct (showBoundaries p && _); [right|by left].
  unfold displayBoundaries. rewrite Hg.
  destruct (features _) as [fs|] eqn:Hfs; simpl.
  - destruct (draw_boundaries _ fs) as [layer|e] eqn:Hd; simpl.
    + eexists [layer], _. split; [reflexivity|]. split; [done|]. split; [simpl; lia|].
      intros ? d [<-|[]] Hd'. by apply (draw_boundaries_sound _ _ _ Hd d Hd').
    + exists [], (fun x => x). rewrite update_stats_id.
      split; [done|]. split; [done|]. split; [simpl; lia|done].
  - eexists [], _. split; [reflexivity|]. split; [done|]. split; [simpl; lia|done].
Qed.

(** The map-style effect replaces the one tile layer of the map by a new
    layer of the selected style. *)
Lemma mapStyleEffect_shape (p : props) (s : sys) (t0 : tile) :
  mapInstance (mv s) = true -> tileLayer (mv s) = Some t0 -> map_tiles (mv s) = [t0] ->
  let t := Tile (next_id (mv s)) (url (style_of (mapStyle p))) (attribution (style_of (mapStyle p))) in
  out (mapStyleEffect p s) = set_mv s (with_tiles (mv s) [t] t).
Proof.
  intros Hm Ht Hts t. unfold mapStyleEffect. rewrite Hm, Ht, Hts. simpl.
  by rewrite Nat.eqb_refl.
Qed.

(** ** Which effect a render runs *)

(** The flush unfolded: the five effects, each under the test of its
    dependencies. *)
Lemma flush_eq (mount : bool) (old p : props) (s0 : sys) :
  flush mount old p s0 =
  let o := then_run mount init_effect p (Done s0) in
  let o := then_run (mount || changed (placeFilter old) (placeFilter p)
                           || changed (searchTerm old) (searchTerm p)) displayPlaces p o in
  let o := then_run (mount || negb (Bool.eqb (showBoundaries old) (showBoundaries p)))
                    toggleBoundaries p o in
  let o := then_run (mount || changed (adminLevel old) (adminLevel p)) adminLevelEffect p o in
  then_run (mount || changed (mapStyle old) (mapStyle p)) mapStyleEffect p o.
Proof. reflexivity. Qed.

Lemma flush_places (old p : props) (s0 : sys) :
  showBoundaries old = showBoundaries p -> adminLevel old = adminLevel p ->
  mapStyle old = mapStyle p ->
  flush false old p s0 =
  then_run (changed (placeFilter old) (placeFilter p) || changed (searchTerm old) (searchTerm p))
           displayPlaces p (Done s0).
Proof.
  intros H1 H2 H3. rewrite flush_eq. rewrite H1, H2, H3. simpl.
  autorewrite with geo_rw. simpl. autorewrite with geo_rw. done.
Qed.

Lemma flush_toggle (old p : props) (s0 : sys) :
  placeFilter old = placeFilter p -> searchTerm old = searchTerm p ->
  adminLevel old = adminLevel p -> mapStyle old = mapStyle p ->
  flush false old p s0 =
  then_run (negb (Bool.eqb (showBoundaries old) (showBoundaries p))) toggleBoundaries p (Done s0).
Proof.
  intros H1 H2 H3 H4. rewrite flush_eq. rewrite H1, H2, H3, H4. simpl.
  autorewrite with geo_rw. simpl. autorewrite with geo_rw. done.
Qed.

Lemma flush_admin (old p : props) (s0 : sys) :
  placeFilter old = placeFilter p -> searchTerm old = searchTerm p ->
  showBoundaries old = showBoundaries p -> mapStyle old = mapStyle p ->
  flush false old p s0 =
  then_run (changed (adminLevel old) (adminLevel p)) adminLevelEffect p (Done s0).
Proof.
  intros H1 H2 H3 H4. rewrite flush_eq. rewrite H1, H2, H3, H4. simpl.
  autorewrite with geo_rw. simpl. autorewrite with geo_rw. done.
Qed.

Lemma flush_style (old p : props) (s0 : sys) :
  placeFilter old = placeFilter p -> searchTerm old = searchTerm p ->
  showBoundaries old = showBoundaries p -> adminLevel old = adminLevel p ->
  flush false old p s0 =
  then_run (changed (mapStyle old) (mapStyle p)) mapStyleEffect p (Done s0).
Proof.
  intros H1 H2 H3 H4. rewrite flush_eq. rewrite H1, H2, H3, H4. simpl.
  autorewrite with geo_rw. simpl. autorewrite with geo_rw. done.
Qed.

(** ** The invariant of the reachable states *)

Record inv (s : sys) : Prop := {
  (* the props of the last render are the App state *)
  inv_committed : committed s = ui (app s);
  (* the map exists and the places group is attached to it *)
  inv_mounted : mapInstance (mv s) = true /\ places_on_map (mv s) = true;
  (* exactly one tile layer is on the map, of the selected style *)
  inv_tile : exists t, tileLayer (mv s) = Some t /\ map_tiles (mv s) = [t] /\
             tile_url t = url (style_of (mapStyle (ui (app s)))) /\
             tile_attribution t = attribution (style_of (mapStyle (ui (app s))));
  (* each group holds at most one GeoJSON layer: redraws do not pile up *)
  inv_places_group : exists g, placesLayer (mv s) = Some g /\ List.length g <= 1;
  inv_bounds_group : exists g, boundariesLayer (mv s) = Some g /\ List.length g <= 1;
  (* the boundaries group is on the map exactly when boundaries are shown *)
  inv_bounds_attached : boundaries_on_map (mv s) = showBoundaries (ui (app s));
  inv_loading : loading (app s) = load_pending s;
  inv_no_data : load_pending s = true -> data (mv s) = no_data;
  (* nothing is drawn before the data arrive *)
  inv_pending_empty : load_pending s = true ->
                      placesLayer (mv s) = Some [] /\ boundariesLayer (mv s) = Some [];
  (* "none" shows nothing and counts nothing *)
  inv_none : placeFilter (ui (app s)) = "none" ->
             placesLayer (mv s) = Some [] /\ visible (stats_of (app s)) = 0;
  (* every drawn place is a loaded feature the current filters select *)
  inv_places_shown : forall g layer d, placesLayer (mv s) = Some g -> In layer g -> In d layer ->
      shown (placeFilter (ui (app s))) (searchTerm (ui (app s))) (d_feature d) /\
      exists c fs, data_to_use (data (mv s)) = Some c /\ features c = Some fs /\
                   In (d_feature d) fs;
  (* the places group shows nothing, or exactly what the spec's filter
     selects from the data in use for the current props, and [visible]
     counts the selection *)
  inv_places_sync : placesLayer (mv s) = Some [] \/
      exists c fs layer, data_to_use (data (mv s)) = Some c /\ features c = Some fs /\
        placesLayer (mv s) = Some [layer] /\
        List.map d_feature layer =
          List.filter has_geometry
            (spec_filterFeatures (placeFilter (ui (app s))) (searchTerm (ui (app s))) fs) /\
        visible (stats_of (app s)) =
          List.length (spec_filterFeatures (placeFilter (ui (app s))) (searchTerm (ui (app s))) fs);
  (* every drawn feature is an outline *)
  inv_unfilled : forall g layer d,
      (placesLayer (mv s) = Some g \/ boundariesLayer (mv s) = Some g) ->
      In layer g -> In d layer -> fill (d_style d) = false
}.

(** [inv] reads only the App state, the MapView state, the committed props
    and [load_pending]. *)
Lemma inv_proj (s s' : sys) :
  app s' = app s -> mv s' = mv s -> committed s' = committed s ->
  load_pending s' = load_pending s -> inv s -> inv s'.
Proof.
  intros Ha Hm Hc Hp []. constructor; rewrite ?Ha, ?Hm, ?Hc, ?Hp; done.
Qed.

Lemma inv_finalize (o : outcome) : inv (out o) -> inv (finalize o).
Proof.
  destruct (finalize_out o) as (Ha & Hm & Hc & Hp & _). by apply inv_proj.
Qed.

(** The state a render starts from: the new props are the App state and
    the committed props. *)
Definition prepare (s : sys) (u : props) : sys :=
  Sys (AppState u (stats_of (app s)) (loading (app s)) (error (app s)))
      (mv s) u (load_pending s) (closure_level s) (uncaught s).

Lemma render_eq (s : sys) (u : props) :
  render s u = finalize (flush false (committed s) u (prepare s u)).
Proof. reflexivity. Qed.

Lemma prepare_self (s : sys) : committed s = ui (app s) -> prepare s (ui (app s)) = s.
Proof. destruct s as [[] ]; simpl. by intros ->. Qed.

(** A render with props equal field by field to the current ones. *)
Lemma props_ext (u v : props) :
  placeFilter u = placeFilter v -> showBoundaries u = showBoundaries v ->
  adminLevel u = adminLevel v -> searchTerm u = searchTerm v -> mapStyle u = mapStyle v ->
  u = v.
Proof. destruct u, v; simpl; intros; by subst. Qed.

(** Drawn places are outlines. *)
Lemma places_unfilled (l : list feature) (layer : geojson_layer) (d : drawn) :
  draw_places l = Ok layer -> In d layer -> fill (d_style d) = false.
Proof.
  intros Hd Hin. destruct (draw_places_sound _ _ Hd d Hin) as [_ ->].
  apply place_style_unfilled.
Qed.

(** The first render establishes the invariant. *)
Lemma inv_boot : inv boot.
Proof.
  constructor; simpl; try done.
  - eexists. split; [reflexivity|]. split; [reflexivity|]. done.
  - eexists. split; [reflexivity|]. simpl; lia.
  - eexists. split; [reflexivity|]. simpl; lia.
  - intros g layer d [= <-] [].
  - by left.
  - intros g layer d [[= <-]|[= <-]] [].
Qed.

(** A render with the props of the previous one runs no effect. *)
Lemma flush_same (p : props) (s0 : sys) : flush false p p s0 = Done s0.
Proof. rewrite flush_eq. simpl. by autorewrite with geo_rw. Qed.

Lemma render_same (s : sys) (u : props) : inv s -> u = ui (app s) -> render s u = s.
Proof.
  intros Hinv Hu. rewrite render_eq, (inv_committed _ Hinv), Hu, flush_same. simpl.
  apply prepare_self, Hinv.
Qed.

(** ** Renders and the props *)

Lemma prepare_prepare (s : sys) (u v : props) : prepare (prepare s u) v = prepare s v.
Proof. reflexivity. Qed.

(** [displayPlaces] reads neither the App props nor the committed ones. *)
Lemma prepare_displayPlaces (p u : props) (s : sys) :
  prepare (out (displayPlaces p s)) u = out (displayPlaces p (prepare s u)).
Proof.
  unfold displayPlaces; simpl. repeat (case_match; simpl); reflexivity.
Qed.

(** ** Every event keeps the invariant *)

(** The invariant does not read the admin level: a render that changes
    only the level starts from a state satisfying it. *)
Lemma inv_prepare (s : sys) (u : props) :
  inv s -> placeFilter u = placeFilter (ui (app s)) -> searchTerm u = searchTerm (ui (app s)) ->
  showBoundaries u = showBoundaries (ui (app s)) -> mapStyle u = mapStyle (ui (app s)) ->
  inv (prepare s u).
Proof.
  intros [Hc Hm Ht Hpg Hbg Hba Hl Hnd Hpe Hn Hsh Hsy Hun] Hpf Hst Hsb Hms.
  constructor; simpl; rewrite ?Hpf, ?Hst, ?Hsb, ?Hms; done.
Qed.

(** Without data the admin-level effect does nothing. *)
Lemma adminLevelEffect_nodata (p : props) (s : sys) :
  data (mv s) = no_data -> adminLevelEffect p s = Done s.
Proof.
  intros Hd. unfold adminLevelEffect. rewrite Hd. simpl.
  rewrite bool_decide_eq_false_2; [by destruct (showBoundaries p)|].
  rewrite lookup_empty. by intros [].
Qed.

Lemma orb_false_split (a b : bool) : a || b = false -> a = false /\ b = false.
Proof. by destruct a, b. Qed.

(** A render whose props do not change leaves the state as it is. *)
Lemma render_unchanged (s : sys) (u : props) :
  inv s -> u = ui (app s) -> finalize (Done (prepare s u)) = s.
Proof. intros Hinv ->. simpl. apply prepare_self, Hinv. Qed.

(** A change of the place filter or of the search text. *)
Lemma inv_render_places (s : sys) (u : props) :
  inv s -> showBoundaries u = showBoundaries (ui (app s)) ->
  adminLevel u = adminLevel (ui (app s)) -> mapStyle u = mapStyle (ui (app s)) ->
  inv (render s u).
Proof.
  intros Hinv Hsb Hal Hms. rewrite render_eq, (inv_committed _ Hinv), flush_places by done.
  destruct (changed _ _ || changed _ _) eqn:Hch; cbn [then_run].
  - apply inv_finalize.
    destruct (inv_places_group _ Hinv) as (g0 & Hg0 & _).
    destruct (displayPlaces_shape u (prepare s u) g0 Hg0) as (g & f & -> & Hnone & Hg).
    destruct Hinv as [Hc [Hm Hpm] Ht Hpg Hbg Hba Hl Hnd Hpe Hn Hsh Hsy Hun].
    constructor; simpl; rewrite ?Hsb, ?Hms; try done.
    + exists g. split; [done|]. destruct Hg as [->|(c & fs & l & layer & _ & _ & _ & _ & -> & _)]; simpl; lia.
    + intros Hp. split; [|apply Hpe, Hp].
      destruct Hg as [->|(c & fs & l & layer & Hc' & _)]; [done|].
      simpl in Hc'. by rewrite (Hnd Hp) in Hc'.
    + intros Hu. destruct (Hnone Hu) as [-> ->]. done.
    + intros g' layer d [= <-] Hl' Hd. destruct Hg as [->|(c & fs & l & layer' & Hc' & Hfs & Hf & Hdr & -> & _)]; [done|].
      destruct Hl' as [<-|[]]. destruct (draw_places_sound _ _ Hdr d Hd) as [Hdl _].
      destruct (contract_sound filterFeatures _ _ _ _ Hf _ Hdl). eauto 10.
    + destruct Hg as [->|(c & fs & l & layer & Hc' & Hfs & Hf & Hdr & -> & ->)]; [by left|right].
      assert (Hpf : placeFilter u <> "none") by (intros Hu; by destruct (Hnone Hu)).
      exists c, fs, layer. simpl in Hc' |- *. rewrite spec_filter_not_none by done.
      rewrite <- (contract_ok _ _ _ _ Hf).
      split_and!; try done. by apply draw_places_map.
    + intros g' layer d [[= <-]|Hb] Hl' Hd; [|by eapply Hun; eauto].
      destruct Hg as [->|(c & fs & l & layer' & _ & _ & _ & Hdr & -> & _)]; [done|].
      destruct Hl' as [<-|[]]. by eapply places_unfilled.
  - apply orb_false_split in Hch as [H1 H2]. apply changed_false in H1, H2.
    rewrite render_unchanged; [done..|]. by apply props_ext.
Qed.

(** A change of the boundaries checkbox. *)
Lemma inv_render_toggle (s : sys) (u : props) :
  inv s -> placeFilter u = placeFilter (ui (app s)) -> searchTerm u = searchTerm (ui (app s)) ->
  adminLevel u = adminLevel (ui (app s)) -> mapStyle u = mapStyle (ui (app s)) ->
  inv (render s u).
Proof.
  intros Hinv Hpf Hst Hal Hms. rewrite render_eq, (inv_committed _ Hinv), flush_toggle by done.
  destruct (negb _) eqn:Hch; cbn [then_run].
  - apply inv_finalize.
    destruct (inv_bounds_group _ Hinv) as (g0 & Hg0 & _).
    rewrite (toggle_shape u (prepare s u) g0) by (apply Hinv || done).
    destruct Hinv as [Hc [Hm Hpm] Ht Hpg Hbg Hba Hl Hnd Hpe Hn Hsh Hsy Hun].
    constructor; simpl; rewrite ?Hpf, ?Hst, ?Hms; done.
  - rewrite render_unchanged; [done..|]. apply props_ext; try done.
    by destruct (showBoundaries u), (showBoundaries (ui (app s))).
Qed.

(** A change of the admin level. *)
Lemma inv_render_admin (s : sys) (u : props) :
  inv s -> placeFilter u = placeFilter (ui (app s)) -> searchTerm u = searchTerm (ui (app s)) ->
  showBoundaries u = showBoundaries (ui (app s)) -> mapStyle u = mapStyle (ui (app s)) ->
  inv (render s u).
Proof.
  intros Hinv Hpf Hst Hsb Hms. rewrite render_eq, (inv_committed _ Hinv), flush_admin by done.
  destruct (changed _ _) eqn:Hch; cbn [then_run].
  - apply inv_finalize.
    destruct (load_pending s) eqn:Hpend.
    + rewrite adminLevelEffect_nodata by (simpl; by rewrite (inv_no_data _ Hinv Hpend)).
      by apply inv_prepare.
    + destruct (inv_bounds_group _ Hinv) as (g0 & Hg0 & _).
      destruct (adminLevelEffect_shape u (prepare s u) g0 Hg0) as [->|(g & f & -> & Hf & Hlen & Hsty)];
        [by apply inv_prepare|].
      destruct Hinv as [Hc [Hm Hpm] Ht Hpg Hbg Hba Hl Hnd Hpe Hn Hsh Hsy Hun];
      constructor; simpl; rewrite ?Hpf, ?Hst, ?Hsb, ?Hms; try done.
      * by exists g.
      * intros Hp. congruence.
      * intros Hu. destruct (Hn Hu). split; [done|]. by rewrite (proj1 (Hf _)).
      * by rewrite (proj1 (Hf _)).
      * intros g' layer d [Hp|[= <-]] Hl' Hd; [eapply Hun; [left; exact Hp|exact Hl'|exact Hd]|].
        rewrite (Hsty layer d Hl' Hd). apply admin_style_unfilled.
  - apply changed_false in Hch.
    rewrite render_unchanged; [done..|]. by apply props_ext.
Qed.

(** A change of the map style. *)
Lemma inv_render_style (s : sys) (u : props) :
  inv s -> placeFilter u = placeFilter (ui (app s)) -> searchTerm u = searchTerm (ui (app s)) ->
  showBoundaries u = showBoundaries (ui (app s)) -> adminLevel u = adminLevel (ui (app s)) ->
  inv (render s u).
Proof.
  intros Hinv Hpf Hst Hsb Hal. rewrite render_eq, (inv_committed _ Hinv), flush_style by done.
  destruct (changed _ _) eqn:Hch; cbn [then_run].
  - apply inv_finalize.
    destruct (inv_tile _ Hinv) as (t0 & Ht0 & Hts & _).
    rewrite (mapStyleEffect_shape u (prepare s u) t0) by (apply Hinv || done).
    destruct Hinv as [Hc [Hm Hpm] Ht Hpg Hbg Hba Hl Hnd Hpe Hn Hsh Hsy Hun].
    constructor; simpl; rewrite ?Hpf, ?Hst, ?Hsb; try done.
    by eexists.
  - apply changed_false in Hch.
    rewrite render_unchanged; [done..|]. by apply props_ext.
Qed.

(** ** Reset *)

Lemma displayPlaces_none (p : props) (s : sys) (g0 : list geojson_layer) :
  placeFilter p = "none" -> placesLayer (mv s) = Some g0 ->
  displayPlaces p s = Done (update_stats (set_mv s (with_places (mv s) (Some []))) (set_visible 0)).
Proof. intros Hp Hg. unfold displayPlaces. by rewrite Hg, Hp. Qed.

Lemma adminLevelEffect_hidden (p : props) (s : sys) :
  showBoundaries p = false -> adminLevelEffect p s = Done s.
Proof. intros Hp. unfold adminLevelEffect. by rewrite Hp. Qed.

Lemma toggle_done (p : props) (s : sys) : toggleBoundaries p s = Done (out (toggleBoundaries p s)).
Proof. unfold toggleBoundaries. by repeat case_match. Qed.

Lemma mapStyleEffect_done (p : props) (s : sys) :
  mapStyleEffect p s = Done (out (mapStyleEffect p s)).
Proof. unfold mapStyleEffect. by repeat case_match. Qed.

(** The places effect of the reset: the group is emptied and [visible]
    is 0, whether the effect runs or the state already showed nothing. *)
Lemma reset_places (s : sys) :
  inv s ->
  exists s1,
    then_run (changed (placeFilter (ui (app s))) (placeFilter default_props)
              || changed (searchTerm (ui (app s))) (searchTerm default_props))
             displayPlaces default_props (Done (prepare s default_props)) = Done s1 /\
    visible (stats_of (app s1)) = 0 /\ mv s1 = with_places (mv s) (Some []) /\
    ui (app s1) = default_props /\ committed s1 = default_props /\
    total (stats_of (app s1)) = total (stats_of (app s)) /\
    boundaries (stats_of (app s1)) = boundaries (stats_of (app s)) /\
    loading (app s1) = loading (app s) /\ error (app s1) = error (app s) /\
    load_pending s1 = load_pending s /\ uncaught s1 = uncaught s.
Proof.
  intros Hinv. destruct (inv_places_group _ Hinv) as (g0 & Hg0 & _).
  destruct (_ || _) eqn:Hch; cbn [then_run].
  - rewrite (displayPlaces_none _ _ g0); [|reflexivity|exact Hg0]. by eexists.
  - apply orb_false_split in Hch as [H1 H2]. apply changed_false in H1, H2.
    destruct (inv_none _ Hinv H1) as [Hp0 Hv0]. eexists. split; [reflexivity|]. simpl.
    rewrite Hv0. repeat split; try done. by rewrite <- Hp0, with_places_id.
Qed.

(** The toggle of the reset detaches the boundaries group, keeping its
    content, whether it runs or the group was already detached. *)
Lemma reset_toggle (s s1 : sys) :
  inv s -> mv s1 = with_places (mv s) (Some []) ->
  exists s2,
    then_run (negb (Bool.eqb (showBoundaries (ui (app s))) (showBoundaries default_props)))
             toggleBoundaries default_props (Done s1) = Done s2 /\
    mv s2 = with_boundaries_on_map (mv s1) false /\ app s2 = app s1 /\
    committed s2 = committed s1 /\ load_pending s2 = load_pending s1 /\ uncaught s2 = uncaught s1.
Proof.
  intros Hinv Hm1. destruct (inv_bounds_group _ Hinv) as (b0 & Hb0 & _).
  destruct (negb _) eqn:Hch; cbn [then_run].
  - rewrite toggle_done, (toggle_shape _ _ b0); [by eexists| |]; rewrite Hm1; [apply Hinv|done].
  - apply negb_false_iff, Bool.eqb_prop in Hch. eexists. split; [reflexivity|].
    split; [|done]. rewrite Hm1. unfold with_boundaries_on_map, with_places. simpl.
    f_equal. by rewrite (inv_bounds_attached _ Hinv), Hch.
Qed.

(** The flush of the render after [resetView]: it never throws; the
    props are the defaults, the places group is empty and [visible] is 0,
    the boundaries group is detached with its content kept, and the one
    tile layer is OpenStreetMap's. *)
Lemma reset_flush (s : sys) :
  inv s ->
  exists s4,
    flush false (ui (app s)) default_props (prepare s default_props) = Done s4 /\
    ui (app s4) = default_props /\ committed s4 = default_props /\
    visible (stats_of (app s4)) = 0 /\
    total (stats_of (app s4)) = total (stats_of (app s)) /\
    boundaries (stats_of (app s4)) = boundaries (stats_of (app s)) /\
    loading (app s4) = loading (app s) /\ error (app s4) = error (app s) /\
    load_pending s4 = load_pending s /\ uncaught s4 = uncaught s /\
    mapInstance (mv s4) = true /\ places_on_map (mv s4) = true /\
    placesLayer (mv s4) = Some [] /\
    boundariesLayer (mv s4) = boundariesLayer (mv s) /\
    boundaries_on_map (mv s4) = false /\ data (mv s4) = data (mv s) /\
    exists t, tileLayer (mv s4) = Some t /\ map_tiles (mv s4) = [t] /\
              tile_url t = url osm /\ tile_attribution t = attribution osm.
Proof.
  intros Hinv. rewrite flush_eq. rewrite then_run_false. cbn [orb].
  destruct (reset_places s Hinv)
    as (s1 & -> & Hv1 & Hm1 & Hu1 & Hc1 & Htot1 & Hb1 & Hl1 & He1 & Hlp1 & Hun1).
  destruct (reset_toggle s s1 Hinv Hm1) as (s2 & -> & Hm2 & Ha2 & Hc2 & Hlp2 & Hun2).
  (* the admin level: boundaries are hidden, nothing happens *)
  cbn [then_run]. rewrite adminLevelEffect_hidden by done.
  assert ((if changed (adminLevel (ui (app s))) (adminLevel default_props) then Done s2
           else Done s2) = Done s2) as -> by (by destruct (changed _ _)).
  (* the map style *)
  destruct Hinv as [_ [Hm Hpm] (t0 & Ht0 & Hts & Hurl & Hattr) _ _ _ _ _ _ _ _ _ _].
  cbn [then_run]. rewrite mapStyleEffect_done.
  destruct (changed (mapStyle (ui (app s))) (mapStyle default_props)) eqn:Hch.
  - rewrite (mapStyleEffect_shape _ _ t0); rewrite ?Hm2, ?Hm1; try done.
    eexists. split; [reflexivity|]. simpl. rewrite ?Ha2, ?Hc2, ?Hlp2, ?Hun2, ?Hm2, ?Hm1.
    repeat split; try done. by eexists.
  - apply changed_false in Hch. eexists. split; [reflexivity|].
    rewrite ?Ha2, ?Hc2, ?Hlp2, ?Hun2, ?Hm2, ?Hm1. simpl.
    repeat split; try done. exists t0. rewrite Hurl, Hattr, Hch. done.
Qed.

Lemma inv_render_reset (s : sys) : inv s -> inv (render s default_props).
Proof.
  intros Hinv. rewrite render_eq, (inv_committed _ Hinv).
  destruct (reset_flush s Hinv) as (s4 & -> & Hu & Hc & Hv & _ & _ & Hl & _ & Hlp & _ &
                                    Hm & Hpm & Hp & Hb & Hba & Hd & Ht).
  simpl. destruct Hinv as [_ _ _ _ Hbg _ Hl0 Hnd Hpe _ _ _ Hun].
  constructor; rewrite ?Hu, ?Hc, ?Hv, ?Hl, ?Hlp, ?Hm, ?Hpm, ?Hp, ?Hb, ?Hba, ?Hd; try done.
  - exists []. split; [done|]. simpl; lia.
  - intros Hp'. split; [done|]. apply Hpe, Hp'.
  - intros g layer d [= <-] [].
  - by left.
  - intros g layer d [[= <-]|Hg] Hl' Hd'; [done|]. eapply Hun; [right; exact Hg|done..].
Qed.

(** The completion of the load writes the data and the App state; the
    places group was empty since no data were there to draw. *)
Lemma inv_finish_load (s : sys) (settle_order : list nat) (fx : fetches) :
  inv s -> load_pending s = true -> inv (finish_load s settle_order fx).
Proof.
  intros Hinv Hp. unfold finish_load.
  destruct (loadData_complete_frame (closure_level s) settle_order fx
              (LoadState (data (mv s)) (stats_of (app s)) (error (app s)) (loading (app s))))
    as [Hl Hv].
  destruct Hinv as [Hc Hm Ht Hpg Hbg Hba _ Hnd Hpe Hn Hsh Hsy Hun].
  constructor; simpl; rewrite ?Hl, ?Hv; try done.
  - intros g layer d Hg Hl' Hd. exfalso.
    destruct (Hsh g layer d Hg Hl' Hd) as (_ & c & _ & Hc' & _). by rewrite Hnd in Hc'.
  - left. apply Hpe, Hp.
Qed.

(** A move of the map changes its viewport only. *)
Lemma inv_move (s : sys) (v : option viewport) : inv s -> inv (set_mv s (with_view (mv s) v)).
Proof. intros [Hc Hm Ht Hpg Hbg Hba Hl Hnd Hpe Hn Hsh Hsy Hun]. by constructor. Qed.

(** Every event keeps the invariant. *)
Lemma step_inv (s s' : sys) (ev : event) : inv s -> step s ev = Some s' -> inv s'.
Proof.
  intros Hinv. destruct ev; simpl.
  - case_match; [intros [= <-] | done]. by apply inv_render_places.
  - intros [= <-]. by apply inv_render_toggle.
  - case_match; [intros [= <-] | done]. by apply inv_render_admin.
  - case_match; [intros [= <-] | done]. by apply inv_render_style.
  - intros [= <-]. by apply inv_render_places.
  - intros [= <-]. by apply inv_render_reset.
  - destruct (load_pending s) eqn:Hp; [intros [= <-] | done]. by apply inv_finish_load.
  - case_match; [intros [= <-] | done]. by apply inv_move.
Qed.

(** The invariant holds from the first render on, by induction on the
    steps. *)
Lemma reach_inv (s : sys) : reachable s -> inv s.
Proof.
  induction 1 as [|s ev s' _ IH Hstep]; [apply inv_boot|].
  by apply (step_inv s s' ev).
Qed.

(** A run goes through its first step. *)
Lemma run_cons (s s1 : sys) (ev : event) (evs : list event) :
  step s ev = Some s1 -> run s (ev :: evs) = run s1 evs.
Proof. intros H. simpl. by rewrite H. Qed.

(** The states a run of events reaches from a reachable state are
    reachable. *)
Lemma run_reachable (s s' : sys) (evs : list event) :
  reachable s -> run s evs = Some s' -> reachable s'.
Proof.
  revert s. induction evs as [|ev evs IH]; simpl; intros s Hr.
  - by intros [= <-].
  - destruct (step s ev) as [s1|] eqn:Hs; [|done].
    apply IH. by apply (reach_step s ev s1).
Qed.


(** C1. Every state the viewer reaches satisfies the invariant: the map
    has exactly one tile layer, of the selected style; each layer group
    holds at most one GeoJSON layer; the boundaries group is on the map
    exactly when boundaries are shown; "none" draws and counts nothing;
    every drawn place is a loaded feature that the current filters select;
    nothing drawn is filled. *)
Theorem reachable_inv (s : sys) : reachable s -> inv s.
Proof. apply reach_inv. Qed.

(** ** What each event does *)

(** The render of a single-prop change runs the one effect that depends
    on it. *)
Lemma render_places_eq (s : sys) (u : props) :
  inv s -> showBoundaries u = showBoundaries (ui (app s)) ->
  adminLevel u = adminLevel (ui (app s)) -> mapStyle u = mapStyle (ui (app s)) ->
  placeFilter u <> placeFilter (ui (app s)) \/ searchTerm u <> searchTerm (ui (app s)) ->
  render s u = finalize (displayPlaces u (prepare s u)).
Proof.
  intros Hinv H1 H2 H3 Hch. rewrite render_eq, (inv_committed _ Hinv), flush_places by done.
  replace (changed _ _ || changed _ _) with true; [done|].
  symmetry. apply orb_true_iff. unfold changed.
  destruct Hch as [H|H]; [left|right]; apply negb_true_iff, String.eqb_neq; congruence.
Qed.

Lemma render_toggle_eq (s : sys) (u : props) :
  inv s -> placeFilter u = placeFilter (ui (app s)) -> searchTerm u = searchTerm (ui (app s)) ->
  adminLevel u = adminLevel (ui (app s)) -> mapStyle u = mapStyle (ui (app s)) ->
  showBoundaries u <> showBoundaries (ui (app s)) ->
  render s u = set_mv (prepare s u) (with_boundaries_on_map (mv s) (showBoundaries u)).
Proof.
  intros Hinv H1 H2 H3 H4 Hch. rewrite render_eq, (inv_committed _ Hinv), flush_toggle by done.
  replace (negb _) with true.
  - cbn [then_run]. rewrite toggle_done. simpl.
    destruct (inv_bounds_group _ Hinv) as (g0 & Hg0 & _).
    by rewrite (toggle_shape _ _ g0); [| apply Hinv | done].
  - by destruct (showBoundaries u), (showBoundaries (ui (app s))).
Qed.

Lemma render_admin_eq (s : sys) (u : props) :
  inv s -> placeFilter u = placeFilter (ui (app s)) -> searchTerm u = searchTerm (ui (app s)) ->
  showBoundaries u = showBoundaries (ui (app s)) -> mapStyle u = mapStyle (ui (app s)) ->
  adminLevel u <> adminLevel (ui (app s)) ->
  render s u = finalize (adminLevelEffect u (prepare s u)).
Proof.
  intros Hinv H1 H2 H3 H4 Hch. rewrite render_eq, (inv_committed _ Hinv), flush_admin by done.
  replace (changed _ _) with true; [done|].
  symmetry. apply negb_true_iff, String.eqb_neq. congruence.
Qed.

Lemma render_style_eq (s : sys) (u : props) :
  inv s -> placeFilter u = placeFilter (ui (app s)) -> searchTerm u = searchTerm (ui (app s)) ->
  showBoundaries u = showBoundaries (ui (app s)) -> adminLevel u = adminLevel (ui (app s)) ->
  mapStyle u <> mapStyle (ui (app s)) ->
  finalize (mapStyleEffect u (prepare s u)) = render s u.
Proof.
  intros Hinv H1 H2 H3 H4 Hch. rewrite render_eq, (inv_committed _ Hinv), flush_style by done.
  replace (changed _ _) with true; [done|].
  symmetry. apply negb_true_iff, String.eqb_neq. congruence.
Qed.

(** C9. Switching the basemap replaces the one tile layer by a layer of
    the selected style and changes nothing else of the map: the groups,
    their content, their attachment, the data and the counters stay. *)
Theorem basemap_switch (s s' : sys) (v : string) :
  reachable s -> step s (SetMapStyle v) = Some s' ->
  (exists t, map_tiles (mv s') = [t] /\ tileLayer (mv s') = Some t /\
             tile_url t = url (style_of v) /\ tile_attribution t = attribution (style_of v)) /\
  placesLayer (mv s') = placesLayer (mv s) /\ boundariesLayer (mv s') = boundariesLayer (mv s) /\
  boundaries_on_map (mv s') = boundaries_on_map (mv s) /\ data (mv s') = data (mv s) /\
  stats_of (app s') = stats_of (app s).
Proof.
  intros Hr. simpl. case_match; [intros [= <-]|done].
  pose proof (reach_inv s Hr) as Hinv.
  destruct (String.eqb_spec v (mapStyle (ui (app s)))) as [->|Hne].
  - rewrite render_same; [| done | by apply props_ext].
    destruct (inv_tile _ Hinv) as (t & Ht & Hts & Hu & Ha). eauto 10.
  - rewrite <- render_style_eq by done.
    destruct (inv_tile _ Hinv) as (t0 & Ht0 & Hts & _).
    rewrite mapStyleEffect_done. simpl.
    rewrite (mapStyleEffect_shape _ _ t0); [| apply Hinv | done | done].
    simpl. split; [by eexists|]. done.
Qed.

(** ** Drawing well-formed data *)

(** On drawable features, [L.geoJSON] of the places draws exactly the
    features that have a geometry, in order. *)
Lemma draw_places_ok (l : list feature) :
  Forall geometry_ok l ->
  exists layer, draw_places l = Ok layer /\
                List.map d_feature layer = List.filter has_geometry l.
Proof.
  induction l as [|f l IH]; intros Hok; simpl; [by exists []|].
  apply Forall_cons in Hok as [Hf Hl]. destruct (IH Hl) as (layer & Hd & Hm).
  rewrite (geometry_layer_ok f Hf). unfold has_geometry.
  destruct (geometry f) as [g|]; simpl; [|by eauto].
  destruct (place_popup_ok f) as [o ->]. rewrite Hd.
  eexists. split; [reflexivity|]. simpl. by rewrite Hm.
Qed.

Lemma draw_boundaries_ok (adminLevel : string) (fs : list feature) :
  Forall geometry_ok fs ->
  exists layer, draw_boundaries adminLevel fs = Ok layer /\
                List.map d_feature layer = List.filter has_geometry fs.
Proof.
  induction fs as [|f fs IH]; intros Hok; simpl; [by exists []|].
  apply Forall_cons in Hok as [Hf Hl]. destruct (IH Hl) as (layer & Hd & Hm).
  rewrite (geometry_layer_ok f Hf). unfold has_geometry.
  destruct (geometry f) as [g|]; simpl; [|by eauto].
  rewrite Hd. eexists. split; [reflexivity|]. simpl. by rewrite Hm.
Qed.

(** What the effects of a render leave alone: the props, the admin level
    of the [loadData] closure, the data, the pending load, the exceptions
    reported so far and the map's viewport. *)
Definition eff_frame (s s' : sys) : Prop :=
  ui (app s') = ui (app s) /\ closure_level s' = closure_level s /\
  data (mv s') = data (mv s) /\ load_pending s' = load_pending s /\ uncaught s' = uncaught s /\
  view (mv s') = view (mv s).

Lemma eff_frame_trans (s1 s2 s3 : sys) :
  eff_frame s1 s2 -> eff_frame s2 s3 -> eff_frame s1 s3.
Proof. unfold eff_frame. naive_solver congruence. Qed.

Lemma effects_frame (p : props) (s : sys) :
  eff_frame s (out (displayPlaces p s)) /\ eff_frame s (out (toggleBoundaries p s)) /\
  eff_frame s (out (adminLevelEffect p s)) /\ eff_frame s (out (mapStyleEffect p s)).
Proof.
  assert (Hdb : eff_frame s (out (displayBoundaries p s)))
    by (unfold displayBoundaries; repeat case_match; done).
  split_and!.
  - unfold displayPlaces. repeat case_match; done.
  - unfold toggleBoundaries. repeat case_match; done.
  - unfold adminLevelEffect. destruct (_ && _); [|done].
    destruct (displayBoundaries p s); simpl in *; [|done].
    destruct Hdb as (? & ? & ? & ? & ? & ?). unfold eff_frame. simpl. naive_solver.
  - unfold mapStyleEffect. repeat case_match; done.
Qed.

Lemma then_run_frame (b : bool) (eff : props -> sys -> outcome) (p : props) (o : outcome) :
  (forall s, eff_frame s (out (eff p s))) -> eff_frame (out o) (out (then_run b eff p o)).
Proof. intros H. destruct o, b; simpl; try apply H; done. Qed.

Lemma flush_frame (s : sys) (u : props) :
  eff_frame (prepare s u) (out (flush false (committed s) u (prepare s u))).
Proof.
  rewrite flush_eq. rewrite then_run_false.
  repeat (eapply eff_frame_trans; [|apply then_run_frame; intros; apply effects_frame]).
  done.
Qed.

(** A render puts the new props in the App state and leaves the closure's
    level, the data and the pending load as they were. *)
Lemma render_frame (s : sys) (u : props) :
  ui (app (render s u)) = u /\ closure_level (render s u) = closure_level s /\
  data (mv (render s u)) = data (mv s) /\ load_pending (render s u) = load_pending s.
Proof.
  rewrite render_eq. destruct (finalize_out (flush false (committed s) u (prepare s u)))
    as (-> & -> & _ & -> & ->).
  pose proof (flush_frame s u) as H.
  destruct H as (-> & -> & -> & -> & _). done.
Qed.

(** No render moves the map: the effects never touch the viewport. *)
Lemma render_view (s : sys) (u : props) : view (mv (render s u)) = view (mv s).
Proof.
  rewrite render_eq. rewrite (proj1 (proj2 (finalize_out _))).
  pose proof (flush_frame s u) as H.
  apply H.
Qed.

Lemma render_ui (s : sys) (u : props) : ui (app (render s u)) = u.
Proof. apply render_frame. Qed.

Lemma displayPlaces_loaded (p : props) (s : sys) (g0 : list geojson_layer) (c : collection)
    (fs l : list feature) (layer : geojson_layer) :
  placesLayer (mv s) = Some g0 -> placeFilter p <> "none" ->
  data_to_use (data (mv s)) = Some c -> features c = Some fs ->
  filterFeatures (placeFilter p) (searchTerm p) fs = Ok l -> draw_places l = Ok layer ->
  displayPlaces p s =
  Done (update_stats (set_mv s (with_places (mv s) (Some [layer]))) (set_visible (List.length l))).
Proof.
  intros Hg Hn Hc Hfs Hl Hd. unfold displayPlaces.
  by rewrite Hg, (proj2 (String.eqb_neq _ _) Hn), Hc, Hfs, Hl, Hd.
Qed.

(** A render that changes the place filter or the search text, on loaded
    well-formed data, draws the selection. *)
Lemma render_places_drawn (s : sys) (u : props) (c : collection) (fs : list feature) :
  inv s -> showBoundaries u = showBoundaries (ui (app s)) ->
  adminLevel u = adminLevel (ui (app s)) -> mapStyle u = mapStyle (ui (app s)) ->
  placeFilter u <> placeFilter (ui (app s)) \/ searchTerm u <> searchTerm (ui (app s)) ->
  data_to_use (data (mv s)) = Some c -> features c = Some fs ->
  Forall (fun f => name_ok f /\ geometry_ok f) fs -> placeFilter u <> "none" ->
  let sel := List.filter (fun f => bool_decide (shown (placeFilter u) (searchTerm u) f)) fs in
  exists layer, placesLayer (mv (render s u)) = Some [layer] /\
                List.map d_feature layer = List.filter has_geometry sel /\
                visible (stats_of (app (render s u))) = List.length sel.
Proof.
  intros Hinv H1 H2 H3 Hch Hc Hfs Hwf Hnone sel.
  destruct (inv_places_group _ Hinv) as (g0 & Hg0 & _).
  destruct (draw_places_ok sel) as (layer & Hd & Hm).
  { apply List.Forall_forall. intros f Hf. apply filter_In in Hf as [Hf _].
    rewrite List.Forall_forall in Hwf. apply Hwf, Hf. }
  rewrite render_places_eq by done.
  rewrite (displayPlaces_loaded u (prepare s u) g0 c fs sel layer); try done.
  - simpl. eauto.
  - apply (contract_spec filterFeatures). eapply Forall_impl; [exact Hwf|]. by intros f [].
Qed.

(** C4. After the place filter or the search text changes (to a filter
    other than "none"), once the data are loaded and well formed, the
    places group holds one layer that draws exactly the features of the
    data in use that satisfy [shown] and have a geometry, in the order of
    the collection, and [visible] counts the features that satisfy
    [shown]. *)
Theorem places_redraw (s s' : sys) (ev : event) (c : collection) (fs : list feature) :
  reachable s -> data_to_use (data (mv s)) = Some c -> features c = Some fs ->
  Forall (fun f => name_ok f /\ geometry_ok f) fs ->
  (exists v, ev = SetPlaceFilter v /\ v <> placeFilter (ui (app s))) \/
  (exists v, ev = SetSearchTerm v /\ v <> searchTerm (ui (app s))) ->
  step s ev = Some s' -> placeFilter (ui (app s')) <> "none" ->
  let sel := List.filter (fun f => bool_decide (shown (placeFilter (ui (app s')))
                                                    (searchTerm (ui (app s'))) f)) fs in
  exists layer, placesLayer (mv s') = Some [layer] /\
                List.map d_feature layer = List.filter has_geometry sel /\
                visible (stats_of (app s')) = List.length sel.
Proof.
  intros Hr Hc Hfs Hwf Hev Hstep Hnone sel.
  assert (exists u, s' = render s u /\ showBoundaries u = showBoundaries (ui (app s)) /\
                    adminLevel u = adminLevel (ui (app s)) /\ mapStyle u = mapStyle (ui (app s)) /\
                    (placeFilter u <> placeFilter (ui (app s)) \/
                     searchTerm u <> searchTerm (ui (app s))))
    as (u & -> & H1 & H2 & H3 & Hch).
  { destruct Hev as [(v & -> & Hv)|(v & -> & Hv)].
    - unfold step in Hstep. destruct (bool_decide _); [|done].
      injection Hstep as <-. eexists. split; [done|]. simpl. eauto 10.
    - unfold step in Hstep. injection Hstep as <-.
      eexists. split; [done|]. simpl. eauto 10. }
  unfold sel in *. clear sel. rewrite render_ui in Hnone |- *.
  by apply (render_places_drawn s u c fs (reach_inv s Hr)).
Qed.

Lemma adminLevelEffect_loaded (p : props) (s : sys) (g0 : list geojson_layer) (c : collection)
    (fs : list feature) (layer : geojson_layer) :
  boundariesLayer (mv s) = Some g0 -> showBoundaries p = true ->
  adminData (data (mv s)) !! adminLevel p = Some c -> features c = Some fs ->
  draw_boundaries (adminLevel p) fs = Ok layer ->
  adminLevelEffect p s =
  Done (update_stats (set_mv s (with_boundaries (mv s) (Some [layer])))
                     (set_boundaries (List.length fs))).
Proof.
  intros Hg Hsb Hc Hfs Hd. unfold adminLevelEffect, displayBoundaries.
  rewrite Hsb, Hc, bool_decide_eq_true_2 by done. simpl.
  unfold getCurrentBoundaryData. rewrite Hg, Hc, Hfs, Hd. simpl. by rewrite Hc, Hfs.
Qed.

(** A render that changes only the admin level, while boundaries are
    shown, draws the level's collection. *)
Lemma render_admin_drawn (s : sys) (v : string) (c : collection) (fs : list feature) :
  inv s -> showBoundaries (ui (app s)) = true -> v <> adminLevel (ui (app s)) ->
  adminData (data (mv s)) !! v = Some c -> features c = Some fs -> Forall geometry_ok fs ->
  let s' := render s (Props (placeFilter (ui (app s))) true v (searchTerm (ui (app s)))
                            (mapStyle (ui (app s)))) in
  exists layer, boundariesLayer (mv s') = Some [layer] /\
                List.map d_feature layer = List.filter has_geometry fs /\
                (forall d, In d layer -> d_style d = admin_style v) /\
                boundaries_on_map (mv s') = true /\
                boundaries (stats_of (app s')) = List.length fs.
Proof.
  intros Hinv Hsb Hv Hc Hfs Hwf s'. unfold s'. clear s'.
  rewrite render_admin_eq by (simpl; done).
  destruct (inv_bounds_group _ Hinv) as (g0 & Hg0 & _).
  destruct (draw_boundaries_ok v fs Hwf) as (layer & Hd & Hm).
  rewrite (adminLevelEffect_loaded _ _ g0 c fs layer); try done.
  simpl. exists layer. split; [done|]. split; [done|].
  split; [intros d Hin; by destruct (draw_boundaries_sound _ _ _ Hd d Hin)|].
  split; [|done]. by rewrite (inv_bounds_attached _ Hinv).
Qed.

(** C8. Choosing another admin level while boundaries are shown redraws
    the boundaries group: it holds one layer that draws exactly the
    features of that level's collection that have a geometry, in the
    level's style, and the boundary count becomes the size of the
    collection. *)
Theorem admin_redraw (s s' : sys) (v : string) (c : collection) (fs : list feature) :
  reachable s -> v <> adminLevel (ui (app s)) ->
  adminData (data (mv s)) !! v = Some c -> features c = Some fs -> Forall geometry_ok fs ->
  step s (SetAdminLevel v) = Some s' ->
  exists layer, boundariesLayer (mv s') = Some [layer] /\
                List.map d_feature layer = List.filter has_geometry fs /\
                (forall d, In d layer -> d_style d = admin_style v) /\
                boundaries_on_map (mv s') = true /\
                boundaries (stats_of (app s')) = List.length fs.
Proof.
  intros Hr Hv Hc Hfs Hwf. simpl.
  destruct (showBoundaries (ui (app s))) eqn:Hsb; [|done].
  destruct (bool_decide _); [|done]. intros [= <-].
  by apply (render_admin_drawn s v c fs (reach_inv s Hr)).
Qed.

(** C7. Reset, from any reachable state: the props are the defaults, the
    places group is empty and [visible] is 0, the boundaries group is
    detached, and the one tile layer is OpenStreetMap's.  The content of
    the boundaries group and the boundary count are kept as they were. *)
Theorem reset_spec (s : sys) :
  reachable s ->
  exists s', step s ResetView = Some s' /\
    ui (app s') = default_props /\ placesLayer (mv s') = Some [] /\
    visible (stats_of (app s')) = 0 /\ boundaries_on_map (mv s') = false /\
    boundariesLayer (mv s') = boundariesLayer (mv s) /\
    boundaries (stats_of (app s')) = boundaries (stats_of (app s)) /\
    exists t, map_tiles (mv s') = [t] /\ tile_url t = url osm.
Proof.
  intros Hr. pose proof (reach_inv s Hr) as Hinv.
  eexists. split; [reflexivity|]. rewrite render_eq, (inv_committed _ Hinv).
  destruct (reset_flush s Hinv) as (s4 & -> & Hu & _ & Hv & _ & Hb & _ & _ & _ & _ &
                                    _ & _ & Hp & Hbl & Hba & _ & t & _ & Ht & Hurl & _).
  simpl. eauto 20.
Qed.

(** ** What the code leaves undrawn *)

Lemma toggle_step (s s' : sys) (b : bool) :
  reachable s -> step s (SetShowBoundaries b) = Some s' ->
  boundaries_on_map (mv s') = b /\ showBoundaries (ui (app s')) = b /\
  boundariesLayer (mv s') = boundariesLayer (mv s) /\
  placesLayer (mv s') = placesLayer (mv s) /\ stats_of (app s') = stats_of (app s).
Proof.
  intros Hr. pose proof (reach_inv s Hr) as Hinv. simpl. intros [= <-].
  destruct (Bool.eqb_spec b (showBoundaries (ui (app s)))) as [->|Hne].
  - rewrite render_same; [| done | by apply props_ext].
    by rewrite (inv_bounds_attached _ Hinv).
  - rewrite render_toggle_eq by (simpl; done). done.
Qed.

(** C13. Toggling the boundaries rapidly leaks nothing (spec, section
    4.4): after any run of show/hide events, however long, both groups
    hold exactly what they held before, the counters are unchanged, and
    the boundaries group is on the map exactly when the checkbox is
    checked. *)
Theorem rapid_toggle (s s' : sys) (evs : list event) :
  reachable s -> Forall (fun ev => exists b, ev = SetShowBoundaries b) evs ->
  run s evs = Some s' ->
  boundariesLayer (mv s') = boundariesLayer (mv s) /\
  placesLayer (mv s') = placesLayer (mv s) /\ stats_of (app s') = stats_of (app s) /\
  boundaries_on_map (mv s') = showBoundaries (ui (app s')).
Proof.
  induction evs as [|ev evs IH] in s |- *; intros Hr Hf.
  - intros [= <-]. split_and!; try done. apply (inv_bounds_attached _ (reach_inv s Hr)).
  - apply Forall_cons in Hf as [[b ->] Hrest].
    destruct (step s (SetShowBoundaries b)) as [s1|] eqn:Hs; [|done].
    rewrite (run_cons _ _ _ _ Hs). intros Hrun.
    destruct (toggle_step s s1 b Hr Hs) as (_ & _ & Hb & Hp & Hst).
    destruct (IH s1 (reach_step _ _ _ Hr Hs) Hrest Hrun) as (Hb' & Hp' & Hst' & Hon).
    rewrite Hb', Hp', Hst'. done.
Qed.

(** C14. The completion of [loadData] draws nothing: whatever filter, text
    or boundary display was chosen while the data were loading, both
    groups are empty after the load, and stay so until one of the
    drawing props changes. *)
Theorem load_draws_nothing (s s' : sys) (order : list nat) (fx : fetches) :
  reachable s -> step s (LoadComplete order fx) = Some s' ->
  ui (app s') = ui (app s) /\ load_pending s' = false /\
  placesLayer (mv s') = Some [] /\ boundariesLayer (mv s') = Some [] /\
  boundaries_on_map (mv s') = showBoundaries (ui (app s')).
Proof.
  intros Hr. pose proof (reach_inv s Hr) as Hinv. simpl.
  destruct (load_pending s) eqn:Hp; [intros [= <-]|done].
  destruct (inv_pending_empty _ Hinv Hp) as [Hpl Hbl].
  unfold finish_load. simpl. rewrite Hpl, Hbl.
  repeat split; apply (inv_bounds_attached _ Hinv).
Qed.

(** Once the load has completed, an event keeps the data and the load
    done: the completion of a second load is refused, every other event
    leaves the refs alone. *)
Lemma step_loaded (s s' : sys) (ev : event) :
  load_pending s = false -> step s ev = Some s' ->
  load_pending s' = false /\ data (mv s') = data (mv s).
Proof.
  intros Hp. destruct ev; simpl; rewrite ?Hp; repeat case_match; intros; simplify_eq;
    try (match goal with |- context [render s ?u] =>
           destruct (render_frame s u) as (_ & _ & -> & ->) end); done.
Qed.

(** C24. The data are loaded once: after [loadData] has completed, no run
    of events reloads or changes the loaded data, and the loading
    indicator never comes back. *)
Theorem load_once (s s' : sys) (evs : list event) :
  reachable s -> load_pending s = false -> run s evs = Some s' ->
  load_pending s' = false /\ loading (app s') = false /\ data (mv s') = data (mv s).
Proof.
  intros Hr Hp Hrun.
  assert (load_pending s' = false /\ data (mv s') = data (mv s)) as [Hp' Hd].
  { clear Hr. induction evs as [|ev evs IH] in s, Hp, Hrun |- *; [by injection Hrun as <-|].
    simpl in Hrun. destruct (step s ev) as [s1|] eqn:Hs; [|done].
    destruct (step_loaded s s1 ev Hp Hs) as [Hp1 Hd1].
    destruct (IH s1 Hp1 Hrun) as [? ?]. split; congruence. }
  split_and!; [done| |done].
  rewrite (inv_loading _ (reach_inv s' (run_reachable _ _ _ Hr Hrun))). done.
Qed.

End Viewer.
