(* ===== verification/Navigation.v ===== *)
(** * The map's viewport

    [L.map(...).setView([15.5007, 32.5599], 6)] (MapView.jsx 51) centres
    the map on Khartoum at zoom 6 when it mounts; afterwards only the user
    moves it, by dragging or zooming ([MapView.MoveMap]).  No handler of
    the viewer calls [setView], [panTo] or [fitBounds] again.

    This file states what the spec promises of the viewport (section 4.4:
    a basemap switch preserves the viewport position and zoom) as
    [spec_view], the viewport after an event, and shows that every step
    of the model moves the map exactly as [spec_view] says
    ([view_refine]): the controls, the reset button and the completion of
    the load included.  So the map stays where the user left it through
    a reset ([reset_keeps_view]). *)

From S2P Require Import Prelude JsValue GeoJson Filter Style Loader MapView Viewer.
From stdpp Require Import gmap.

Open Scope string_scope.

Module Navigation.
Import Loader MapView Viewer.

(** The viewport after an event: the one the user moved the map to, or
    the one before. *)
Definition spec_view (before : option viewport) (ev : event) : option viewport :=
  match ev with
  | MoveMap v => Some v
  | _ => before
  end.

(** The viewport [setView] gives the map when it mounts. *)
Definition mount_view : option viewport := Some initial_view.

Lemma finish_load_view (s : sys) (order : list nat) (fx : fetches) :
  view (mv (finish_load s order fx)) = view (mv s).
Proof. reflexivity. Qed.

Lemma step_view (s s' : sys) (ev : event) :
  step s ev = Some s' -> view (mv s') = spec_view (view (mv s)) ev.
Proof.
  destruct ev; simpl; repeat case_match; intros; simplify_eq;
    rewrite ?render_view; done.
Qed.

Lemma boot_view : view (mv boot) = mount_view.
Proof. reflexivity. Qed.

(** C10. Refinement of the spec's viewport: every event moves the map to
    the viewport [spec_view] gives, the one the user moved it to for a
    drag or zoom and the one before for every other event (a change of
    the controls, a basemap switch, the reset button, the completion of
    the load).  The map mounts at Khartoum, zoom 6 ([boot_view]). *)
Theorem view_refine (s s' : sys) (ev : event) :
  step s ev = Some s' -> view (mv s') = spec_view (view (mv s)) ev.
Proof. apply step_view. Qed.

(** The reset button does not move the map back: a run of events
    that has no drag or zoom leaves the viewport where it was, after
    [ResetView] as after any other event. *)
Theorem reset_keeps_view (s s' : sys) (evs : list event) :
  Forall (fun ev => match ev with MoveMap _ => False | _ => True end) evs ->
  run s evs = Some s' -> view (mv s') = view (mv s).
Proof.
  induction evs as [|ev evs IH] in s |- *; intros Hf; [by intros [= <-]|].
  inversion Hf as [|? ? Hev Hrest]; subst.
  simpl. destruct (step s ev) as [s1|] eqn:Hs; [|done].
  intros Hr. rewrite (IH s1 Hrest Hr), (step_view _ _ _ Hs).
  by destruct ev.
Qed.

End Navigation.
