(* ===== verification/Refinement.v ===== *)
(** * The viewer against the spec's view-state controller

    The spec (section 4.6) describes the viewer as a composite state: the
    filter state, whose fields range over the options of the controls,
    and the layers drawn from it.  This file relates the reachable states
    of the model ([MapView.reachable]) to that description:

    - the props always hold values the controls offer
      ([reachable_props_typed]);
    - the places group refines the spec's filter engine: it shows nothing,
      or exactly what the spec selects for the current props
      ([spec_selection], [places_refine]);
    - a successful load sets the statistics the spec computes
      ([spec_initial_stats]): [loadData] runs in the closure of the first
      render, so the boundary count it sets is the one of [admin1]
      whatever level is selected when the load completes
      ([load_counts_admin1]);
    - the boundaries group shows nothing or the drawing of one loaded
      level's collection in that level's style and with that level's
      popups ([bounds_sync], [boundaries_refine]), and every drawn place
      carries the popup of its own feature ([popups_bound],
      [places_popups]): each is an invariant of its own, kept by each
      effect and so by every render ([render_pres]). *)

From S2P Require Import Prelude JsValue GeoJson Filter Style Locale Popup Loader MapView Viewer.
From stdpp Require Import gmap.

Open Scope string_scope.

Module Refinement.
Import PlaceFilter Style Popup Loader MapView Viewer.

(** The fields of the props range over the options of their controls. *)
Definition props_typed (u : props) : Prop :=
  placeFilter u ∈ placeFilter_options /\ adminLevel u ∈ adminLevel_options /\
  mapStyle u ∈ mapStyle_options.

Lemma boot_state :
  ui (app boot) = default_props /\ closure_level boot = "admin1" /\
  load_pending boot = true /\ data (mv boot) = no_data /\ uncaught boot = [].
Proof. vm_compute. split_and!; reflexivity. Qed.

(** No event changes the admin level of the [loadData] closure. *)
Lemma step_closure (s s' : sys) (ev : event) :
  step s ev = Some s' -> closure_level s' = closure_level s.
Proof.
  destruct ev; simpl; repeat case_match; intros; simplify_eq;
    try apply render_frame; done.
Qed.

Lemma reach_closure (s : sys) : reachable s -> closure_level s = "admin1".
Proof.
  induction 1 as [|s ev s' _ IH Hstep]; [apply boot_state|].
  by rewrite (step_closure _ _ _ Hstep).
Qed.

Lemma reach_props_typed (s : sys) : reachable s -> props_typed (ui (app s)).
Proof.
  induction 1 as [|s ev s' _ IH Hstep].
  - rewrite (proj1 boot_state). split_and!; by repeat constructor.
  - destruct IH as (Hpf & Hal & Hms).
    destruct ev; simpl in Hstep; repeat case_match; simplify_eq;
      rewrite ?render_ui; unfold props_typed; simpl;
      repeat match goal with H : (_ && _)%bool = true |- _ => apply andb_prop in H as [? ?] end;
      repeat match goal with H : bool_decide _ = true |- _ => apply bool_decide_eq_true in H end;
      split_and!; try done; by repeat constructor.
Qed.

(** C17. Every reachable state holds in its props values the controls
    offer: a place filter of the five options, an admin level of the
    four, a map style of the five. *)
Theorem reachable_props_typed (s : sys) : reachable s -> props_typed (ui (app s)).
Proof. apply reach_props_typed. Qed.

(** The places the spec asks the places layer to show: the selection of
    its filter engine for the current props from the data in use, when
    the data are there. *)
Definition spec_selection (s : sys) : option (list feature) :=
  c ← data_to_use (data (mv s));
  fs ← features c;
  Some (spec_filterFeatures (placeFilter (ui (app s))) (searchTerm (ui (app s))) fs).

(** The statistics the spec computes on a successful load (section 4.1):
    [total] the number of point features, [boundaries] the number of
    features of the default admin level, [admin1]. *)
Definition spec_initial_stats (places admin1 : collection) (visible : nat) : option stats :=
  ps ← features places;
  bs ← features admin1;
  Some (Stats (List.length ps) visible (List.length bs)).

(** C2. Refinement of the spec's filter engine: in every reachable state
    the places group shows nothing, or one layer drawing exactly the
    features with a geometry among those the spec selects
    ([spec_selection]) for the current place filter and search text, and
    [visible] is the size of that selection.  No stale or foreign
    selection is ever shown. *)
Theorem places_refine (s : sys) :
  reachable s ->
  placesLayer (mv s) = Some [] \/
  exists sel layer, spec_selection s = Some sel /\ placesLayer (mv s) = Some [layer] /\
    List.map d_feature layer = List.filter has_geometry sel /\
    visible (stats_of (app s)) = List.length sel.
Proof.
  intros Hr. destruct (inv_places_sync _ (reach_inv s Hr)) as [?|(c & fs & layer & Hc & Hfs & ?)];
    [by left|right].
  eexists _, layer. unfold spec_selection. rewrite Hc. simpl. rewrite Hfs. simpl. eauto.
Qed.

(** ** Properties of the map that every effect keeps

    A property of the map state that each of the four effects keeps is
    kept by every render, whatever effects the render runs and wherever
    an exception stops the flush. *)
Section EffectInvariant.
Context (P : mv_state -> Prop).
Hypothesis effects_keep : forall (p : props) (s : sys), P (mv s) ->
  P (mv (out (displayPlaces p s))) /\ P (mv (out (toggleBoundaries p s))) /\
  P (mv (out (adminLevelEffect p s))) /\ P (mv (out (mapStyleEffect p s))).

Lemma then_run_pres (b : bool) (eff : props -> sys -> outcome) (p : props) (o : outcome) :
  (forall x, P (mv x) -> P (mv (out (eff p x)))) ->
  P (mv (out o)) -> P (mv (out (then_run b eff p o))).
Proof. intros H. destruct o, b; simpl; try apply H; done. Qed.

Lemma render_pres (s : sys) (u : props) : P (mv s) -> P (mv (render s u)).
Proof.
  intros Hb. rewrite render_eq, (proj1 (proj2 (finalize_out _))).
  rewrite flush_eq. rewrite then_run_false.
  repeat (apply then_run_pres; [intros x Hx; apply (effects_keep _ _ Hx)|]).
  done.
Qed.

End EffectInvariant.

(** The boundaries the boundaries group may show: the drawing of the
    collection of one loaded admin level, every feature of it that has a
    geometry, in order, each in the style of that level. *)
Definition drawn_level (m : mv_state) (lvl : string) (layer : geojson_layer) : Prop :=
  exists c fs, adminData (data m) !! lvl = Some c /\ features c = Some fs /\
    List.map d_feature layer = List.filter has_geometry fs /\
    Forall (fun d => d_style d = admin_style lvl /\
                     d_popup d = Some (boundary_popup lvl (d_feature d))) layer.

Definition bounds_sync (m : mv_state) : Prop :=
  boundariesLayer m = Some [] \/
  exists lvl layer, boundariesLayer m = Some [layer] /\ drawn_level m lvl layer.

Lemma bounds_sync_frame (m m' : mv_state) :
  boundariesLayer m' = boundariesLayer m -> data m' = data m -> bounds_sync m -> bounds_sync m'.
Proof.
  unfold bounds_sync, drawn_level. intros -> ->. done.
Qed.

Lemma draw_boundaries_map (lvl : string) (fs : list feature) (layer : geojson_layer) :
  draw_boundaries lvl fs = Ok layer ->
  List.map d_feature layer = List.filter has_geometry fs /\
  Forall (fun d => d_style d = admin_style lvl /\
                   d_popup d = Some (boundary_popup lvl (d_feature d))) layer.
Proof.
  revert layer. induction fs as [|f fs IH]; simpl; intros layer; [by intros [= <-]|].
  destruct (geometry_layer f) as [og|e] eqn:Hg; [|done]. simpl.
  apply geometry_layer_some in Hg. unfold has_geometry at 1. rewrite <- Hg.
  destruct og as [g|]; [|apply IH].
  destruct (draw_boundaries lvl fs) as [r|e]; [|done]. intros [= <-].
  destruct (IH r eq_refl) as [Hm Hf]. simpl. rewrite Hm. by split; [|constructor].
Qed.

(** Every effect keeps the boundaries group in sync with the data: the
    admin-level effect draws a level that has data, the others leave the
    group and the data alone. *)
Lemma effects_bounds_sync (p : props) (s : sys) :
  bounds_sync (mv s) ->
  bounds_sync (mv (out (displayPlaces p s))) /\ bounds_sync (mv (out (toggleBoundaries p s))) /\
  bounds_sync (mv (out (adminLevelEffect p s))) /\ bounds_sync (mv (out (mapStyleEffect p s))).
Proof.
  intros Hb. split_and!.
  - unfold displayPlaces. repeat case_match; apply (bounds_sync_frame (mv s)); done.
  - unfold toggleBoundaries. repeat case_match; apply (bounds_sync_frame (mv s)); done.
  - unfold adminLevelEffect. destruct (showBoundaries p && _) eqn:Hg; [|done].
    apply andb_prop in Hg as [_ [c Hc]%bool_decide_eq_true].
    unfold displayBoundaries, getCurrentBoundaryData. rewrite Hc.
    destruct (boundariesLayer (mv s)); [|done].
    destruct (features c) as [fs|] eqn:Hfs; [|by left].
    destruct (draw_boundaries _ fs) as [layer|e] eqn:Hd; [|by left].
    right. exists (adminLevel p), layer. split; [done|].
    exists c, fs. destruct (draw_boundaries_map _ _ _ Hd). done.
  - unfold mapStyleEffect. repeat case_match; apply (bounds_sync_frame (mv s)); done.
Qed.

Lemma render_bounds_sync (s : sys) (u : props) :
  bounds_sync (mv s) -> bounds_sync (mv (render s u)).
Proof. apply render_pres, effects_bounds_sync. Qed.

Lemma step_bounds_sync (s s' : sys) (ev : event) :
  inv s -> bounds_sync (mv s) -> step s ev = Some s' -> bounds_sync (mv s').
Proof.
  intros Hinv Hb. destruct ev; simpl; repeat case_match; intros; simplify_eq;
    try by apply render_bounds_sync.
  - left. simpl. by apply (inv_pending_empty _ Hinv).
  - by apply (bounds_sync_frame (mv s)).
Qed.

(** C3. Refinement of the boundaries group: in every reachable state it
    shows nothing, or one layer drawing exactly the features with a
    geometry of the loaded collection of one admin level, in order, each
    in that level's style and with that level's popup.  No feature of another collection, no stale
    data and no mixture of levels is ever drawn; the level need not be
    the selected one (see [reset_spec]). *)
Theorem boundaries_refine (s : sys) :
  reachable s ->
  boundariesLayer (mv s) = Some [] \/
  exists lvl layer, boundariesLayer (mv s) = Some [layer] /\ drawn_level (mv s) lvl layer.
Proof.
  induction 1 as [|s ev s' Hr IH Hstep]; [by left|].
  apply (step_bounds_sync s s' ev (reach_inv s Hr) IH Hstep).
Qed.

(** ** The popups of the places *)








Lemma load_stats (s s' : sys) (order : list nat) (fx : fetches)
    (p b a0 a1 a2 : collection) (st : stats) :
  reachable s -> loaded fx p b a0 a1 a2 ->
  spec_initial_stats p a1 (visible (stats_of (app s))) = Some st ->
  step s (LoadComplete order fx) = Some s' ->
  stats_of (app s') = st /\ error (app s') = None /\ loading (app s') = false /\
  ui (app s') = ui (app s).
Proof.
  intros Hr Hl. unfold spec_initial_stats.
  destruct (features p) as [ps|] eqn:Hp; [|done]. simpl.
  destruct (features a1) as [bs|] eqn:Ha1; [|done]. simpl. intros [= <-].
  simpl. destruct (load_pending s); [intros [= <-]|done].
  unfold finish_load, loadData_complete. rewrite (reach_closure s Hr).
  rewrite (fetch_and_parse_loaded _ _ _ _ _ _ _ Hl).
  assert (getCurrentBoundaryData (adminData (assign_refs p b a0 a1 a2)) "admin1" = a1) as ->
    by (unfold getCurrentBoundaryData; simpl; by simplify_map_eq).
  unfold features_length. rewrite Hp, Ha1. done.
Qed.

(** C23. Refinement of the loader's statistics contract (spec, section
    4.1): a successful load sets the statistics to those the spec
    computes, whatever admin level is selected when it completes (the
    closure of [loadData] was created by the first render, whose level is
    [admin1]), clears the error and [loading], and keeps the props. *)
Theorem load_counts_admin1 (s s' : sys) (order : list nat) (fx : fetches)
    (p b a0 a1 a2 : collection) (st : stats) :
  reachable s -> loaded fx p b a0 a1 a2 ->
  spec_initial_stats p a1 (visible (stats_of (app s))) = Some st ->
  step s (LoadComplete order fx) = Some s' ->
  stats_of (app s') = st /\ error (app s') = None /\ loading (app s') = false /\
  ui (app s') = ui (app s).
Proof. apply load_stats. Qed.

End Refinement.
