(* ===== verification/Page.v ===== *)
(** * The page: Header, Controls, Legend and the App layout

    [App] (app.jsx 8-66) renders, in this order, the [Header], the
    [Controls] bound to its five pieces of state, and in the map container
    the [MapView], the [Stats] panel and the [Legend].  [Header] and
    [Legend] take no props and render fixed text; [Controls] renders the
    props as the values of three selects, a checkbox and a text box;
    [MapView] renders the container of the map ([map_container_id]).  The
    markup, classes and icons are not modelled; the texts and the values
    the user sees and picks from are.

    A select is controlled: Preact sets its [value] to the prop.  The
    user picks only one of its options, and only when it is enabled
    ([offers]); the admin-level select is disabled while boundaries are
    hidden (Controls.jsx 55).

    Theorem: the panel follows the load from the loading text to the
    counts or the error ([page_load_lifecycle]). *)

From S2P Require Import Prelude JsValue GeoJson Filter Style Locale Loader Stats MapView Viewer Refinement.
From stdpp Require Import gmap.

Open Scope string_scope.

Module Page.
Import Style Loader StatsPanel MapView Viewer Refinement.

(** ** Header.jsx *)

Record header_view := HeaderView {
  title_english : string;        (* h1 *)
  subtitle_english : string;
  title_arabic : string;         (* h2 *)
  subtitle_arabic : string
}.

(** Header.jsx 1-18. *)
Definition Header : header_view :=
  HeaderView "Sudan Geographic Data"
    "Interactive map of populated places and administrative boundaries"
    "البيانات الجغرافية للسودان"
    "خريطة تفاعلية للأماكن المأهولة والحدود الإدارية".

(** ** Controls.jsx *)

(** A select: its id, the text of its label, the value Preact sets on
    it, its [disabled] attribute and its options (value, text). *)
Record select_view := SelectView {
  sel_id : string;
  sel_label : string;
  sel_value : string;
  sel_disabled : bool;
  sel_options : list (string * string)
}.

(** Controls.jsx 26-30, 57-60 and 74-78. *)
Definition place_options : list (string * string) :=
  [("none", "None / لا شيء"); ("all", "All Places / جميع الأماكن");
   ("city", "Cities Only / المدن فقط"); ("town", "Towns Only / البلدات فقط");
   ("village", "Villages Only / القرى فقط")].

Definition admin_options : list (string * string) :=
  [("admin0", "Country / البلد"); ("admin1", "States / الولايات");
   ("admin2", "Localities / المحليات");
   ("populated_places", "City/Town Boundaries / حدود المدن والبلدات")].

Definition style_options : list (string * string) :=
  [("openstreetmap", "OpenStreetMap"); ("satellite", "Satellite / الأقمار الصناعية");
   ("terrain", "Terrain / التضاريس"); ("dark", "Dark Mode / الوضع المظلم");
   ("light", "Light Mode / الوضع المضيء")].

Record controls_view := ControlsView {
  place_select : select_view;
  boundaries_checked : bool;
  boundaries_label : string;
  admin_select : select_view;
  style_select : select_view;
  search_label : string;
  search_value : string;
  search_placeholder : string;
  reset_label : string
}.

(** Controls.jsx 1-104: the controls rendered for the props. *)
Definition Controls (u : props) : controls_view :=
  ControlsView
    (SelectView "placeFilter" "Show Places / عرض الأماكن:" (placeFilter u) false place_options)
    (showBoundaries u) "Show Boundaries / عرض الحدود"
    (SelectView "adminLevel" "Admin Level / المستوى الإداري:" (adminLevel u)
       (negb (showBoundaries u)) admin_options)
    (SelectView "mapStyle" "Map Style / نمط الخريطة:" (mapStyle u) false style_options)
    "Search / البحث:" (searchTerm u) "Enter place name... / أدخل اسم المكان..."
    "Reset View / إعادة تعيين".

(** The user can pick [v] from the select: it is enabled and has an
    option of value [v]. *)
Definition offers (sv : select_view) (v : string) : bool :=
  negb (sel_disabled sv) && existsb (String.eqb v) (List.map fst (sel_options sv)).

(** ** Legend.jsx *)

Record legend_view := LegendView {
  legend_title : string;
  places_heading : string;
  places_items : list legend_item;
  boundaries_heading : string;
  boundaries_items : list legend_item
}.

(** Legend.jsx 1-46. *)
Definition Legend : legend_view :=
  LegendView "Legend / وسيلة الإيضاح" "Places / الأماكن:" legend_places
             "Boundaries / الحدود:" legend_boundaries.

(** ** The page *)

Record page_view := PageView {
  page_header : header_view;
  page_controls : controls_view;
  page_map : string;              (* the id of MapView's container *)
  page_stats : stats_view;
  page_legend : legend_view
}.

(** app.jsx 8 and 26-66: the page App renders from its state; MapView
    renders its container, and the map in it is the [MapView] state of
    [s]. *)
Definition App (s : sys) : page_view :=
  let a := app s in
  PageView Header (Controls (ui a)) map_container_id (Stats (stats_of a) (loading a) (error a))
           Legend.

(** ** Properties *)

(** C25. The load as the page shows it: while [loadData] is pending the
    panel shows the loading text for the total and the boundary count;
    when it completes the loading indicator goes off and the panel shows
    the number of point features and of [admin1] features after a
    successful load, and the error text with the message after a failed
    one (a fetch rejected, a response not [ok] or a body that does not
    parse), when the message is not empty. *)
Theorem page_load_lifecycle (s s' : sys) (order : list nat) (fx : fetches) :
  reachable s -> step s (LoadComplete order fx) = Some s' ->
  let before := page_stats (App s) in
  let after := page_stats (App s') in
  (icon_loading before = true /\ total_text before = loading_text /\
   boundaries_text before = loading_text) /\
  icon_loading after = false /\
  (forall p b a0 a1 a2 ps bs, loaded fx p b a0 a1 a2 -> features p = Some ps ->
     features a1 = Some bs ->
     total_text after = count_locale (List.length ps) /\
     boundaries_text after = count_locale (List.length bs) /\ error_line after = None) /\
  (~ Forall fetch_ok (fetch_list fx) ->
     exists msg, error (app s') = Some msg /\
       (msg <> "" -> total_text after = error_text /\ boundaries_text after = error_text /\
                     error_line after = Some ("Error / خطأ: " ++ msg))).
Proof.
  intros Hr Hs. pose proof (reach_inv s Hr) as Hinv.
  assert (Hp : load_pending s = true) by (simpl in Hs; by destruct (load_pending s)).
  assert (Hs' : s' = finish_load s order fx) by (simpl in Hs; rewrite Hp in Hs; by injection Hs).
  assert (Hl' : loading (app s') = false) by (rewrite Hs'; apply loadData_complete_frame).
  unfold App, Stats; cbn [page_stats icon_loading total_text boundaries_text error_line].
  rewrite (inv_loading _ Hinv), Hp, Hl'. split_and!; try done.
  - intros p b a0 a1 a2 ps bs Hl Hps Hbs.
    destruct (load_stats s s' order fx p b a0 a1 a2
                (Loader.Stats (List.length ps) (visible (stats_of (app s))) (List.length bs)) Hr Hl)
      as (-> & -> & _); [by unfold spec_initial_stats; rewrite Hps, Hbs | done |].
    done.
  - intros Hf. rewrite Hs'. unfold finish_load, loadData_complete. simpl.
    destruct (fetch_and_parse order fx) as [cs|e] eqn:E;
      [exfalso; apply Hf, (fetch_and_parse_sound _ _ _ E)|].
    eexists. split; [reflexivity|]. intros Hm. by destruct (err_message e).
Qed.

End Page.
