(* ===== verification/Safety.v ===== *)
(** * Safety of the viewer and order independence of its controls

    Two groups of theorems about runs of the viewer ([MapView.step]):

    - safety: when every file the loader receives parses to a collection
      whose features have a string (or falsy) name and a geometry of a
      type Leaflet knows, no exception ever escapes an effect: the list
      [uncaught] of a run from the first render stays empty
      ([no_uncaught]).  The well-formedness is on the data, not on the
      run: a failed load is allowed, and the user may do anything.
    - order independence: on well-formed data in use, the place filter
      and the search text can be changed in either order with the same
      result, since each redraw of the places overwrites the previous one
      ([displayPlaces_overwrite], [places_controls_commute]). *)

From S2P Require Import Prelude JsValue GeoJson Filter Style Locale Popup Loader MapView Viewer Refinement.
From stdpp Require Import gmap.

Open Scope string_scope.

Module Safety.
Import PlaceFilter FilterEngine Style Loader MapView Viewer Refinement.

(** ** The exceptions that can escape, on any data *)

(** The exceptions the effects of the viewer throw on some data:
    [toLowerCase] of a name that is not a string, Leaflet's rejection of a
    geometry of an unknown type, and [.filter] of a collection without
    [features]. *)
Definition viewer_error (e : js_error) : Prop :=
  e = name_error \/ e = invalid_geojson \/ e = filter_error.

Lemma filterFeatures_error (pf st : string) (fs : list feature) (e : js_error) :
  filterFeatures pf st fs = Throw e -> e = name_error.
Proof.
  unfold filterFeatures. destruct (truthy (JStr st)); [|done].
  intros (f & _ & Hf)%filter_ex_throw. by apply PlaceFilterProofs.search_matches_throw in Hf as [-> _].
Qed.

Lemma geometry_layer_error (f : feature) (e : js_error) :
  geometry_layer f = Throw e -> e = invalid_geojson.
Proof. unfold geometry_layer. destruct (geometry f); [|done]. case_match; congruence. Qed.

Lemma draw_places_error (l : list feature) (e : js_error) :
  draw_places l = Throw e -> e = invalid_geojson.
Proof.
  induction l as [|f l IH]; simpl; [done|].
  destruct (geometry_layer f) as [[g|]|e'] eqn:Hg; [|exact IH|intros [= <-]; by eapply geometry_layer_error].
  destruct (Popup.place_popup_ok f) as [o ->]. simpl.
  destruct (draw_places l); [done|]. intros [= <-]. by apply IH.
Qed.

Lemma draw_boundaries_error (lvl : string) (fs : list feature) (e : js_error) :
  draw_boundaries lvl fs = Throw e -> e = invalid_geojson.
Proof.
  induction fs as [|f fs IH]; simpl; [done|].
  destruct (geometry_layer f) as [[g|]|e'] eqn:Hg; [|exact IH|intros [= <-]; by eapply geometry_layer_error].
  destruct (draw_boundaries lvl fs); [done|]. intros [= <-]. by apply IH.
Qed.

(** What an effect leaves: the exceptions recorded so far, and a thrown
    one of the three kinds. *)
Definition out_errors (x : sys) (o : outcome) : Prop :=
  match o with
  | Done y => uncaught y = uncaught x
  | Threw e y => viewer_error e /\ uncaught y = uncaught x
  end.

Lemma effects_errors (p : props) (x : sys) :
  out_errors x (displayPlaces p x) /\ out_errors x (toggleBoundaries p x) /\
  out_errors x (adminLevelEffect p x) /\ out_errors x (mapStyleEffect p x).
Proof.
  split_and!.
  - unfold displayPlaces. repeat case_match; simpl; try done; split; try done;
      [right; left; by eapply draw_places_error | left; by eapply filterFeatures_error |].
    unfold places_input_error. case_match; [right; right|right; left]; done.
  - unfold toggleBoundaries. repeat case_match; done.
  - unfold adminLevelEffect, displayBoundaries. repeat case_match; simplify_eq; simpl; try done.
    split; [right; left; by eapply draw_boundaries_error|done].
  - unfold mapStyleEffect. repeat case_match; done.
Qed.

Lemma then_run_errors (b : bool) (eff : props -> sys -> outcome) (p : props) (x : sys)
    (o : outcome) :
  (forall y, out_errors y (eff p y)) -> out_errors x o -> out_errors x (then_run b eff p o).
Proof.
  intros He Ho. destruct o as [y|e y], b; simpl; try done.
  specialize (He y). destruct (eff p y); simpl in *; [congruence|].
  destruct He as [? ?]. split; [done|congruence].
Qed.

(** A render records at most one exception, of the three kinds. *)
Lemma render_errors (s : sys) (u : props) :
  Forall viewer_error (uncaught s) -> Forall viewer_error (uncaught (render s u)).
Proof.
  intros H. rewrite render_eq.
  assert (Hf : out_errors (prepare s u) (flush false (committed s) u (prepare s u))).
  { rewrite flush_eq, then_run_false.
    repeat (apply then_run_errors;
            [intros y; edestruct (effects_errors u y) as (? & ? & ? & ?); eassumption|]).
    done. }
  destruct (flush false (committed s) u (prepare s u)) as [y|e y]; simpl in *.
  - by rewrite Hf.
  - destruct Hf as [He ->]. by constructor.
Qed.

Lemma step_errors (s s' : sys) (ev : event) :
  Forall viewer_error (uncaught s) -> step s ev = Some s' -> Forall viewer_error (uncaught s').
Proof.
  intros H. destruct ev; simpl; repeat case_match; intros; simplify_eq;
    try by apply render_errors.
  all: done.
Qed.

(** C15. What can go wrong, on any data: in every reachable state each
    exception that escaped an effect is one of three, the [TypeError] of
    [toLowerCase] on a truthy name that is not a string, Leaflet's
    "Invalid GeoJSON object." for a geometry of an unknown type (or for a
    places collection without [features] drawn whole), and the
    [TypeError] of [.filter] on a places collection without [features].
    Popups, styles, the toggle, the basemap switch and the load never
    throw. *)
Theorem uncaught_kinds (s : sys) : reachable s -> Forall viewer_error (uncaught s).
Proof.
  induction 1 as [|s ev s' _ IH Hstep].
  - destruct boot_state as (_ & _ & _ & _ & ->). constructor.
  - by apply (step_errors s s' ev).
Qed.

(** ** Well-formed data *)

Definition wf_feature (f : feature) : Prop := name_ok f /\ geometry_ok f.

Definition wf_collection (c : collection) : Prop :=
  exists fs, features c = Some fs /\ Forall wf_feature fs.

Definition wf_refs (r : data_refs) : Prop :=
  (forall c, placesData r = Some c -> wf_collection c) /\
  (forall c, boundariesData r = Some c -> wf_collection c) /\
  map_Forall (fun _ c => wf_collection c) (adminData r).

(** A fetch whose body parses gives a well-formed collection. *)
(** A boundary collection Leaflet draws: its features, of known geometry
    types. *)
Definition wf_boundaries (c : collection) (fs : list feature) : Prop :=
  features c = Some fs /\ Forall geometry_ok fs.

Definition wf_fetch (r : fetch_result) : Prop :=
  match r with
  | Fulfilled (Response _ (Ok c)) => wf_collection c
  | _ => True
  end.

Definition wf_event (ev : event) : Prop :=
  match ev with
  | LoadComplete _ fx => Forall wf_fetch (fetch_list fx)
  | _ => True
  end.

(** ** The effects do not throw on well-formed data *)

Lemma wf_data_to_use (r : data_refs) (c : collection) :
  wf_refs r -> data_to_use r = Some c -> wf_collection c.
Proof.
  intros (Hp & Hb & _). unfold data_to_use.
  destruct (boundariesData r) eqn:E; [intros [= <-]; by apply Hb|]. apply Hp.
Qed.

Lemma wf_current_boundaries (r : data_refs) (lvl : string) :
  wf_refs r -> wf_collection (getCurrentBoundaryData (adminData r) lvl).
Proof.
  intros (_ & _ & Ha). unfold getCurrentBoundaryData.
  destruct (adminData r !! lvl) eqn:E; [by eapply Ha|].
  destruct (adminData r !! "admin1") eqn:E1; [by eapply Ha|].
  exists []. split; [done|constructor].
Qed.

(** On well-formed features the filter and [L.geoJSON] of the places
    return normally. *)
Lemma places_pipeline_ok (p : props) (fs : list feature) :
  Forall wf_feature fs ->
  exists l layer, filterFeatures (placeFilter p) (searchTerm p) fs = Ok l /\
                  draw_places l = Ok layer.
Proof.
  intros Hfs.
  destruct (contract_total (filt := filterFeatures) (placeFilter p) (searchTerm p) fs)
    as [l Hl]; [eapply Forall_impl; [exact Hfs|]; by intros ? []|].
  destruct (draw_places_ok l) as (layer & Hd & _); [|eauto].
  rewrite (contract_ok _ _ _ _ Hl). apply List.Forall_forall. intros f Hf.
  apply filter_In in Hf as [Hf _]. rewrite List.Forall_forall in Hfs. apply Hfs, Hf.
Qed.

Lemma displayPlaces_done (p : props) (s : sys) :
  wf_refs (data (mv s)) -> exists s', displayPlaces p s = Done s'.
Proof.
  intros Hwf. unfold displayPlaces.
  destruct (placesLayer (mv s)) as [g0|]; [|eauto].
  destruct (String.eqb _ _); [eauto|].
  destruct (data_to_use (data (mv s))) as [c|] eqn:Hc; [|eauto].
  destruct (wf_data_to_use _ _ Hwf Hc) as (fs & -> & Hfs).
  destruct (places_pipeline_ok p fs Hfs) as (l & layer & -> & ->). eauto.
Qed.

(** With well-formed data in use, a redraw of the places erases every
    trace of the previous one: the group is cleared and drawn again, and
    [visible] is set again. *)
Lemma displayPlaces_overwrite (p q : props) (s : sys) (c : collection) :
  data_to_use (data (mv s)) = Some c -> wf_collection c ->
  displayPlaces p (out (displayPlaces q s)) = displayPlaces p s.
Proof.
  intros Hc (fs & Hfs & Hwf).
  destruct (places_pipeline_ok p fs Hwf) as (l & layer & Hl & Hd).
  destruct s as [a [mi ts tl pl pom bl bom d nid vw] cm lp cl un]; simpl in Hc.
  unfold displayPlaces; simpl. rewrite Hc, Hfs.
  destruct pl as [g|]; [|done]. simpl.
  repeat (case_match; simplify_eq; simpl); try congruence; reflexivity.
Qed.

Lemma adminLevelEffect_done (p : props) (s : sys) :
  wf_refs (data (mv s)) -> exists s', adminLevelEffect p s = Done s'.
Proof.
  intros Hwf. unfold adminLevelEffect. destruct (_ && _); [|eauto].
  unfold displayBoundaries. destruct (boundariesLayer (mv s)) as [g0|]; [|eauto].
  destruct (wf_current_boundaries _ (adminLevel p) Hwf) as (fs & -> & Hfs).
  destruct (draw_boundaries_ok (adminLevel p) fs) as (layer & -> & _); [|eauto].
  eapply Forall_impl; [exact Hfs|]. by intros ? [].
Qed.

(** Every effect of a render returns normally. *)
Lemma effect_done (eff : props -> sys -> outcome) (p : props) (s : sys) :
  eff = displayPlaces \/ eff = toggleBoundaries \/ eff = adminLevelEffect \/ eff = mapStyleEffect ->
  wf_refs (data (mv s)) -> exists s', eff p s = Done s' /\ eff_frame s s'.
Proof.
  intros Heff Hwf.
  assert (exists s', eff p s = Done s') as [s' Hs].
  { destruct Heff as [-> | [-> | [-> | ->]]].
    - by apply displayPlaces_done.
    - unfold toggleBoundaries. repeat case_match; eauto.
    - by apply adminLevelEffect_done.
    - unfold mapStyleEffect. repeat case_match; eauto. }
  exists s'. split; [done|].
  pose proof (effects_frame p s) as (H1 & H2 & H3 & H4).
  destruct Heff as [-> | [-> | [-> | ->]]]; rewrite Hs in *; done.
Qed.

Lemma then_run_done (b : bool) (eff : props -> sys -> outcome) (p : props) (x : sys) :
  eff = displayPlaces \/ eff = toggleBoundaries \/ eff = adminLevelEffect \/ eff = mapStyleEffect ->
  wf_refs (data (mv x)) -> exists y, then_run b eff p (Done x) = Done y /\ eff_frame x y.
Proof.
  intros Heff Hwf. destruct b; simpl; [by apply effect_done|].
  exists x. split; [done|]. unfold eff_frame. done.
Qed.

Lemma wf_frame (x y : sys) : eff_frame x y -> wf_refs (data (mv x)) -> wf_refs (data (mv y)).
Proof. intros (_ & _ & -> & _). done. Qed.

(** On well-formed data the flush of a render returns normally. *)
Lemma effects_done (b1 b2 b3 b4 : bool) (u : props) (x : sys) :
  wf_refs (data (mv x)) ->
  exists y, then_run b4 mapStyleEffect u (then_run b3 adminLevelEffect u
              (then_run b2 toggleBoundaries u (then_run b1 displayPlaces u (Done x)))) = Done y /\
            eff_frame x y.
Proof.
  intros Hwf.
  destruct (then_run_done b1 displayPlaces u x) as (x1 & -> & F1); [by left|done|].
  destruct (then_run_done b2 toggleBoundaries u x1) as (x2 & -> & F2);
    [by right; left|by eapply wf_frame|].
  destruct (then_run_done b3 adminLevelEffect u x2) as (x3 & -> & F3);
    [by right; right; left|by do 2 (eapply wf_frame; [eassumption|])|].
  destruct (then_run_done b4 mapStyleEffect u x3) as (x4 & -> & F4);
    [by right; right; right|by do 3 (eapply wf_frame; [eassumption|])|].
  exists x4. split; [done|]. eauto using eff_frame_trans.
Qed.

Lemma flush_done (old u : props) (x : sys) :
  wf_refs (data (mv x)) -> exists y, flush false old u x = Done y /\ eff_frame x y.
Proof. intros Hwf. rewrite flush_eq. rewrite then_run_false. by apply effects_done. Qed.

(** On well-formed data a render reports no exception. *)
Lemma render_safe (s : sys) (u : props) :
  wf_refs (data (mv s)) -> uncaught (render s u) = uncaught s.
Proof.
  intros Hwf. rewrite render_eq.
  destruct (flush_done (committed s) u (prepare s u)) as (y & -> & _ & _ & _ & _ & Hu & _); [done|].
  done.
Qed.

(** Two renders that change only the place filter and the search text,
    on well-formed data in use, leave what the second one draws alone,
    unless the second goes back to the props of the state. *)
Lemma render_places_twice (s : sys) (u1 u2 : props) (c : collection) :
  inv s -> wf_refs (data (mv s)) -> data_to_use (data (mv s)) = Some c ->
  showBoundaries u1 = showBoundaries (ui (app s)) -> adminLevel u1 = adminLevel (ui (app s)) ->
  mapStyle u1 = mapStyle (ui (app s)) -> showBoundaries u2 = showBoundaries u1 ->
  adminLevel u2 = adminLevel u1 -> mapStyle u2 = mapStyle u1 ->
  (placeFilter u2 = placeFilter (ui (app s)) -> searchTerm u2 = searchTerm (ui (app s)) ->
   u1 = ui (app s)) ->
  render (render s u1) u2 = render s u2.
Proof.
  intros Hinv Hwf Hc Hsb1 Hal1 Hms1 Hsb2 Hal2 Hms2 Hback.
  pose proof (inv_render_places s u1 Hinv Hsb1 Hal1 Hms1) as Hinv1.
  destruct (changed (placeFilter u1) (placeFilter u2) || changed (searchTerm u1) (searchTerm u2))
    eqn:Hch2.
  2:{ apply orb_false_split in Hch2 as [H1 H2]. apply changed_false in H1, H2.
      assert (u2 = u1) as -> by (by apply props_ext).
      by rewrite (render_same (render s u1) u1 Hinv1 (eq_sym (render_ui s u1))). }
  destruct (changed (placeFilter (ui (app s))) (placeFilter u1)
            || changed (searchTerm (ui (app s))) (searchTerm u1)) eqn:Hch1.
  2:{ apply orb_false_split in Hch1 as [H1 H2]. apply changed_false in H1, H2.
      by rewrite (render_same s u1 Hinv) by (by apply props_ext). }
  assert (Hs1 : render s u1 = out (displayPlaces u1 (prepare s u1))).
  { rewrite render_eq, (inv_committed _ Hinv), flush_places, Hch1 by done. cbn [then_run].
    by destruct (displayPlaces_done u1 (prepare s u1)) as [y ->]. }
  rewrite (render_eq (render s u1)), (inv_committed _ Hinv1), render_ui, flush_places, Hch2
    by congruence.
  rewrite (render_eq s u2), (inv_committed _ Hinv), flush_places by congruence.
  destruct (changed (placeFilter (ui (app s))) (placeFilter u2)
            || changed (searchTerm (ui (app s))) (searchTerm u2)) eqn:Hch3.
  - cbn [then_run]. rewrite Hs1, prepare_displayPlaces, prepare_prepare.
    by rewrite (displayPlaces_overwrite u2 u1 (prepare s u2) c Hc (wf_data_to_use _ _ Hwf Hc)).
  - apply orb_false_split in Hch3 as [H1 H2]. apply changed_false in H1, H2.
    rewrite (Hback (eq_sym H1) (eq_sym H2)), !changed_refl in Hch1. done.
Qed.

(** ** The load keeps the data well formed *)

Lemma wf_assign_refs (p b a0 a1 a2 : collection) :
  wf_collection p -> wf_collection b -> wf_collection a0 -> wf_collection a1 ->
  wf_collection a2 -> wf_refs (assign_refs p b a0 a1 a2).
Proof.
  intros Hp Hb H0 H1 H2. split_and!; simpl; try (by intros c [= <-]).
  repeat apply map_Forall_insert_2; try done.
Qed.

Lemma finish_load_wf (s : sys) (order : list nat) (fx : fetches) :
  wf_event (LoadComplete order fx) -> wf_refs (data (mv s)) ->
  wf_refs (data (mv (finish_load s order fx))).
Proof.
  simpl. intros Hfx Hwf. unfold finish_load, loadData_complete. simpl.
  destruct (fetch_and_parse order fx) as [[[[[p b] a0] a1] a2]|e] eqn:E; [|done].
  apply fetch_and_parse_loaded_inv in E. rewrite E in Hfx. simpl in Hfx.
  repeat match goal with H : Forall _ (_ :: _) |- _ => apply Forall_cons in H as [? H] end.
  assert (wf_refs (assign_refs p b a0 a1 a2)) by (by apply wf_assign_refs).
  by repeat case_match.
Qed.

(** One event on well-formed data: the data stay well formed and no
    exception is reported. *)
Lemma step_safe (s s' : sys) (ev : event) :
  wf_refs (data (mv s)) -> wf_event ev -> step s ev = Some s' ->
  wf_refs (data (mv s')) /\ uncaught s' = uncaught s.
Proof.
  intros Hwf Hev. destruct ev; simpl; repeat case_match; intros; simplify_eq;
    try (split; [by rewrite (proj1 (proj2 (proj2 (render_frame _ _))))|by apply render_safe]).
  - split; [by apply finish_load_wf|done].
  - done.
Qed.

Lemma run_safe (evs : list event) (s s' : sys) :
  wf_refs (data (mv s)) -> Forall wf_event evs -> run s evs = Some s' ->
  wf_refs (data (mv s')) /\ uncaught s' = uncaught s.
Proof.
  revert s. induction evs as [|ev evs IH]; simpl; intros s Hwf Hevs; [by intros [= <-]|].
  apply Forall_cons in Hevs as [Hev Hevs].
  destruct (step s ev) as [s1|] eqn:Hs; [|done]. intros Hrun.
  destruct (step_safe s s1 ev Hwf Hev Hs) as [Hwf1 Hu1].
  destruct (IH s1 Hwf1 Hevs Hrun) as [? Hu]. split; [done|congruence].
Qed.

(** C6. Safety: when every file the loader receives parses to a
    collection of features with a string or falsy [name] and a geometry of
    a type Leaflet draws, no exception escapes an effect in any run from
    the first render, whatever the user does and whether the load
    succeeds or fails. *)
Theorem no_uncaught (evs : list event) (s : sys) :
  Forall wf_event evs -> run boot evs = Some s -> uncaught s = [].
Proof.
  intros Hevs Hrun. destruct boot_state as (_ & _ & _ & Hd & Hu).
  rewrite <- Hu. apply (run_safe evs boot s); [|done..].
  rewrite Hd. split_and!; [done|done|apply map_Forall_empty].
Qed.

(** C11. Order independence of the place controls: once well-formed
    data are in use, choosing a place filter and then typing a search
    text leads to exactly the same state, drawing, counters and reported
    exceptions included, as typing the text first and choosing the
    filter after (and both are refused when the filter is not an
    option). *)
Theorem places_controls_commute (s : sys) (a t : string) :
  reachable s -> wf_refs (data (mv s)) -> is_Some (data_to_use (data (mv s))) ->
  run s [SetPlaceFilter a; SetSearchTerm t] = run s [SetSearchTerm t; SetPlaceFilter a].
Proof.
  intros Hr Hwf [c Hc]. pose proof (reach_inv s Hr) as Hinv. set (u := ui (app s)).
  destruct (bool_decide (a ∈ placeFilter_options)) eqn:Ha; [|simpl; by rewrite Ha].
  set (u1 := Props a (showBoundaries u) (adminLevel u) (searchTerm u) (mapStyle u)).
  set (v1 := Props (placeFilter u) (showBoundaries u) (adminLevel u) t (mapStyle u)).
  set (u2 := Props a (showBoundaries u) (adminLevel u) t (mapStyle u)).
  assert (run s [SetPlaceFilter a; SetSearchTerm t] = Some (render (render s u1) u2)) as ->
    by (simpl; rewrite Ha; simpl; by rewrite render_ui).
  assert (run s [SetSearchTerm t; SetPlaceFilter a] = Some (render (render s v1) u2)) as ->
    by (simpl; rewrite Ha; simpl; by rewrite render_ui).
  rewrite (render_places_twice s u1 u2 c), (render_places_twice s v1 u2 c); try done;
    simpl; intros H1 H2; apply props_ext; done.
Qed.

End Safety.
