(* ===== verification/Scenario.v ===== *)
(** * Concrete runs of the viewer

    A small copy of the data files (two points, three settlement
    polygons, one collection per admin level) and the runs of the viewer
    on it that instantiate the general theorems of [Loader], [Viewer],
    [Navigation], [Refinement], [Page], [Safety] and [Popup]:
    each [*_witness] applies one theorem at a concrete state reached from
    [boot], its hypotheses discharged by evaluation.  The [Example]s at
    the end are runs that show, on this data, the behaviours the general
    theorems imply and the interface does not announce: boundaries that
    are shown but not drawn, a reset that keeps the drawing of another
    level, a filter chosen during loading that is not applied, a
    visible count larger than the total, what a popup prints for areas
    written as strings, and how arrays in the data print. *)

From S2P Require Import Prelude JsValue ToNumber GeoJson Filter Style Locale Popup Loader Stats MapView Viewer Navigation Refinement Page Safety.
From stdpp Require Import gmap.

Open Scope string_scope.

Module Scenario.
Import PlaceFilter Style Locale Loader MapView Viewer Navigation Refinement Page Safety.

(** ** The data *)

Definition poly (kvs : list (string * jsval)) : feature :=
  Feature (Some (Geometry "Polygon" (Nested []))) (list_to_map kvs).

Definition coll (fs : list feature) : collection := Collection (Some fs).

Definition points : list feature :=
  [point_feature [("name", "Khartoum"); ("place", "city")];
   point_feature [("name", "Atbara"); ("place", "town")]].

Definition polygons : list feature :=
  [poly [("name", JStr "Khartoum"); ("place", JStr "city")];
   poly [("name", JStr "Omdurman"); ("place", JStr "city")];
   poly [("name", JStr "Atbara"); ("place", JStr "town")]].

Definition admin0_fs : list feature := [poly [("adm0_name", JStr "Sudan")]].
Definition admin1_fs : list feature :=
  [poly [("adm1_name", JStr "Khartoum"); ("area_sqkm", JNum (JsNum 221426 1))];
   poly [("adm1_name", JStr "River Nile")]].
Definition admin2_fs : list feature :=
  [poly [("adm2_name", JStr "Bahri"); ("adm1_name", JStr "Khartoum")]].

Definition good (c : collection) : fetch_result := Fulfilled (Response true (Ok c)).

(** Five good files, a rejected fetch, and a places or [admin0] file
    without [features]. *)
Definition fx : fetches :=
  Fetches (good (coll points)) (good (coll polygons)) (good (coll admin0_fs))
          (good (coll admin1_fs)) (good (coll admin2_fs)).

Definition fx_rejected : fetches :=
  Fetches (good (coll points)) (Rejected (JsError "TypeError" "Failed to fetch"))
          (good (coll admin0_fs)) (good (coll admin1_fs)) (good (coll admin2_fs)).

Definition fx_no_features : fetches :=
  Fetches (good (Collection None)) (good (coll polygons)) (good (coll admin0_fs))
          (good (coll admin1_fs)) (good (coll admin2_fs)).

Definition fx_bare_admin0 : fetches :=
  Fetches (good (coll points)) (good (coll polygons)) (good (Collection None))
          (good (coll admin1_fs)) (good (coll admin2_fs)).

(** The state after a run from [boot] ([boot] when an event is refused). *)
Definition after (evs : list event) : sys := default boot (run boot evs).

Definition st_loaded : sys := after [LoadComplete [] fx].
Definition st_city : sys := after [LoadComplete [] fx; SetPlaceFilter "city"].
Definition st_shown : sys := after [LoadComplete [] fx; SetShowBoundaries true].
Definition st_admin2 : sys :=
  after [LoadComplete [] fx; SetShowBoundaries true; SetAdminLevel "admin2"].

(** ** Reachability of the runs *)

Lemma after_reachable (evs : list event) : is_Some (run boot evs) -> reachable (after evs).
Proof.
  intros [s Hs]. unfold after. rewrite Hs. apply (run_reachable boot _ evs); [constructor|exact Hs].
Qed.

Ltac reach := apply after_reachable; vm_compute; eexists; reflexivity.

(** ** Witnesses of the viewer theorems *)

Lemma reachable_inv_witness : reachable st_city /\ inv st_city.
Proof.
  assert (H : reachable st_city) by reach.
  split; [exact H|]. exact (reachable_inv st_city H).
Defined.

Lemma places_redraw_witness :
  let sel := List.filter (fun f => bool_decide (shown (placeFilter (ui (app st_city)))
                                                    (searchTerm (ui (app st_city))) f)) polygons in
  exists layer, placesLayer (mv st_city) = Some [layer] /\
                List.map d_feature layer = List.filter has_geometry sel /\
                visible (stats_of (app st_city)) = List.length sel.
Proof.
  apply (places_redraw st_loaded st_city (SetPlaceFilter "city") (coll polygons) polygons).
  - reach.
  - vm_compute. reflexivity.
  - reflexivity.
  - repeat constructor; vm_compute; set_solver.
  - left. exists "city". split; [reflexivity|]. vm_compute. discriminate.
  - vm_compute. reflexivity.
  - vm_compute. discriminate.
Defined.

Lemma basemap_switch_witness :
  let s' := after [LoadComplete [] fx; SetMapStyle "dark"] in
  (exists t, map_tiles (mv s') = [t] /\ tileLayer (mv s') = Some t /\
             tile_url t = url (style_of "dark") /\ tile_attribution t = attribution (style_of "dark")) /\
  placesLayer (mv s') = placesLayer (mv st_loaded) /\
  boundariesLayer (mv s') = boundariesLayer (mv st_loaded) /\
  boundaries_on_map (mv s') = boundaries_on_map (mv st_loaded) /\
  data (mv s') = data (mv st_loaded) /\ stats_of (app s') = stats_of (app st_loaded).
Proof.
  apply basemap_switch.
  - reach.
  - vm_compute. reflexivity.
Defined.

Lemma admin_redraw_witness :
  exists layer, boundariesLayer (mv st_admin2) = Some [layer] /\
                List.map d_feature layer = List.filter has_geometry admin2_fs /\
                (forall d, In d layer -> d_style d = admin_style "admin2") /\
                boundaries_on_map (mv st_admin2) = true /\
                boundaries (stats_of (app st_admin2)) = List.length admin2_fs.
Proof.
  apply (admin_redraw st_shown st_admin2 "admin2" (coll admin2_fs) admin2_fs).
  - reach.
  - vm_compute. discriminate.
  - vm_compute. reflexivity.
  - reflexivity.
  - repeat constructor; vm_compute; set_solver.
  - vm_compute. reflexivity.
Defined.

Lemma reset_spec_witness :
  exists s', step st_admin2 ResetView = Some s' /\
    ui (app s') = default_props /\ placesLayer (mv s') = Some [] /\
    visible (stats_of (app s')) = 0 /\ boundaries_on_map (mv s') = false /\
    boundariesLayer (mv s') = boundariesLayer (mv st_admin2) /\
    boundaries (stats_of (app s')) = boundaries (stats_of (app st_admin2)) /\
    exists t, map_tiles (mv s') = [t] /\ tile_url t = url osm.
Proof. apply reset_spec. reach. Defined.

Lemma load_draws_nothing_witness :
  let s := after [SetPlaceFilter "all"] in
  let s' := after [SetPlaceFilter "all"; LoadComplete [] fx] in
  ui (app s') = ui (app s) /\ load_pending s' = false /\
  placesLayer (mv s') = Some [] /\ boundariesLayer (mv s') = Some [] /\
  boundaries_on_map (mv s') = showBoundaries (ui (app s')).
Proof.
  apply (load_draws_nothing _ _ [] fx).
  - reach.
  - vm_compute. reflexivity.
Defined.

(** ** Witnesses of the loader and formatting theorems *)

Definition st0 : load_state := LoadState no_data (Stats 0 0 0) None true.

Lemma loadData_failure_atomic_witness :
  exists msg, loadData_complete "admin1" [1] fx_rejected st0 =
              LoadState (ls_refs st0) (ls_stats st0) (Some msg) false.
Proof.
  apply loadData_failure_atomic.
  intros H. inversion H as [|r rs _ H1]; subst.
  inversion H1 as [|r' rs' Hb _]; subst. destruct Hb as [c Hc]. discriminate Hc.
Defined.

Lemma loadData_success_witness :
  loadData_complete "admin1" [] fx st0 =
  LoadState (assign_refs (coll points) (coll polygons) (coll admin0_fs) (coll admin1_fs)
                         (coll admin2_fs))
            (Stats (List.length points) (visible (ls_stats st0)) (List.length admin1_fs)) None false.
Proof.
  apply loadData_success.
  - reflexivity.
  - reflexivity.
  - vm_compute. reflexivity.
Defined.

(** Bodies that are not JSON: the polygons and [admin2] files, all [ok]
    (the load reports the polygons' parse error, whatever the order of
    arrival), and an [admin0] response that is not [ok] (the load reports
    it before parsing anything). *)
Definition bad_json (file : string) : js_error :=
  JsError "SyntaxError" ("Unexpected token '<' in " ++ file).

Definition rs_two_bad : list response :=
  [Response true (Ok (coll points)); Response true (Throw (bad_json "polygons"));
   Response true (Ok (coll admin0_fs)); Response true (Ok (coll admin1_fs));
   Response true (Throw (bad_json "admin2"))].

Definition rs_not_ok : list response :=
  [Response true (Ok (coll points)); Response true (Throw (bad_json "polygons"));
   Response false (Throw (bad_json "admin0")); Response true (Ok (coll admin1_fs));
   Response true (Ok (coll admin2_fs))].

Definition fulfilled (rs : list response) : fetches :=
  match Fulfilled <$> rs with
  | [a; b; c; d; e] => Fetches a b c d e
  | _ => fx
  end.

Lemma loadData_error_order_witness :
  ls_error (loadData_complete "admin1" [4; 1] (fulfilled rs_two_bad) st0) =
    Some (err_message (bad_json "polygons")) /\
  ls_error (loadData_complete "admin1" [] (fulfilled rs_not_ok) st0) =
    Some "Failed to load data files".
Proof.
  split.
  - apply (proj2 (loadData_error_order "admin1" [4; 1] (fulfilled rs_two_bad) st0 rs_two_bad
                    eq_refl) [Response true (Ok (coll points))]
             (List.skipn 2 rs_two_bad) (Response true (Throw (bad_json "polygons"))));
      [reflexivity | repeat constructor | repeat constructor; eexists; reflexivity | reflexivity].
  - apply (proj1 (loadData_error_order "admin1" [] (fulfilled rs_not_ok) st0 rs_not_ok eq_refl)).
    reflexivity.
Defined.

(** A places file without [features] sets the error although the refs
    are assigned; an [admin0] file without [features] sets none. *)
Lemma loadData_partial_exposure_witness :
  (ls_refs (loadData_complete "admin1" [] fx_no_features st0) =
     assign_refs (Collection None) (coll polygons) (coll admin0_fs) (coll admin1_fs)
                 (coll admin2_fs) /\
   (ls_error (loadData_complete "admin1" [] fx_no_features st0) <> None <->
    features (Collection None) = None \/
    features (getCurrentBoundaryData
                (adminData (assign_refs (Collection None) (coll polygons) (coll admin0_fs)
                                        (coll admin1_fs) (coll admin2_fs))) "admin1") = None)) /\
  (ls_error (loadData_complete "admin1" [] fx_bare_admin0 st0) <> None <->
   features (coll points) = None \/
   features (getCurrentBoundaryData
               (adminData (assign_refs (coll points) (coll polygons) (Collection None)
                                       (coll admin1_fs) (coll admin2_fs))) "admin1") = None).
Proof.
  split; [apply loadData_partial_exposure; reflexivity|].
  apply (loadData_partial_exposure "admin1" [] fx_bare_admin0 st0 (coll points) (coll polygons)
           (Collection None) (coll admin1_fs) (coll admin2_fs)). reflexivity.
Defined.

(** The area of Khartoum state, 22142.6 km², prints as "22,143". *)
Lemma round_locale_spec_witness :
  exists r : N,
    parse_grouped (round_locale (JNum (JsNum 221426 1))) = Some r /\
    (2 * 10 ^ Z.of_N 1 * Z.of_N r - 10 ^ Z.of_N 1 <= 2 * 221426 <
     2 * 10 ^ Z.of_N 1 * Z.of_N r + 10 ^ Z.of_N 1)%Z.
Proof. apply (round_locale_spec (JsNum 221426 1)). simpl. lia. Defined.

(** The popup of the Khartoum point. *)
Lemma place_popup_spec_witness :
  let f := point_feature [("name", "Khartoum"); ("place", "city")] in
  (truthy (prop f "name") = false -> Popup.place_popup f = Ok None) /\
  (truthy (prop f "name") = true ->
   exists p, Popup.place_popup f = Ok (Some p) /\
             Popup.title p = to_string (prop f "name") /\
             (Popup.title p = "" -> exists xs, prop f "name" = JArray xs) /\
             (truthy (prop f "population") = true <->
              exists txt, In ("Population / السكان", txt) (Popup.rows p))).
Proof. apply Popup.place_popup_spec. Defined.

(** ** What the runs show *)

(** Showing the boundaries right after the load: the group is on the map
    and empty, while the statistics count the two [admin1] features. *)
Example first_show_empty :
  boundaries_on_map (mv st_shown) = true /\ boundariesLayer (mv st_shown) = Some [] /\
  boundaries (stats_of (app st_shown)) = 2.
Proof. vm_compute. auto. Qed.

(** Reset after drawing [admin2], then show again: the admin level is
    [admin1] and the count is that of [admin2], whose drawing is shown in
    the [admin2] style. *)
Example reset_keeps_stale_boundaries :
  let s := after [LoadComplete [] fx; SetShowBoundaries true; SetAdminLevel "admin2";
                  ResetView; SetShowBoundaries true] in
  adminLevel (ui (app s)) = "admin1" /\ boundaries_on_map (mv s) = true /\
  boundaries (stats_of (app s)) = 1 /\
  option_map (List.map (List.map d_style)) (boundariesLayer (mv s)) = Some [[admin_style "admin2"]] /\
  admin_style "admin2" <> admin_style "admin1".
Proof. vm_compute. split_and!; try reflexivity. discriminate. Qed.

(** The place filter chosen while loading is not applied: after the load
    the filter is "all" and no place is drawn. *)
Example preload_filter_lost :
  let s := after [SetPlaceFilter "all"; LoadComplete [] fx] in
  placeFilter (ui (app s)) = "all" /\ placesLayer (mv s) = Some [] /\
  visible (stats_of (app s)) = 0 /\ total (stats_of (app s)) = 2.
Proof. vm_compute. auto. Qed.

(** [total] counts the point features and [visible] the polygons drawn:
    with every place shown, three are visible out of a total of two. *)
Example visible_exceeds_total :
  let s := after [LoadComplete [] fx; SetPlaceFilter "all"] in
  total (stats_of (app s)) = 2 /\ visible (stats_of (app s)) = 3.
Proof. vm_compute. auto. Qed.

(** The admin2 fetch fails (spec, section 8): the panel shows the error for
    the total and the boundary count, the visible count [0], the message
    below, and no layer is drawn. *)
Example failed_load_panel :
  let s := after [SetPlaceFilter "all"; LoadComplete [4] fx_rejected; SetShowBoundaries true] in
  StatsPanel.Stats (stats_of (app s)) (loading (app s)) (error (app s)) =
    StatsPanel.StatsView false StatsPanel.error_text "0" StatsPanel.error_text (Some "Error / خطأ: Failed to fetch") /\
  placesLayer (mv s) = Some [] /\ boundariesLayer (mv s) = Some [].
Proof. vm_compute. auto. Qed.

(** ** Witnesses of the refinement and safety theorems *)

Lemma reachable_props_typed_witness : props_typed (ui (app st_admin2)).
Proof. apply reachable_props_typed. reach. Defined.

Lemma places_refine_witness :
  placesLayer (mv st_city) = Some [] \/
  exists sel layer, spec_selection st_city = Some sel /\ placesLayer (mv st_city) = Some [layer] /\
    List.map d_feature layer = List.filter has_geometry sel /\
    visible (stats_of (app st_city)) = List.length sel.
Proof. apply places_refine. reach. Defined.

(** Boundaries shown and [admin2] chosen while the data load: the count
    set by the load is the one of [admin1]. *)
Lemma load_counts_admin1_witness :
  let s := after [SetShowBoundaries true; SetAdminLevel "admin2"] in
  let s' := after [SetShowBoundaries true; SetAdminLevel "admin2"; LoadComplete [] fx] in
  stats_of (app s') = Stats (List.length points) 0 (List.length admin1_fs) /\
  error (app s') = None /\ loading (app s') = false /\ ui (app s') = ui (app s).
Proof.
  apply (load_counts_admin1 _ _ [] fx (coll points) (coll polygons) (coll admin0_fs)
           (coll admin1_fs) (coll admin2_fs)).
  - reach.
  - reflexivity.
  - vm_compute. reflexivity.
  - vm_compute. reflexivity.
Defined.

Ltac wf_coll := eexists; split; [reflexivity|];
  repeat constructor; try (intros ?; eexists; reflexivity); vm_compute; set_solver.

Definition safe_run : list event :=
  [SetPlaceFilter "all"; LoadComplete [2; 0] fx; SetSearchTerm "khar"; SetShowBoundaries true;
   SetAdminLevel "admin2"; SetMapStyle "dark"; ResetView].

Lemma no_uncaught_witness : uncaught (after safe_run) = [].
Proof.
  apply (no_uncaught safe_run).
  - repeat constructor; unfold wf_fetch; simpl; wf_coll.
  - vm_compute. reflexivity.
Defined.

Lemma st_loaded_wf : wf_refs (data (mv st_loaded)).
Proof.
  apply (run_safe [LoadComplete [] fx] boot st_loaded).
  - destruct boot_state as (_ & _ & _ & -> & _). split_and!; [done|done|apply map_Forall_empty].
  - repeat constructor; unfold wf_fetch; simpl; wf_coll.
  - vm_compute. reflexivity.
Qed.

Lemma places_controls_commute_witness :
  run st_loaded [SetPlaceFilter "city"; SetSearchTerm "om"] =
  run st_loaded [SetSearchTerm "om"; SetPlaceFilter "city"].
Proof.
  apply places_controls_commute; [reach | exact st_loaded_wf | vm_compute; eexists; reflexivity].
Defined.

Definition st_preload : sys := after [SetPlaceFilter "all"; LoadComplete [] fx].

(** Four toggles in a row after the admin level was drawn. *)
Lemma rapid_toggle_witness :
  exists s', run st_admin2 [SetShowBoundaries false; SetShowBoundaries true;
                            SetShowBoundaries false; SetShowBoundaries true] = Some s' /\
    boundariesLayer (mv s') = boundariesLayer (mv st_admin2) /\
    placesLayer (mv s') = placesLayer (mv st_admin2) /\
    stats_of (app s') = stats_of (app st_admin2) /\
    boundaries_on_map (mv s') = showBoundaries (ui (app s')).
Proof.
  assert (Hr : reachable st_admin2) by reach.
  eexists. split; [vm_compute; reflexivity|].
  apply (rapid_toggle st_admin2 _ [SetShowBoundaries false; SetShowBoundaries true;
                                   SetShowBoundaries false; SetShowBoundaries true] Hr);
    [repeat constructor; eexists; reflexivity | vm_compute; reflexivity].
Defined.

(** After the load, three control changes keep the data and the load
    done. *)
Lemma load_once_witness :
  exists s', run st_loaded [SetPlaceFilter "city"; SetShowBoundaries true; ResetView] = Some s' /\
    load_pending s' = false /\ loading (app s') = false /\ data (mv s') = data (mv st_loaded).
Proof.
  assert (Hr : reachable st_loaded) by reach.
  eexists. split; [vm_compute; reflexivity|].
  apply (load_once st_loaded _ [SetPlaceFilter "city"; SetShowBoundaries true; ResetView] Hr);
    vm_compute; reflexivity.
Defined.

Lemma boundaries_refine_witness :
  boundariesLayer (mv st_admin2) = Some [] \/
  exists lvl layer, boundariesLayer (mv st_admin2) = Some [layer] /\
                    drawn_level (mv st_admin2) lvl layer.
Proof. apply boundaries_refine. reach. Defined.



(** ** Witnesses of the viewport theorems *)

(** The map dragged to Port Sudan and zoomed in. *)
Definition port_sudan : viewport := Viewport (JsNum 196160 4) (JsNum 372156 4) (JsNum 9 0).

Definition st_moved : sys := after [LoadComplete [] fx; MoveMap port_sudan].

Lemma view_refine_witness :
  step st_loaded (MoveMap port_sudan) = Some st_moved /\
  view (mv st_moved) = spec_view (view (mv st_loaded)) (MoveMap port_sudan).
Proof.
  assert (H : step st_loaded (MoveMap port_sudan) = Some st_moved) by (vm_compute; reflexivity).
  split; [exact H | exact (view_refine _ _ _ H)].
Defined.

(** A basemap switch and the reset button after the drag: the map stays
    at Port Sudan. *)
Lemma reset_keeps_view_witness :
  exists s', run st_moved [SetMapStyle "dark"; ResetView] = Some s' /\
             view (mv s') = Some port_sudan.
Proof.
  eexists. split; [vm_compute; reflexivity|].
  rewrite (reset_keeps_view st_moved _ [SetMapStyle "dark"; ResetView]);
    [vm_compute; reflexivity | by repeat constructor | vm_compute; reflexivity].
Defined.

(** ** Witnesses of the page theorems *)

(** The first load, with five good files: the loading indicator goes
    off and the panel counts two places and two states. *)
Lemma page_load_lifecycle_witness :
  step boot (LoadComplete [] fx) = Some st_loaded /\
  StatsPanel.icon_loading (Page.page_stats (Page.App st_loaded)) = false /\
  StatsPanel.total_text (Page.page_stats (Page.App st_loaded)) = StatsPanel.count_locale 2 /\
  StatsPanel.boundaries_text (Page.page_stats (Page.App st_loaded)) = StatsPanel.count_locale 2.
Proof.
  assert (H : step boot (LoadComplete [] fx) = Some st_loaded) by (vm_compute; reflexivity).
  destruct (Page.page_load_lifecycle boot st_loaded [] fx (reach_boot) H) as (_ & Hoff & Hok & _).
  destruct (Hok (coll points) (coll polygons) (coll admin0_fs) (coll admin1_fs) (coll admin2_fs)
              points admin1_fs) as (Ht & Hb & _); [reflexivity..|].
  split_and!; [exact H | exact Hoff | exact Ht | exact Hb].
Defined.

(** At boot the admin-level select is disabled: it offers no level. *)
Example boot_admin_select_disabled :
  Forall (fun v => Page.offers (Page.admin_select (Page.page_controls (Page.App boot))) v = false)
    adminLevel_options.
Proof. vm_compute. repeat constructor. Qed.

(** ** Areas written as strings *)




(** Arrays in the data print as JavaScript prints them: [String([])] is
    the empty string, so a truthy name [[]] gives an empty title; an area
    [[5]] is the number 5, and a population [[1000, null]] prints as
    ["1,000,"]. *)
Example array_values :
  Popup.title (Popup.boundary_popup "admin0" (poly [("name", JArray [])])) = "" /\
  round_locale (JArray [JNum (JsNum 5 0)]) = "5" /\
  to_locale_string (JArray [JNum (JsNum 1000 0); JNull]) = Ok "1,000,".
Proof. vm_compute. split_and!; reflexivity. Qed.

(** What a popup prints for areas written as strings: blanks are
    trimmed, hexadecimal is read, an overflowing literal is an infinity,
    and a literal with a sign before its hexadecimal prefix is NaN. *)
Example area_strings :
  List.map (fun a => round_locale (JStr a)) [" 12.5 "; "0x10"; "1e400"; "-0x10"; "."; ""] =
  ["13"; "16"; "∞"; "NaN"; "NaN"; "0"].
Proof. vm_compute. reflexivity. Qed.

(** A polygon whose [name] is a number: with a place filter and a search
    text, [toLowerCase] throws and the exception escapes the effect. *)
Definition fx_numeric_name : fetches :=
  Fetches (good (coll points))
          (good (coll (poly [("name", JNum (JsNum 42 0)); ("place", JStr "village")] :: polygons)))
          (good (coll admin0_fs)) (good (coll admin1_fs)) (good (coll admin2_fs)).

Example malformed_name_uncaught :
  uncaught (after [SetPlaceFilter "all"; LoadComplete [] fx_numeric_name; SetSearchTerm "a"]) =
  [PlaceFilter.name_error].
Proof. vm_compute. reflexivity. Qed.

(** The same run: the exception it records is one of the three kinds. *)
Lemma uncaught_kinds_witness :
  Forall viewer_error
    (uncaught (after [SetPlaceFilter "all"; LoadComplete [] fx_numeric_name; SetSearchTerm "a"])).
Proof. apply uncaught_kinds. reach. Defined.

End Scenario.
